(** * astrbot_plugin_jrys: fortune selection, text wrapping, downloads,
      background lookup, cache migration and the per-request orchestration

    A shallow embedding of the parts of [painter.py], [resources.py] and
    [main.py] that decide the daily fortune and move files around, with the
    properties of the written specification stated over it.

    Conventions of the embedding.
    - Python [str] is [string]; a [dict] whose iteration order matters is an
      association list in insertion order; a directory or a file system is a
      [gmap] from names to entries.
    - Python's true division on the integer rates yields a float; weights are
      exact rationals ([Q]) here, so rounding is not represented.
    - A Python exception is a value of [exn] carried by [result]; a
      [try/except Exception] is a [match] on it.
    - The Mersenne Twister behind [random.Random], the HTTP peer and
      [uuid4] are parameters: the generator is an abstract state with its
      two primitives, the peer is a script of what each attempt meets.
    - In the download, removing a file that exists succeeds, so the
      [except Exception: pass] around the removal of the temporary file has
      nothing to catch; in the migration, where the source counts and logs
      failures, each file operation has a flag saying whether it raises. *)

From Stdlib Require Import ZArith QArith Lia Lqa Bool Ascii.
From stdpp Require Import gmap strings list.

(** ** Exceptions and results *)

Inductive exn : Type :=
| ValueError
| IndexError
| KeyError
| ZeroDivisionError
| CancelledError.

Inductive result (A : Type) : Type :=
| Ok (a : A)
| Raise (e : exn).
Arguments Ok {A} a.
Arguments Raise {A} e.

#[global] Instance result_bind : MBind result := fun A B k m =>
  match m with
  | Ok a => k a
  | Raise e => Raise e
  end.

Fixpoint mapM {A B : Type} (f : A -> result B) (l : list A) : result (list B) :=
  match l with
  | [] => Ok []
  | a :: l' => b ← f a; bs ← mapM f l'; Ok (b :: bs)
  end.

(** A comprehension [[x for x in l if p(x)]] whose test may raise. *)
Fixpoint filterM {A : Type} (p : A -> result bool) (l : list A) : result (list A) :=
  match l with
  | [] => Ok []
  | a :: l' =>
      b ← p a; r ← filterM p l'; Ok (if b : bool then a :: r else r)
  end.

(** ** The Python built-ins the source calls *)

Module Py.

Definition is_digit (c : ascii) : bool :=
  (48 <=? nat_of_ascii c)%nat && (nat_of_ascii c <=? 57)%nat.

Definition digit_value (c : ascii) : Z := Z.of_nat (nat_of_ascii c - 48).

(** ASCII white space as [str.strip] and [int] see it. *)
Definition is_space (c : ascii) : bool :=
  let n := nat_of_ascii c in
  (n =? 32)%nat || ((9 <=? n)%nat && (n <=? 13)%nat)
  || ((28 <=? n)%nat && (n <=? 31)%nat).

Fixpoint lstrip (s : list ascii) : list ascii :=
  match s with
  | c :: r => if is_space c then lstrip r else s
  | [] => []
  end.

Definition strip (s : list ascii) : list ascii :=
  rev (lstrip (rev (lstrip s))).

(** Digits with single underscores between them, as [int] accepts. *)
Fixpoint digits (acc : Z) (after_digit : bool) (s : list ascii) : option Z :=
  match s with
  | [] => if after_digit then Some acc else None
  | c :: r =>
      if is_digit c then digits (10 * acc + digit_value c) true r
      else if Ascii.eqb c "_" && after_digit then digits acc false r
      else None
  end.

(** [int(s)] on ASCII text: surrounding white space, an optional sign,
    decimal digits.  [None] stands for [ValueError].  Digits outside
    ASCII, which [int] also accepts, are not represented. *)
Definition int (s : string) : option Z :=
  match strip (String.list_ascii_of_string s) with
  | c :: r =>
      if Ascii.eqb c "-" then Z.opp <$> digits 0 false r
      else if Ascii.eqb c "+" then digits 0 false r
      else digits 0 false (c :: r)
  | [] => None
  end.

Definition int_r (s : string) : result Z :=
  match int s with
  | Some z => Ok z
  | None => Raise ValueError
  end.

(** [s.startswith(p)] *)
Definition startswith (p s : string) : bool := String.prefix p s.

(** [a / b] on integers. *)
Definition truediv (a b : Z) : result Q :=
  if (b =? 0)%Z then Raise ZeroDivisionError
  else Ok (inject_Z a / inject_Z b)%Q.

(** [sum(l)] *)
Definition sum (l : list Q) : Q := fold_left Qplus l 0%Q.

(** [itertools.accumulate(l)] *)
Fixpoint accumulate_from (acc : Q) (l : list Q) : list Q :=
  match l with
  | [] => []
  | w :: r => (acc + w)%Q :: accumulate_from (acc + w)%Q r
  end.

Definition accumulate (l : list Q) : list Q :=
  match l with
  | [] => []
  | w :: r => w :: accumulate_from w r
  end.

(** [bisect.bisect_right(a, x, lo, hi)]: the loop
    [while lo < hi: mid = (lo + hi) // 2;
     if x < a[mid]: hi = mid  else: lo = mid + 1], then [return lo]. *)
Fixpoint bisect_loop (fuel : nat) (a : list Q) (x : Q) (lo hi : nat)
  : result nat :=
  if (lo <? hi)%nat then
    match fuel with
    | O => Ok lo
    | S fuel' =>
        let mid := ((lo + hi) / 2)%nat in
        match a !! mid with
        | None => Raise IndexError
        | Some am =>
            if Qle_bool am x then bisect_loop fuel' a x (mid + 1) hi
            else bisect_loop fuel' a x lo mid
        end
    end
  else Ok lo.

Definition bisect_right (a : list Q) (x : Q) (lo hi : nat) : result nat :=
  bisect_loop (hi - lo) a x lo hi.

End Py.

(** ** [random.Random]: the two draws of the selection step

    The generator is abstract.  [random53] is one step of the twister as
    [random()] uses it: the float returned is [k / 2^53] for the 53-bit
    integer [k] (reduced here, so that no assumption on the parameter is
    needed).  [randbelow] is [_randbelow(n)], likewise reduced below [n]. *)

Section PyRandom.
Context {Rng : Type}.
Variable random53 : Rng -> Z * Rng.
Variable randbelow : Rng -> nat -> nat * Rng.

Definition random (rng : Rng) : Q * Rng :=
  let '(k, rng') := random53 rng in
  (Qmake (k mod 2 ^ 53) (2 ^ 53), rng').

(** [rng.choices(population, weights=ws, k=1)[0]] *)
Definition choices1 {A : Type} (rng : Rng) (population : list A) (ws : list Q)
  : result (A * Rng) :=
  let n := length population in
  let cum_weights := Py.accumulate ws in
  if negb (length cum_weights =? n)%nat then Raise ValueError
  else
    match last cum_weights with
    | None => Raise IndexError
    | Some total =>
        if Qle_bool total 0 then Raise ValueError
        else
          let '(u, rng') := random rng in
          i ← Py.bisect_right cum_weights (u * total)%Q 0 (n - 1);
          match population !! i with
          | Some x => Ok (x, rng')
          | None => Raise IndexError
          end
    end.

(** [rng.choice(seq)] *)
Definition choice {A : Type} (rng : Rng) (seq : list A) : result (A * Rng) :=
  match seq with
  | [] => Raise IndexError
  | _ :: _ =>
      let '(i, rng') := randbelow rng (length seq) in
      match seq !! (i mod length seq)%nat with
      | Some x => Ok (x, rng')
      | None => Raise IndexError
      end
  end.
End PyRandom.

(** ** [painter.py] *)

Module Painter.

(** *** Data *)

Record FortuneEntry : Type := {
  fortuneSummary : option string;
  luckyStar : option string;
  signText : option string;
  unsignText : option string
}.

Record LastImage : Type := { path : string; should_cleanup : bool }.

(** A value of the table document: the entry list of a score key, or the
    object kept under a reserved key such as [_user_last_images]. *)
Inductive JValue : Type :=
| JList (entries : list FortuneEntry)
| JDict (members : list (string * LastImage)).

Definition Table : Type := list (string * JValue).

(** [k in jrys_data] and [jrys_data[k]] *)
Fixpoint lookup_key (k : string) (jrys_data : Table) : option JValue :=
  match jrys_data with
  | [] => None
  | (k', v) :: rest => if String.eqb k k' then Some v else lookup_key k rest
  end.

Record Rates : Type := {
  good : option Z;
  normal : option Z;
  bad : option Z
}.

Record Config : Type := {
  fixed_daily_fortune : bool;
  holiday_rates_enabled : bool;
  holidays : list string;
  normal_rates : Rates;
  holiday_rates : Rates
}.

(** What [datetime.now()] returns. *)
Record DateTime : Type := {
  year : Z; month : Z; day : Z;
  hour : Z; minute : Z; second : Z
}.

Definition digit_char (d : Z) : ascii := ascii_of_nat (Z.to_nat (48 + d)).

Definition pad2 (n : Z) : string :=
  String (digit_char (n / 10 mod 10)) (String (digit_char (n mod 10)) "").

Definition pad4 (n : Z) : string :=
  String (digit_char (n / 1000 mod 10))
    (String (digit_char (n / 100 mod 10)) (pad2 n)).

(** [now.strftime("%Y-%m-%d")] and [now.strftime("%m-%d")] *)
Definition strftime_Ymd (now : DateTime) : string :=
  pad4 (year now) +:+ "-" +:+ pad2 (month now) +:+ "-" +:+ pad2 (day now).

Definition strftime_md (now : DateTime) : string :=
  pad2 (month now) +:+ "-" +:+ pad2 (day now).

(** The range of [datetime]: years 1 to 9999, which [%Y] writes with four
    digits, and month and day within their bounds. *)
Definition calendar_date (now : DateTime) : Prop :=
  (1 <= year now <= 9999 /\ 1 <= month now <= 12 /\ 1 <= day now <= 31)%Z.

Definition same_date (a b : DateTime) : Prop :=
  year a = year b /\ month a = month b /\ day a = day b.

(** *** The selection step, lines 116 to 181 of [generate_image_sync] *)

(** [f"{user_id}-{today_str}"] *)
Definition seed_string (user_id : string) (now : DateTime) : string :=
  user_id +:+ "-" +:+ strftime_Ymd now.

Definition valid_keys_list (jrys_data : Table) : list string :=
  List.filter (fun k => negb (Py.startswith "_" k)) (jrys_data.*1).

Definition current_rates (cfg : Config) (now : DateTime) : Rates :=
  if holiday_rates_enabled cfg
     && existsb (String.eqb (strftime_md now)) (holidays cfg)
  then holiday_rates cfg
  else normal_rates cfg.

Definition good_keys (keys : list string) : result (list string) :=
  filterM (fun k => v ← Py.int_r k; Ok (70 <? v)%Z) keys.

Definition normal_keys (keys : list string) : result (list string) :=
  filterM (fun k => v ← Py.int_r k; Ok ((56 <=? v)%Z && (v <=? 70)%Z)) keys.

Definition bad_keys (keys : list string) : result (list string) :=
  filterM (fun k => v ← Py.int_r k; Ok (v <? 56)%Z) keys.

(** One turn of the loop that appends to [weights]. *)
Definition key_weight (rates : Rates) (n_good n_normal n_bad : nat) (k : string)
  : result Q :=
  val ← Py.int_r k;
  if (70 <? val)%Z then
    Py.truediv (default 40%Z (good rates)) (Z.of_nat (Nat.max n_good 1))
  else if (56 <=? val)%Z then
    Py.truediv (default 40%Z (normal rates)) (Z.of_nat (Nat.max n_normal 1))
  else
    Py.truediv (default 20%Z (bad rates)) (Z.of_nat (Nat.max n_bad 1)).

(** The list [weights] as the loop leaves it (lines 154 to 166). *)
Definition weights (rates : Rates) (keys : list string) : result (list Q) :=
  g ← good_keys keys;
  n ← normal_keys keys;
  b ← bad_keys keys;
  mapM (key_weight rates (length g) (length n) (length b)) keys.

(** The list handed to [rng.choices] (after lines 169 and 170). *)
Definition draw_weights (ws : list Q) (keys : list string) : list Q :=
  if Qle_bool (Py.sum ws) 0 then replicate (length keys) 1%Q else ws.

Inductive none_reason : Type :=
| EmptyData                (* line 118 *)
| KeyNotFound (k : string) (* line 178 *)
| Caught (e : exn).        (* line 271 *)

Inductive outcome : Type :=
| Selected (key_1 : string) (key_2 : nat) (fortune_data : FortuneEntry)
| ReturnedNone (why : none_reason).

Section Selection.
Context {Rng : Type}.
(** [rng.seed(s)] for a string: the state depends on [s] alone. *)
Variable seed : string -> Rng.
Variable random53 : Rng -> Z * Rng.
Variable randbelow : Rng -> nat -> nat * Rng.

(** Lines 128 to 135; [rng0] is the state [random.Random()] starts in. *)
Definition make_rng (cfg : Config) (rng0 : Rng) (user_id : string)
    (now : DateTime) : Rng :=
  if fixed_daily_fortune cfg then seed (seed_string user_id now) else rng0.

(** Lines 137 to 173: the key drawn and the generator after the draw. *)
Definition draw_key (cfg : Config) (now : DateTime) (jrys_data : Table)
    (rng : Rng) : result (string * Rng) :=
  let keys := valid_keys_list jrys_data in
  ws ← weights (current_rates cfg now) keys;
  choices1 random53 rng keys (draw_weights ws keys).

(** Lines 176 to 181. *)
Definition pick_entry (jrys_data : Table) (key_1 : string) (rng : Rng)
  : result outcome :=
  match lookup_key key_1 jrys_data with
  | None => Ok (ReturnedNone (KeyNotFound key_1))
  | Some (JList entries) =>
      '(key_2, _) ← choice randbelow rng (seq 0 (length entries));
      match entries !! key_2 with
      | Some fortune_data => Ok (Selected key_1 key_2 fortune_data)
      | None => Raise IndexError
      end
  | Some (JDict members) =>
      '(_, _) ← choice randbelow rng (seq 0 (length members));
      Raise KeyError
  end.

Definition generate_image_sync_select (cfg : Config) (user_id : string)
    (now : DateTime) (rng0 : Rng) (jrys_data : Table) : outcome :=
  match jrys_data with
  | [] => ReturnedNone EmptyData
  | _ :: _ =>
      let rng := make_rng cfg rng0 user_id now in
      match
        '(key_1, rng') ← draw_key cfg now jrys_data rng;
        pick_entry jrys_data key_1 rng'
      with
      | Ok o => o
      | Raise e => ReturnedNone (Caught e)
      end
  end.
End Selection.

(** *** The categories in the words of the specification

    Good above 70, normal from 56 to 70 inclusive, bad below 56; the
    weight of a key is the rate of its category over the number of keys
    of that category, the divisor being at least 1.  These are compared
    with [weights] and [draw_weights] above. *)

Inductive category : Type := Good | Normal | Bad.

Definition category_eqb (a b : category) : bool :=
  match a, b with
  | Good, Good | Normal, Normal | Bad, Bad => true
  | _, _ => false
  end.

Definition category_of (v : Z) : category :=
  if (70 <? v)%Z then Good
  else if (56 <=? v)%Z && (v <=? 70)%Z then Normal
  else Bad.

Definition in_category (c : category) (k : string) : bool :=
  match Py.int k with
  | Some v => category_eqb (category_of v) c
  | None => false
  end.

Definition category_count (c : category) (keys : list string) : nat :=
  length (List.filter (in_category c) keys).

Definition rate_of (rates : Rates) (c : category) : Z :=
  match c with
  | Good => default 40%Z (good rates)
  | Normal => default 40%Z (normal rates)
  | Bad => default 20%Z (bad rates)
  end.

Definition category_weight (rates : Rates) (keys : list string) (c : category) : Q :=
  (inject_Z (rate_of rates c)
   / inject_Z (Z.of_nat (Nat.max (category_count c keys) 1)))%Q.

(** The profile with the three percentages set to 0. *)
Definition zero_rates : Rates :=
  {| good := Some 0%Z; normal := Some 0%Z; bad := Some 0%Z |}.

(** Every key of the list is the text of an integer. *)
Definition keys_parse (keys : list string) : bool :=
  forallb (fun k => match Py.int k with Some _ => true | None => false end) keys.

(** Every score key carries a non-empty entry list. *)
Definition entries_nonempty (t : Table) : bool :=
  forallb (fun kv =>
             Py.startswith "_" (fst kv)
             || match snd kv with JList (_ :: _) => true | _ => false end) t.

(** The weight sentence read as it is written: the weight of every key in
    the list handed to the draw is the rate of its category over the count
    of that category. *)
Definition selection_weights_as_stated (rates : Rates) (keys : list string) : Prop :=
  exists ws, weights rates keys = Ok ws /\
    forall i k v, keys !! i = Some k -> Py.int k = Some v ->
      exists w, draw_weights ws keys !! i = Some w
                /\ (w == category_weight rates keys (category_of v))%Q.

(** *** [wrap_text], lines 484 to 523

    A character is a value of an arbitrary type [char] and a text is a
    list of them.  [text_width s] is [bbox[2] - bbox[0]] for
    [draw.textbbox((0, 0), s, font=font)], or the exception it raises. *)

Section WrapText.
Context {char : Type}.
Variable text_width : list char -> result Z.

(** The [for char in text] loop with [lines] and [current_line], and
    the final [if current_line: lines.append(current_line)]. *)
Fixpoint wrap_loop (max_width : Z) (text : list char)
    (lines : list (list char)) (current_line : list char)
  : result (list (list char)) :=
  match text with
  | [] =>
      match current_line with
      | [] => Ok lines
      | _ :: _ => Ok (lines ++ [current_line])
      end
  | c :: rest =>
      let test_line := current_line ++ [c] in
      width ← text_width test_line;
      if (width <=? max_width)%Z then wrap_loop max_width rest lines test_line
      else wrap_loop max_width rest (lines ++ [current_line]) [c]
  end.

Definition wrap_text (text : list char) (max_width : Z) : list (list char) :=
  match wrap_loop max_width text [] [] with
  | Ok lines => lines
  | Raise _ => [text]
  end.

(** Every measurement the loop makes on [text] succeeds and stays
    within [max_width]: the measured texts are the non-empty prefixes. *)
Definition never_exceeds (text : list char) (max_width : Z) : Prop :=
  forall n, (0 < n <= length text)%nat ->
    exists w, text_width (take n text) = Ok w /\ (w <= max_width)%Z.

(** A measure under which every character is [w] wide. *)
Definition monospaced (w : Z) : Prop :=
  forall s, text_width s = Ok (w * Z.of_nat (length s))%Z.

(** A line fits when it measures at most [max_width]; the loop can also
    close a line of one character, which it never measured alone, and an
    empty line. *)
Definition line_fits (max_width : Z) (line : list char) : Prop :=
  line = [] \/ (exists c, line = [c])
  \/ exists w, text_width line = Ok w /\ (w <= max_width)%Z.

(** The break between [line] and [next] was forced: [line] with the first
    character of [next] measures more than [max_width]. *)
Definition forced_break (max_width : Z) (line next : list char) : Prop :=
  exists c rest w, next = c :: rest /\ text_width (line ++ [c]) = Ok w
                   /\ (max_width < w)%Z.

(** Every two consecutive elements of [l] are related by [R]. *)
Definition adjacent {A : Type} (R : A -> A -> Prop) (l : list A) : Prop :=
  forall i x y, l !! i = Some x -> l !! S i = Some y -> R x y.
End WrapText.

End Painter.

(** ** [resources.py] *)

Module Resources.

(** *** The world a download runs in

    [files] maps a path to the content of the regular file there;
    [uuids] counts the calls to [uuid4()] made so far, the [n]-th call
    returning [uuid4_hex n]; [trace] records, oldest first, the requests
    sent and the pauses taken.  Removing a file that exists succeeds;
    [os.replace] succeeds unless the script of the attempt says it raises. *)

Inductive event : Type :=
| EvGet (url : string) (attempt : nat)   (* [self._session.get(url)] *)
| EvSleep (seconds : Q).                 (* [asyncio.sleep(seconds)] *)

Record World : Type := {
  files : gmap string string;
  uuids : nat;
  trace : list event
}.

Definition with_files (f : gmap string string -> gmap string string) (w : World) : World :=
  {| files := f (files w); uuids := uuids w; trace := trace w |}.

Definition emit (e : event) (w : World) : World :=
  {| files := files w; uuids := uuids w; trace := trace w ++ [e] |}.

Definition next_uuid (w : World) : World :=
  {| files := files w; uuids := S (uuids w); trace := trace w |}.

(** *** What one attempt of a download meets *)

(** The four [except] clauses after [CancelledError], in their order. *)
Inductive failure : Type :=
| TimeoutError
| ClientPayloadError
| ClientError
| OtherException.

Inductive body : Type :=
| Complete (content : string) (replace_raises : bool)
    (* all chunks written; [os.replace] then succeeds or raises *)
| Broken (partial : string) (f : failure)
    (* the stream raised after [partial] was written *)
| OpenRaises.
    (* [aiofiles.open(tmp_path, "wb")] raised; no file was made *)

Inductive attempt : Type :=
| NoResponse (f : failure)            (* [get] raised before any response *)
| Response (status : Z) (b : body)
| Cancel (partial : option string).
    (* [CancelledError] while awaiting the peer: before the temporary
       file was opened, or after [partial] was written to it *)

(** The requests and the pauses of a trace. *)
Definition is_get (e : event) : bool :=
  match e with EvGet _ _ => true | EvSleep _ => false end.
Definition is_sleep (e : event) : bool :=
  match e with EvSleep _ => true | EvGet _ _ => false end.

(** The pause an [except] clause takes before the next turn. *)
Definition pause_after (a retries : nat) : list event :=
  if (a <? retries)%nat
  then [EvSleep ((2 # 10) * inject_Z (Z.of_nat a + 1))%Q]
  else [].

(** The attempt ends in one of the [except] clauses after the one for
    cancellation: the request raised, or the status was 2xx and writing the
    body or [os.replace] raised. *)
Definition caught_in_turn (a : attempt) : bool :=
  match a with
  | NoResponse _ => true
  | Response status b =>
      negb ((status <? 200)%Z || (300 <=? status)%Z)
      && match b with Complete _ false => false | _ => true end
  | Cancel _ => false
  end.

(** The attempt takes the [continue] of line 408: a 5xx status with a
    turn left. *)
Definition server_error_continue (attempt_no retries : nat) (a : attempt) : bool :=
  match a with
  | Response status _ =>
      ((status <? 200)%Z || (300 <=? status)%Z)
      && ((500 <=? status)%Z && (status <=? 599)%Z && (attempt_no <? retries)%nat)
  | _ => false
  end.

(** What the turns [first], ..., [first + count - 1] add to the trace when
    each of them ends in an [except] clause. *)
Definition caught_trace (url : string) (retries first count : nat) : list event :=
  concat (map (fun a => EvGet url a :: pause_after a retries) (seq first count)).

Section Download.
Variable uuid4_hex : nat -> string.
(** What the [n]-th attempt (from 0) at [url] meets. *)
Variable peer : string -> nat -> attempt.

(** [dest.parent / f"{dest.name}.{uuid4().hex}.tmp"] *)
Definition tmp_path_for (dest : string) (n : nat) : string :=
  dest +:+ "." +:+ uuid4_hex n +:+ ".tmp".

(** The [finally] clause: [if tmp_path.exists(): tmp_path.unlink()]. *)
Definition finally_unlink (tmp_path : string) (w : World) : World :=
  match files w !! tmp_path with
  | Some _ => with_files (delete tmp_path) w
  | None => w
  end.

(** The end of an [except] clause other than the one for cancellation:
    pause [0.2 * (attempt + 1)] seconds before the next turn when one is
    left, log the error otherwise. *)
Definition backoff (attempt_no retries : nat) (w : World) : World :=
  if (attempt_no <? retries)%nat
  then emit (EvSleep ((2 # 10) * inject_Z (Z.of_nat attempt_no + 1))%Q) w
  else w.

(** The turns of [for attempt in range(retries + 1)] from [attempt_no]
    on, [remaining] of them, then the [return False] of line 483. *)
Fixpoint download_attempts (remaining attempt_no retries : nat)
    (url dest : string) (w : World) : result bool * World :=
  match remaining with
  | O => (Ok false, w)
  | S remaining' =>
      let tmp_path := tmp_path_for dest (uuids w) in
      let w := emit (EvGet url attempt_no) (next_uuid w) in
      let next := download_attempts remaining' (S attempt_no) retries url dest in
      match peer url attempt_no with
      | NoResponse _ =>
          next (finally_unlink tmp_path (backoff attempt_no retries w))
      | Cancel None =>
          (Raise CancelledError, finally_unlink tmp_path w)
      | Cancel (Some partial) =>
          (Raise CancelledError,
           finally_unlink tmp_path (with_files <[tmp_path := partial]> w))
      | Response status b =>
          if (status <? 200)%Z || (300 <=? status)%Z then
            if (500 <=? status)%Z && (status <=? 599)%Z
               && (attempt_no <? retries)%nat
            then next (finally_unlink tmp_path w)
            else (Ok false, finally_unlink tmp_path w)
          else
            match b with
            | Complete content false =>
                let w := with_files <[tmp_path := content]> w in
                let w := with_files
                           (fun fs => <[dest := content]> (delete tmp_path fs)) w in
                (Ok true, finally_unlink tmp_path w)
            | Complete content true =>
                let w := with_files <[tmp_path := content]> w in
                next (finally_unlink tmp_path (backoff attempt_no retries w))
            | Broken partial _ =>
                let w := with_files <[tmp_path := partial]> w in
                next (finally_unlink tmp_path (backoff attempt_no retries w))
            | OpenRaises =>
                next (finally_unlink tmp_path (backoff attempt_no retries w))
            end
      end
  end.

(** [_download_to_path(url, dest, retries=retries)], after
    [retries = max(0, int(retries))]. *)
Definition _download_to_path (url dest : string) (retries : Z) (w : World)
  : result bool * World :=
  let retries := Z.to_nat (Z.max 0 retries) in
  download_attempts (retries + 1) 0 retries url dest w.


(** What one turn of the loop does: it goes on to the next turn, or it
    ends without success, or it ends with the body at the destination.
    In each case one UUID was drawn, one request was sent, and the
    temporary file of the turn is gone. *)
Inductive turn (rem a retries : nat) (url dest : string) (w : World)
  : result bool * World -> Prop :=
| TurnNext (w1 : World) (pause : list event) :
    uuids w1 = S (uuids w) ->
    files w1 = delete (tmp_path_for dest (uuids w)) (files w) ->
    trace w1 = trace w ++ EvGet url a :: pause ->
    List.filter is_get pause = [] ->
    (rem = 0%nat -> (a < retries)%nat -> False) ->
    turn rem a retries url dest w (download_attempts rem (S a) retries url dest w1)
| TurnStop (r : result bool) (w1 : World) :
    r <> Ok true ->
    uuids w1 = S (uuids w) ->
    files w1 = delete (tmp_path_for dest (uuids w)) (files w) ->
    trace w1 = trace w ++ [EvGet url a] ->
    turn rem a retries url dest w (r, w1)
| TurnDone (status : Z) (content : string) (w1 : World) :
    peer url a = Response status (Complete content false) ->
    (200 <= status < 300)%Z ->
    uuids w1 = S (uuids w) ->
    files w1 = <[dest := content]> (delete (tmp_path_for dest (uuids w)) (files w)) ->
    trace w1 = trace w ++ [EvGet url a] ->
    turn rem a retries url dest w (Ok true, w1).

(** *** [get_background_image], the loop of lines 107 to 133 *)

Variable sha256_hex : string -> string.
(** [os.path.splitext(urlparse(url).path)[1].lower()] *)
Variable url_suffix : string -> string.
Variables _background_cache_dir _background_tmp_dir : string.

Definition ext_for_url (url : string) : string :=
  let ext := url_suffix url in
  if String.eqb ext "" || (10 <? String.length ext)%nat then ".img" else ext.

Definition _background_cache_path_for_url (url : string) : string :=
  _background_cache_dir +:+ "/" +:+ sha256_hex url +:+ ext_for_url url.

Definition _background_tmp_path_for_url (url : string) (w : World) : string :=
  _background_tmp_dir +:+ "/" +:+ uuid4_hex (uuids w) +:+ ext_for_url url.

Definition is_http (url : string) : bool :=
  Py.startswith "http://" url || Py.startswith "https://" url.

(** The path and the flag chosen for a candidate that is not cached. *)
Definition download_target (pre_cache_enabled cleanup_downloads : bool)
    (url : string) (w : World) : string * bool * World :=
  if negb pre_cache_enabled && cleanup_downloads
  then (_background_tmp_path_for_url url w, true, next_uuid w)
  else (_background_cache_path_for_url url, false, w).

Fixpoint try_background_urls (pre_cache_enabled cleanup_downloads : bool)
    (urls : list string) (w : World)
  : result (option (string * bool)) * World :=
  match urls with
  | [] => (Ok None, w)
  | image_url :: rest =>
      if negb (is_http image_url)
      then try_background_urls pre_cache_enabled cleanup_downloads rest w
      else
        let cache_path := _background_cache_path_for_url image_url in
        match files w !! cache_path with
        | Some _ => (Ok (Some (cache_path, false)), w)
        | None =>
            let '(image_path, should_cleanup, w1) :=
              download_target pre_cache_enabled cleanup_downloads image_url w in
            match _download_to_path image_url image_path 1 w1 with
            | (Ok true, w2) => (Ok (Some (image_path, should_cleanup)), w2)
            | (Ok false, w2) =>
                try_background_urls pre_cache_enabled cleanup_downloads rest w2
            | (Raise e, w2) => (Raise e, w2)
            end
        end
  end.

(** Every candidate of the list was tried and failed: each URL is
    either skipped as not being an http(s) URL, or it was not in the
    permanent cache and its download returned false. *)
Inductive all_failed (pre_cache_enabled cleanup_downloads : bool)
  : list string -> World -> World -> Prop :=
| AllFailedNil (w : World) :
    all_failed pre_cache_enabled cleanup_downloads [] w w
| AllFailedSkip (url : string) (rest : list string) (w w' : World) :
    is_http url = false ->
    all_failed pre_cache_enabled cleanup_downloads rest w w' ->
    all_failed pre_cache_enabled cleanup_downloads (url :: rest) w w'
| AllFailedTried (url : string) (rest : list string) (w w2 w' : World) :
    is_http url = true ->
    files w !! _background_cache_path_for_url url = None ->
    (let '(image_path, _, w1) :=
       download_target pre_cache_enabled cleanup_downloads url w in
     _download_to_path url image_path 1 w1) = (Ok false, w2) ->
    all_failed pre_cache_enabled cleanup_downloads rest w2 w' ->
    all_failed pre_cache_enabled cleanup_downloads (url :: rest) w w'.

(** Lines 92 to 133, from the stripped non-empty lines of the chosen
    list file in the order [random.shuffle] left them. *)
Definition get_background_image (pre_cache_enabled cleanup_downloads : bool)
    (background_urls : list string) (w : World)
  : result (option (string * bool)) * World :=
  match background_urls with
  | [] => (Ok None, w)
  | _ :: _ =>
      let max_attempts := Nat.min 5 (length background_urls) in
      try_background_urls pre_cache_enabled cleanup_downloads
        (take max_attempts background_urls) w
  end.
End Download.

(** *** [get_avatar_img], lines 139 to 178

    Times are seconds as exact rationals.  [st_mtime] is what [_file_stat]
    returns for the avatar file: its modification time, or [None] when the
    file went away after [exists] saw it. *)
Section Avatar.
Variable uuid4_hex : nat -> string.
Variable peer : string -> nat -> attempt.
(** [os.path.join] *)
Variable os_path_join : string -> string -> string.
Variable avatar_dir : string.
Variable avatar_cache_expiration : Q.

Definition avatar_path_for (user_id : string) : string :=
  os_path_join avatar_dir (user_id +:+ ".jpg").

Definition avatar_url (user_id : string) : string :=
  "http://q.qlogo.cn/g?b=qq&nk=" +:+ user_id +:+ "&s=640".

(** [file_age < self.avatar_cache_expiration] *)
Definition avatar_is_fresh (now file_mtime : Q) : bool :=
  negb (Qle_bool avatar_cache_expiration (now - file_mtime)).

(** Lines 168 to 173. *)
Definition download_avatar (user_id : string) (w : World)
  : result (option string) * World :=
  let avatar_path := avatar_path_for user_id in
  match _download_to_path uuid4_hex peer (avatar_url user_id) avatar_path 1 w with
  | (Ok true, w') => (Ok (Some avatar_path), w')
  | (Ok false, w') => (Ok None, w')
  | (Raise e, w') => (Raise e, w')
  end.

(** With the file present and [st_mtime = None], [now - None] raises
    [TypeError], which the [except Exception] of line 175 turns into
    [None]. *)
Definition get_avatar_img (user_id : string) (now : Q) (st_mtime : option Q)
    (w : World) : result (option string) * World :=
  let avatar_path := avatar_path_for user_id in
  match files w !! avatar_path with
  | Some _ =>
      match st_mtime with
      | None => (Ok None, w)
      | Some file_mtime =>
          if avatar_is_fresh now file_mtime
          then (Ok (Some avatar_path), w)
          else download_avatar user_id w
      end
  | None => download_avatar user_id w
  end.
End Avatar.

(** *** [_pre_cache_background_images], lines 506 to 594

    The downloads run concurrently; what [asyncio.gather] hands back is a
    parameter: one result for each download in their order, or the
    cancellation of the task itself. *)
Inductive gather_result : Type :=
| ReturnedTrue
| ReturnedFalse
| ReturnedException.

Inductive gathered : Type :=
| Results (results : list gather_result)
| TaskCancelled.

(** The numbers of the last log line and of the status written in the
    [finally] clause. *)
Record Report : Type := {
  cancelled : bool;
  total : nat;
  already_cached : nat;
  to_download : list (string * string);
  downloaded : nat;
  failed_downloads : nat;
  concurrency : Z
}.

Section PreCache.
Variable sha256_hex : string -> string.
Variable url_suffix : string -> string.
Variable _background_cache_dir : string.

(** [concurrency_setting] is [int(self.plugin_config.get(...))], [None]
    when it raises. *)
Definition pre_cache_concurrency (concurrency_setting : option Z) : Z :=
  let concurrency := match concurrency_setting with Some c => c | None => 3%Z end in
  Z.max 1 (Z.min concurrency 10).

(** Lines 523 to 529. *)
Fixpoint pre_cache_plan (urls : list string) (w : World)
  : nat * list (string * string) :=
  match urls with
  | [] => (0%nat, [])
  | url :: rest =>
      let dest := _background_cache_path_for_url sha256_hex url_suffix
                    _background_cache_dir url in
      let '(cached, downloads) := pre_cache_plan rest w in
      match files w !! dest with
      | Some _ => (S cached, downloads)
      | None => (cached, (url, dest) :: downloads)
      end
  end.

(** Lines 560 to 576: [r is True] counts as downloaded, anything else as
    failed. *)
Fixpoint tally (results : list gather_result) : nat * nat :=
  match results with
  | [] => (0%nat, 0%nat)
  | r :: rest =>
      let '(done, bad) := tally rest in
      match r with
      | ReturnedTrue => (S done, bad)
      | ReturnedFalse | ReturnedException => (done, S bad)
      end
  end.

(** [None]: no URL, nothing is reported. *)
Definition _pre_cache_background_images (concurrency_setting : option Z)
    (urls : list string) (w : World)
    (gather : list (string * string) -> gathered) : option Report :=
  match urls with
  | [] => None
  | _ :: _ =>
      let '(cached, downloads) := pre_cache_plan urls w in
      let '(was_cancelled, (done, bad)) :=
        match gather downloads with
        | Results results => (false, tally results)
        | TaskCancelled => (true, (0%nat, 0%nat))
        end in
      Some {| cancelled := was_cancelled; total := length urls;
              already_cached := cached; to_download := downloads;
              downloaded := done; failed_downloads := bad;
              concurrency := pre_cache_concurrency concurrency_setting |}
  end.
End PreCache.

(** *** [_load_jrys_data] and [_save_jrys_data], lines 596 to 647

    [is_data_loaded] is set together with [self.jrys_data] and nowhere
    else, so one field holds both: [Some d] once the data is loaded.
    [jrys_file] is the content of [jrys.json], [None] while it does not
    exist.  The parser and the printer of JSON are parameters. *)
Section DataStore.
Variable Doc : Type.
Variable json_loads : string -> option Doc.   (* [None]: [JSONDecodeError] *)
Variable json_dumps : Doc -> string.          (* [ensure_ascii=False, indent=4] *)
Variable empty_dict : Doc.                    (* [{}] *)

Record Manager : Type := {
  jrys_data : option Doc;
  jrys_file : option string
}.

Definition _load_jrys_data (m : Manager) : Doc * Manager :=
  match jrys_data m with
  | Some d => (d, m)
  | None =>
      (* [json.dumps({})] is written when the file is missing *)
      let content := match jrys_file m with Some c => c | None => "{}" end in
      match json_loads content with
      | Some d => (d, {| jrys_data := Some d; jrys_file := Some content |})
      | None => (empty_dict, {| jrys_data := None; jrys_file := Some content |})
      end
  end.

(** The file is opened for writing, which empties it, before
    [self.jrys_data] is read; without that attribute the
    [AttributeError] is caught and the file stays empty. *)
Definition _save_jrys_data (m : Manager) : Manager :=
  match jrys_data m with
  | Some d => {| jrys_data := Some d; jrys_file := Some (json_dumps d) |}
  | None => {| jrys_data := None; jrys_file := Some "" |}
  end.

(** The plugin changes the dictionary [_load_jrys_data] returned; this is
    the object [self.jrys_data] of the manager when the data is loaded. *)
Definition update_loaded (f : Doc -> Doc) (m : Manager) : Manager :=
  {| jrys_data := f <$> jrys_data m; jrys_file := jrys_file m |}.

(** A new manager over the same file. *)
Definition restart (m : Manager) : Manager :=
  {| jrys_data := None; jrys_file := jrys_file m |}.
End DataStore.

End Resources.

(** ** [_migrate_legacy_cache_dir], lines 189 to 255

    A directory maps the names in it to what is there.  The legacy
    directory may hold regular files and other things (sub-directories),
    the canonical cache directory holds regular files.  Modification times
    are compared only, so they are integers here.  Each call the source
    wraps in [try] has a flag saying whether it raises for the file. *)

Module Migration.

Record file : Type := { mtime : Z; content : string }.

Inductive node : Type :=
| Regular (f : file)
| Other.

Inductive replace_outcome : Type :=
| ReplaceOk        (* [os.replace] renames *)
| ReplaceEXDEV     (* [OSError] with [errno.EXDEV]: other volume *)
| ReplaceRaises.   (* any other [OSError] *)

Record faults : Type := {
  stat_raises : bool;          (* [item.stat()] or [dest.stat()] *)
  replace : replace_outcome;   (* [os.replace(item, dest)] *)
  copy2_raises : bool;         (* [shutil.copy2(item, dest)] *)
  unlink_raises : bool         (* [item.unlink(missing_ok=True)] *)
}.

Definition no_faults : faults :=
  {| stat_raises := false; replace := ReplaceOk;
     copy2_raises := false; unlink_raises := false |}.

Record State : Type := {
  legacy_dir : gmap string node;
  target_dir : gmap string file;
  moved : nat;
  skipped : nat;
  replaced : nat;
  failed : nat;
  warnings : list string   (* the items named by [logger.warning] *)
}.

Definition set_legacy (d : gmap string node) (s : State) : State :=
  {| legacy_dir := d; target_dir := target_dir s; moved := moved s;
     skipped := skipped s; replaced := replaced s; failed := failed s;
     warnings := warnings s |}.

Definition set_target (d : gmap string file) (s : State) : State :=
  {| legacy_dir := legacy_dir s; target_dir := d; moved := moved s;
     skipped := skipped s; replaced := replaced s; failed := failed s;
     warnings := warnings s |}.

Definition count_moved (s : State) : State :=
  {| legacy_dir := legacy_dir s; target_dir := target_dir s; moved := S (moved s);
     skipped := skipped s; replaced := replaced s; failed := failed s;
     warnings := warnings s |}.

Definition count_skipped (s : State) : State :=
  {| legacy_dir := legacy_dir s; target_dir := target_dir s; moved := moved s;
     skipped := S (skipped s); replaced := replaced s; failed := failed s;
     warnings := warnings s |}.

Definition count_replaced (s : State) : State :=
  {| legacy_dir := legacy_dir s; target_dir := target_dir s; moved := moved s;
     skipped := skipped s; replaced := S (replaced s); failed := failed s;
     warnings := warnings s |}.

(** The outer [except Exception]: [failed += 1] and a warning. *)
Definition record_failure (name : string) (s : State) : State :=
  {| legacy_dir := legacy_dir s; target_dir := target_dir s; moved := moved s;
     skipped := skipped s; replaced := replaced s; failed := S (failed s);
     warnings := warnings s ++ [name] |}.

(** [item.is_file()] for the name in a directory. *)
Definition is_file (d : gmap string node) (name : string) : bool :=
  match d !! name with
  | Some (Regular _) => true
  | _ => false
  end.

Section Migrate.
Variable fault_of : string -> faults.

(** Lines 228 to 237: [os.replace], or [copy2] then [unlink] across
    volumes, then [moved += 1]. *)
Definition move_item (name : string) (f : file) (s : State) : State :=
  match replace (fault_of name) with
  | ReplaceOk =>
      count_moved
        (set_target (<[name := f]> (target_dir s))
           (set_legacy (delete name (legacy_dir s)) s))
  | ReplaceEXDEV =>
      if copy2_raises (fault_of name) then record_failure name s
      else
        let s1 := set_target (<[name := f]> (target_dir s)) s in
        if unlink_raises (fault_of name) then record_failure name s1
        else count_moved (set_legacy (delete name (legacy_dir s1)) s1)
  | ReplaceRaises => record_failure name s
  end.

(** One turn of [for item in legacy_dir.iterdir()], lines 208 to 240. *)
Definition migrate_item (name : string) (s : State) : State :=
  match legacy_dir s !! name with
  | Some (Regular f) =>
      match target_dir s !! name with
      | Some d =>
          if stat_raises (fault_of name) || (mtime f <=? mtime d)%Z then
            (* [item.unlink(); skipped += 1; continue], from the [if]
               or from the inner [except] *)
            if unlink_raises (fault_of name) then record_failure name s
            else count_skipped (set_legacy (delete name (legacy_dir s)) s)
          else move_item name f (count_replaced s)
      | None => move_item name f s
      end
  | Some Other | None => s
  end.

Definition migrate_items (items : list string) (s : State) : State :=
  fold_left (fun s name => migrate_item name s) items s.

Record Outcome : Type := {
  legacy_after : option (gmap string node);   (* [None]: removed *)
  final : State
}.

Definition initial (legacy : gmap string node) (target : gmap string file) : State :=
  {| legacy_dir := legacy; target_dir := target; moved := 0; skipped := 0;
     replaced := 0; failed := 0; warnings := [] |}.

(** [legacy] is [None] when the legacy path is missing or no directory;
    [same_path] is [legacy_resolved == target_resolved]; [items] are
    the names [iterdir()] yields, in its order. *)
Definition _migrate_legacy_cache_dir (legacy : option (gmap string node))
    (same_path rmdir_raises : bool) (items : list string)
    (target : gmap string file) : option Outcome :=
  match legacy with
  | None => None
  | Some legacy =>
      if same_path then None
      else
        let s := migrate_items items (initial legacy target) in
        Some {| legacy_after :=
                  if bool_decide (legacy_dir s = ∅) && negb rmdir_raises
                  then None else Some (legacy_dir s);
                final := s |}
  end.

(** [items] is a listing of the directory. *)
Definition lists_directory (items : list string) (d : gmap string node) : Prop :=
  NoDup items /\ forall name, name ∈ items <-> is_Some (d !! name).
End Migrate.

End Migration.

(** ** [main.py]: [JrysPlugin.jrys], lines 80 to 205

    The two fetches are awaited together with [return_exceptions=True], so
    each result is a value, [None], or an exception object.  The renderer
    is a parameter.  Replies are what the generator yields, in order. *)

Module Plugin.

Inductive fetched (A : Type) : Type :=
| Value (a : A)
| IsNone
| IsException.
Arguments Value {A} a.
Arguments IsNone {A}.
Arguments IsException {A}.

Inductive message : Type :=
| BackgroundFailed   (* the text yielded at lines 109 and 114 *)
| AvatarFailed       (* line 121 *)
| RenderFailed.      (* lines 145 and 177 *)

Inductive reply : Type :=
| PlainResult (m : message)
| ImageResult (path : string).

Inductive rendered : Type :=
| Rendered (temp_file_path : string)   (* the JPEG written by the painter *)
| RenderedNone
| RenderRaised.

Record Run : Type := {
  replies : list reply;
  render_calls : list (option string * string);   (* avatar and background passed *)
  disk : gset string;                             (* the paths that exist *)
  last_images : gmap string Painter.LastImage     (* [_user_last_images] *)
}.

Section Jrys.
(** [painter.generate_image_sync(user_id, avatar_path, background_path, data)] *)
Variable generate_image_sync : string -> option string -> string -> rendered.

(** [if flag and path and os.path.exists(path): remove(path)] *)
Definition cleanup (flag : bool) (path : string) (d : gset string) : gset string :=
  if flag && negb (String.eqb path "") && bool_decide (path ∈ d)
  then d ∖ {[ path ]} else d.

(** Lines 134 to 205. *)
Definition render_and_record (user_id : string) (avatar_path : option string)
    (background_path : string) (background_should_cleanup : bool)
    (d : gset string) (last : gmap string Painter.LastImage) : Run :=
  let calls := [(avatar_path, background_path)] in
  match generate_image_sync user_id avatar_path background_path with
  | Rendered temp_file_path =>
      let d := d ∪ {[ temp_file_path ]} in
      let d :=
        match last !! user_id with
        | Some old_info =>
            if negb (String.eqb (Painter.path old_info) background_path)
            then cleanup (Painter.should_cleanup old_info) (Painter.path old_info) d
            else d
        | None => d
        end in
      let last :=
        <[user_id := {| Painter.path := background_path;
                        Painter.should_cleanup := background_should_cleanup |}]> last in
      (* [background_should_cleanup = False], then the [finally] *)
      {| replies := [ImageResult temp_file_path]; render_calls := calls;
         disk := cleanup true temp_file_path d; last_images := last |}
  | RenderedNone | RenderRaised =>
      {| replies := [PlainResult RenderFailed]; render_calls := calls;
         disk := cleanup background_should_cleanup background_path d;
         last_images := last |}
  end.

(** Lines 94 to 132, then the rest. *)
Definition jrys (user_id : string) (avatar : fetched string)
    (background : fetched (string * bool))
    (d : gset string) (last : gmap string Painter.LastImage) : Run :=
  match background with
  | IsException | IsNone =>
      {| replies := [PlainResult BackgroundFailed]; render_calls := [];
         disk := d; last_images := last |}
  | Value (background_path, background_should_cleanup) =>
      match avatar with
      | IsException =>
          {| replies := [PlainResult AvatarFailed]; render_calls := [];
             disk := cleanup background_should_cleanup background_path d;
             last_images := last |}
      | IsNone =>
          render_and_record user_id None background_path
            background_should_cleanup d last
      | Value avatar_path =>
          render_and_record user_id (Some avatar_path) background_path
            background_should_cleanup d last
      end
  end.

(** The request failed: the only reply is a plain failure text. *)
Definition failure_result (r : Run) : Prop :=
  exists m, replies r = [PlainResult m].
End Jrys.

(** *** Lines 152 to 169 on the document itself

    [jrys_data] is the dictionary the painter draws from, in insertion
    order.  Assigning to a key that is there keeps its place, assigning to
    a new key appends it. *)

Fixpoint set_member (user_id : string) (info : Painter.LastImage)
    (members : list (string * Painter.LastImage))
  : list (string * Painter.LastImage) :=
  match members with
  | [] => [(user_id, info)]
  | (k, v) :: rest =>
      if String.eqb user_id k then (k, info) :: rest
      else (k, v) :: set_member user_id info rest
  end.

Fixpoint get_member (user_id : string)
    (members : list (string * Painter.LastImage)) : option Painter.LastImage :=
  match members with
  | [] => None
  | (k, v) :: rest => if String.eqb user_id k then Some v else get_member user_id rest
  end.

(** [None]: the value under [_user_last_images] is a list, and
    [user_last_images[user_id] = ...] raises [TypeError]. *)
Fixpoint record_last_image (user_id : string) (info : Painter.LastImage)
    (jrys_data : Painter.Table) : option Painter.Table :=
  match jrys_data with
  | [] => Some [("_user_last_images", Painter.JDict [(user_id, info)])]
  | (k, v) :: rest =>
      if String.eqb "_user_last_images" k then
        match v with
        | Painter.JDict members =>
            Some ((k, Painter.JDict (set_member user_id info members)) :: rest)
        | Painter.JList _ => None
        end
      else
        rest' ← record_last_image user_id info rest;
        Some ((k, v) :: rest')
  end.

(** *** [jrys_last_command_handler], lines 42 to 59 *)

Inductive last_reply : Type :=
| NeverGenerated                  (* the text of line 49 *)
| OriginalGone                    (* the text of line 56 *)
| OriginalImage (path : string).  (* [event.image_result(path)] *)

Definition jrys_last_command_handler (user_id : string) (d : gset string)
    (user_last_images : gmap string Painter.LastImage) : last_reply :=
  match user_last_images !! user_id with
  | None => NeverGenerated
  | Some last_info =>
      let path := Painter.path last_info in
      if String.eqb path "" || negb (bool_decide (path ∈ d))
      then OriginalGone
      else OriginalImage path
  end.

End Plugin.

(** ** Sample data on which the model is run *)

Module Sample.
Import Painter.

(** A small generator: the state is a counter. *)
Definition seed (s : string) : Z := Z.of_nat (String.length s).
Definition random53 (g : Z) : Z * Z := (g * 2 ^ 50, g + 1)%Z.
Definition randbelow (g : Z) (n : nat) : nat * Z := (Z.to_nat g, (g + 7)%Z).

Definition entry : FortuneEntry :=
  {| fortuneSummary := Some "S"; luckyStar := Some "L";
     signText := Some "A"; unsignText := Some "B" |}.

Definition table : Table :=
  [("80", JList [entry]); ("60", JList [entry; entry]); ("10", JList [entry]);
   ("_user_last_images", JDict [])].

(** A table whose only score key is no integer text, and one whose only
    score key has no entry. *)
Definition text_key_table : Table := [("abc", JList [entry])].
Definition empty_list_table : Table := [("80", JList [])].

Definition rates_40_40_20 : Rates :=
  {| good := Some 40%Z; normal := Some 40%Z; bad := Some 20%Z |}.

(** The defaults of [FortunePainter.__init__], and the same with every
    percentage of the normal profile at 0. *)
Definition config : Config :=
  {| fixed_daily_fortune := true; holiday_rates_enabled := true;
     holidays := ["01-01"; "02-14"; "05-01"; "10-01"; "12-25"];
     normal_rates := rates_40_40_20;
     holiday_rates := {| good := Some 85%Z; normal := Some 15%Z; bad := Some 0%Z |} |}.

Definition config_zero : Config :=
  {| fixed_daily_fortune := true; holiday_rates_enabled := true;
     holidays := ["01-01"; "02-14"; "05-01"; "10-01"; "12-25"];
     normal_rates := zero_rates;
     holiday_rates := {| good := Some 85%Z; normal := Some 15%Z; bad := Some 0%Z |} |}.

Definition morning : DateTime :=
  {| year := 2024; month := 3; day := 2; hour := 8; minute := 0; second := 0 |}.
Definition evening : DateTime :=
  {| year := 2024; month := 3; day := 2; hour := 21; minute := 30; second := 5 |}.

(** A measure giving every character the same width. *)
Definition fixed_width (w : Z) (s : list ascii) : result Z :=
  Ok (w * Z.of_nat (length s))%Z.

(** A download world: nothing on disk, no UUID drawn, nothing sent. *)
Definition empty_world : Resources.World :=
  {| Resources.files := ∅; Resources.uuids := 0; Resources.trace := [] |}.

Definition uuid4_hex (n : nat) : string := String (ascii_of_nat (97 + n)) "".

(** A peer answering 503 to the first request and 200 afterwards. *)
Definition peer_503_then_200 (url : string) (n : nat) : Resources.attempt :=
  match n with
  | O => Resources.Response 503 Resources.OpenRaises
  | S _ => Resources.Response 200 (Resources.Complete "img" false)
  end.

(** A peer timing out on the first request and answering 200 afterwards. *)
Definition peer_timeout_then_200 (url : string) (n : nat) : Resources.attempt :=
  match n with
  | O => Resources.NoResponse Resources.TimeoutError
  | S _ => Resources.Response 200 (Resources.Complete "img" false)
  end.

(** A peer answering 404, and one that never answers. *)
Definition peer_404 (url : string) (n : nat) : Resources.attempt :=
  Resources.Response 404 Resources.OpenRaises.
Definition peer_down (url : string) (n : nat) : Resources.attempt :=
  Resources.NoResponse Resources.ClientError.

(** [os.path.join] for a relative second part. *)
Definition os_path_join (a b : string) : string := a +:+ "/" +:+ b.

(** A world holding the avatar of user 42. *)
Definition avatar_world : Resources.World :=
  {| Resources.files := {[ "/avatars/42.jpg" := "old" ]};
     Resources.uuids := 0; Resources.trace := [] |}.

(** A document format: a text is printed with a mark before it. *)
Definition json_dumps (d : string) : string := String "j" d.
Definition json_loads (s : string) : option string :=
  match s with
  | String "j" d => Some d
  | _ => None
  end.

(** Stand-ins for the digest and for the suffix of the URL path. *)
Definition sha256_hex (url : string) : string := "d" +:+ url.
Definition url_suffix (url : string) : string := ".png".

(** A world whose permanent cache already holds the image of one URL. *)
Definition cached_world : Resources.World :=
  {| Resources.files :=
       {[ Resources._background_cache_path_for_url sha256_hex url_suffix "/cache"
            "http://h/a.png" := "img" ]};
     Resources.uuids := 0; Resources.trace := [] |}.

(** A legacy directory and a target: [a.jpg] older than its namesake,
    [b.jpg] newer, [c.jpg] without namesake, [x.jpg] whose rename raises,
    and a sub-directory. *)
Definition legacy : gmap string Migration.node :=
  {[ "a.jpg" := Migration.Regular {| Migration.mtime := 10; Migration.content := "old a" |};
     "b.jpg" := Migration.Regular {| Migration.mtime := 30; Migration.content := "new b" |};
     "c.jpg" := Migration.Regular {| Migration.mtime := 5; Migration.content := "c" |};
     "x.jpg" := Migration.Regular {| Migration.mtime := 7; Migration.content := "x" |};
     "sub" := Migration.Other ]}.

Definition target : gmap string Migration.file :=
  {[ "a.jpg" := {| Migration.mtime := 20; Migration.content := "kept a" |};
     "b.jpg" := {| Migration.mtime := 20; Migration.content := "stale b" |} ]}.

Definition items : list string := ["x.jpg"; "a.jpg"; "sub"; "b.jpg"; "c.jpg"].

(** One file, newer than its namesake in the target, whose modification
    time cannot be read. *)
Definition legacy_newer : gmap string Migration.node :=
  {[ "b.jpg" := Migration.Regular {| Migration.mtime := 30; Migration.content := "new b" |} ]}.
Definition target_older : gmap string Migration.file :=
  {[ "b.jpg" := {| Migration.mtime := 20; Migration.content := "stale b" |} ]}.
Definition stat_fault (name : string) : Migration.faults :=
  {| Migration.stat_raises := true; Migration.replace := Migration.ReplaceOk;
     Migration.copy2_raises := false; Migration.unlink_raises := false |}.

Definition fault_of (name : string) : Migration.faults :=
  if String.eqb name "x.jpg"
  then {| Migration.stat_raises := false; Migration.replace := Migration.ReplaceRaises;
          Migration.copy2_raises := false; Migration.unlink_raises := false |}
  else Migration.no_faults.

(** A renderer that always writes its JPEG to the same path. *)
Definition generate_image_sync (user_id : string) (avatar_path : option string)
    (background_path : string) : Plugin.rendered :=
  Plugin.Rendered "/tmp/out.jpg".
End Sample.
(** * Properties *)

Example int_80 : Py.int "80" = Some 80%Z.
Proof. reflexivity. Qed.

Example int_neg : Py.int " -1_0 " = Some (-10)%Z.
Proof. reflexivity. Qed.

Example int_bad : Py.int "8_" = None /\ Py.int "abc" = None /\ Py.int "" = None.
Proof. repeat split; reflexivity. Qed.

(** ** Generic facts on the loops *)

Lemma mapM_length {A B : Type} (f : A -> result B) (l : list A) (r : list B) :
  mapM f l = Ok r -> length r = length l.
Proof.
  revert r. induction l as [|a l IH]; intros r; simpl.
  - intros [= <-]. reflexivity.
  - destruct (f a) as [b|e]; simpl; [|discriminate].
    destruct (mapM f l) as [bs|e]; simpl; [|discriminate].
    intros [= <-]. simpl. f_equal. apply IH. reflexivity.
Qed.

Lemma mapM_lookup {A B : Type} (f : A -> result B) (l : list A) (r : list B)
    (i : nat) (a : A) :
  mapM f l = Ok r -> l !! i = Some a ->
  exists b, f a = Ok b /\ r !! i = Some b.
Proof.
  revert r i. induction l as [|x l IH]; intros r i; simpl.
  - intros _ Hl. destruct i; discriminate.
  - destruct (f x) as [b|e] eqn:Hfx; simpl; [|discriminate].
    destruct (mapM f l) as [bs|e]; simpl; [|discriminate].
    intros [= <-] Hl. destruct i as [|i]; simpl in *.
    + injection Hl as ->. exists b. split; [exact Hfx | reflexivity].
    + apply (IH bs i); [reflexivity | exact Hl].
Qed.

Lemma mapM_total {A B : Type} (f : A -> result B) (l : list A) :
  (forall a, In a l -> exists b, f a = Ok b) -> exists r, mapM f l = Ok r.
Proof.
  induction l as [|x l IH]; intros H; simpl.
  - exists []. reflexivity.
  - destruct (H x) as [b Hb]; [left; reflexivity|].
    destruct IH as [bs Hbs]; [intros a Ha; apply H; right; exact Ha|].
    exists (b :: bs). rewrite Hb, Hbs. reflexivity.
Qed.

(** ** Facts on the built-ins *)

Lemma truediv_floor (a : Z) (n : nat) :
  Py.truediv a (Z.of_nat (Nat.max n 1))
  = Ok (inject_Z a / inject_Z (Z.of_nat (Nat.max n 1)))%Q.
Proof.
  unfold Py.truediv.
  destruct (Z.eqb_spec (Z.of_nat (Nat.max n 1)) 0) as [H|H]; [lia | reflexivity].
Qed.

Lemma sum_from (acc : Q) (l : list Q) :
  (fold_left Qplus l acc == acc + Py.sum l)%Q.
Proof.
  unfold Py.sum. revert acc. induction l as [|w l IH]; intros acc; simpl.
  - ring.
  - rewrite (IH (acc + w)%Q), (IH (0 + w)%Q). ring.
Qed.

Lemma sum_cons (w : Q) (l : list Q) : (Py.sum (w :: l) == w + Py.sum l)%Q.
Proof. unfold Py.sum at 1. simpl. rewrite sum_from. ring. Qed.

Lemma sum_replicate_one (n : nat) :
  (Py.sum (replicate n 1%Q) == inject_Z (Z.of_nat n))%Q.
Proof.
  induction n as [|n IH].
  - reflexivity.
  - change (replicate (S n) 1%Q) with (1%Q :: replicate n 1%Q).
    rewrite sum_cons, IH, Nat2Z.inj_succ. unfold Z.succ.
    rewrite inject_Z_plus. ring.
Qed.

Lemma sum_all_zero (l : list Q) :
  Forall (fun w => (w == 0)%Q) l -> (Py.sum l == 0)%Q.
Proof.
  induction 1 as [|w l Hw _ IH].
  - reflexivity.
  - rewrite sum_cons, Hw, IH. ring.
Qed.

Lemma accumulate_from_length (acc : Q) (l : list Q) :
  length (Py.accumulate_from acc l) = length l.
Proof. revert acc. induction l as [|w l IH]; intros acc; simpl; [|rewrite IH]; reflexivity. Qed.

Lemma accumulate_length (l : list Q) : length (Py.accumulate l) = length l.
Proof. destruct l; simpl; [|rewrite accumulate_from_length]; reflexivity. Qed.

Lemma accumulate_from_last (acc : Q) (l : list Q) :
  exists t, last (acc :: Py.accumulate_from acc l) = Some t /\ (t == acc + Py.sum l)%Q.
Proof.
  revert acc. induction l as [|w l IH]; intros acc.
  - exists acc. split; [reflexivity|]. unfold Py.sum. simpl. ring.
  - destruct (IH (acc + w)%Q) as (t & Ht & Heq).
    exists t. split.
    + simpl Py.accumulate_from. rewrite last_cons_cons. exact Ht.
    + rewrite Heq, sum_cons. ring.
Qed.

(** The last running total is the sum of the weights. *)
Lemma accumulate_last (w : Q) (l : list Q) :
  exists t, last (Py.accumulate (w :: l)) = Some t /\ (t == Py.sum (w :: l))%Q.
Proof.
  destruct (accumulate_from_last w l) as (t & Ht & Heq).
  exists t. split; [exact Ht|]. rewrite Heq, sum_cons. reflexivity.
Qed.

(** The binary search ends, and ends inside the bounds it was given. *)
Lemma bisect_loop_range (fuel : nat) (a : list Q) (x : Q) (lo hi : nat) :
  (hi - lo <= fuel)%nat -> (lo <= hi)%nat -> (hi <= length a)%nat ->
  exists i, Py.bisect_loop fuel a x lo hi = Ok i /\ (lo <= i <= hi)%nat.
Proof.
  revert lo hi. induction fuel as [|fuel IH]; intros lo hi Hf Hle Hlen.
  - assert (lo = hi) as -> by lia. exists hi. simpl.
    rewrite Nat.ltb_irrefl. split; [reflexivity | lia].
  - cbn [Py.bisect_loop]. destruct (Nat.ltb_spec lo hi) as [Hlt|Hge].
    + assert (Hmid : (lo <= (lo + hi) / 2 < hi)%nat).
      { split.
        - apply Nat.div_le_lower_bound; lia.
        - apply Nat.Div0.div_lt_upper_bound; lia. }
      destruct (lookup_lt_is_Some_2 a ((lo + hi) / 2)%nat) as [am Ham]; [lia|].
      rewrite Ham. destruct (Qle_bool am x).
      * destruct (IH ((lo + hi) / 2 + 1)%nat hi) as (i & Hi & Hr); [lia..|].
        exists i. split; [exact Hi | lia].
      * destruct (IH lo ((lo + hi) / 2)%nat) as (i & Hi & Hr); [lia..|].
        exists i. split; [exact Hi | lia].
    + exists lo. split; [reflexivity | lia].
Qed.

Lemma bisect_right_range (a : list Q) (x : Q) (hi : nat) :
  (hi <= length a)%nat ->
  exists i, Py.bisect_right a x 0 hi = Ok i /\ (i <= hi)%nat.
Proof.
  intros Hlen. unfold Py.bisect_right.
  destruct (bisect_loop_range (hi - 0) a x 0 hi) as (i & Hi & Hr); [lia..|].
  exists i. split; [exact Hi | lia].
Qed.

(** ** The weighted draw *)

Section ChoicesFacts.
Context {Rng : Type}.
Variable random53 : Rng -> Z * Rng.

(** With as many weights as candidates and a positive total, the draw
    raises nothing and returns one of the candidates. *)
Lemma choices1_member {A : Type} (rng : Rng) (population : list A) (ws : list Q) :
  population <> [] -> length ws = length population -> (0 < Py.sum ws)%Q ->
  exists x rng', choices1 random53 rng population ws = Ok (x, rng') /\ In x population.
Proof.
  intros Hne Hlen Hpos. unfold choices1.
  rewrite accumulate_length, Hlen, Nat.eqb_refl. cbn [negb].
  destruct ws as [|w ws].
  { destruct population; [congruence | discriminate]. }
  destruct (accumulate_last w ws) as (t & -> & Ht).
  assert (Hq : Qle_bool t 0 = false).
  { destruct (Qle_bool t 0) eqn:E; [|reflexivity].
    apply Qle_bool_iff in E. rewrite Ht in E.
    exfalso. exact (Qlt_not_le _ _ Hpos E). }
  rewrite Hq. destruct (random random53 rng) as [u rng'].
  destruct (bisect_right_range (Py.accumulate (w :: ws)) (u * t)%Q
              (length population - 1)) as (i & -> & Hi).
  { rewrite accumulate_length, Hlen. lia. }
  cbn. assert (Hlt : (i < length population)%nat).
  { destruct population; [congruence | simpl in *; lia]. }
  destruct (lookup_lt_is_Some_2 population i Hlt) as [x Hx].
  rewrite Hx. exists x, rng'. split; [reflexivity|].
  apply list_elem_of_In. eapply list_elem_of_lookup_2. exact Hx.
Qed.
End ChoicesFacts.

(** ** Classification and weights *)

Import Painter.

Lemma category_good (v : Z) : category_of v = Good <-> (v > 70)%Z.
Proof.
  unfold category_of.
  destruct (Z.ltb_spec 70 v); [split; [lia | reflexivity]|].
  destruct ((56 <=? v)%Z && (v <=? 70)%Z); split; (discriminate || lia).
Qed.

Lemma category_normal (v : Z) : category_of v = Normal <-> (56 <= v <= 70)%Z.
Proof.
  unfold category_of.
  destruct (Z.ltb_spec 70 v); [split; [discriminate | lia]|].
  destruct (Z.leb_spec 56 v); cbn [andb].
  - destruct (Z.leb_spec v 70); split; (reflexivity || discriminate || lia).
  - split; (discriminate || lia).
Qed.

Lemma category_bad (v : Z) : category_of v = Bad <-> (v < 56)%Z.
Proof.
  unfold category_of.
  destruct (Z.ltb_spec 70 v); [split; [discriminate | lia]|].
  destruct (Z.leb_spec 56 v); cbn [andb].
  - destruct (Z.leb_spec v 70); split; (discriminate || lia).
  - split; (reflexivity || lia).
Qed.

Lemma filterM_parse (p : Z -> bool) (keys : list string) :
  keys_parse keys = true ->
  filterM (fun k => v ← Py.int_r k; Ok (p v)) keys
  = Ok (List.filter
          (fun k => match Py.int k with Some v => p v | None => false end) keys).
Proof.
  induction keys as [|k keys IH]; intros Hp; [reflexivity|].
  unfold keys_parse in Hp. cbn [forallb] in Hp.
  apply andb_prop in Hp as [Hk Hp].
  cbn [filterM List.filter]. rewrite (IH Hp). unfold Py.int_r.
  destruct (Py.int k) as [v|]; [|discriminate].
  cbn. destruct (p v); reflexivity.
Qed.

Lemma filter_length_ext {A : Type} (f g : A -> bool) (l : list A) :
  (forall a, f a = g a) -> length (List.filter f l) = length (List.filter g l).
Proof. intros H. rewrite (List.filter_ext f g H). reflexivity. Qed.

Lemma good_keys_count (keys : list string) :
  keys_parse keys = true ->
  exists g, good_keys keys = Ok g /\ length g = category_count Good keys.
Proof.
  intros Hp. eexists. split; [apply (filterM_parse _ _ Hp)|].
  apply filter_length_ext. intros k. unfold in_category.
  destruct (Py.int k) as [v|]; [|reflexivity].
  unfold category_of. destruct (70 <? v)%Z; [reflexivity|].
  destruct ((56 <=? v)%Z && (v <=? 70)%Z); reflexivity.
Qed.

Lemma normal_keys_count (keys : list string) :
  keys_parse keys = true ->
  exists n, normal_keys keys = Ok n /\ length n = category_count Normal keys.
Proof.
  intros Hp. eexists. split; [apply (filterM_parse _ _ Hp)|].
  apply filter_length_ext. intros k. unfold in_category.
  destruct (Py.int k) as [v|]; [|reflexivity].
  unfold category_of.
  destruct (Z.ltb_spec 70 v), (Z.leb_spec 56 v), (Z.leb_spec v 70);
    cbn; (reflexivity || lia).
Qed.

Lemma bad_keys_count (keys : list string) :
  keys_parse keys = true ->
  exists b, bad_keys keys = Ok b /\ length b = category_count Bad keys.
Proof.
  intros Hp. eexists. split; [apply (filterM_parse _ _ Hp)|].
  apply filter_length_ext. intros k. unfold in_category.
  destruct (Py.int k) as [v|]; [|reflexivity].
  unfold category_of.
  destruct (Z.ltb_spec 70 v), (Z.leb_spec 56 v), (Z.leb_spec v 70), (Z.ltb_spec v 56);
    cbn; (reflexivity || lia).
Qed.

(** A turn of the loop computes the weight the specification words give. *)
Lemma key_weight_category (rates : Rates) (keys : list string) (k : string) (v : Z) :
  Py.int k = Some v ->
  key_weight rates (category_count Good keys) (category_count Normal keys)
    (category_count Bad keys) k
  = Ok (category_weight rates keys (category_of v)).
Proof.
  intros Hk. unfold key_weight, Py.int_r. rewrite Hk. cbn.
  unfold category_weight, category_of.
  destruct (Z.ltb_spec 70 v); [apply truediv_floor|].
  destruct (Z.leb_spec 56 v); cbn [andb].
  - destruct (Z.leb_spec v 70); [apply truediv_floor | lia].
  - apply truediv_floor.
Qed.

Lemma keys_parse_lookup (keys : list string) (i : nat) (k : string) :
  keys_parse keys = true -> keys !! i = Some k -> exists v, Py.int k = Some v.
Proof.
  intros Hp Hk. unfold keys_parse in Hp. rewrite forallb_forall in Hp.
  specialize (Hp k). destruct (Py.int k) as [v|]; [exists v; reflexivity|].
  assert (false = true); [|discriminate]. apply Hp.
  apply list_elem_of_In. eapply list_elem_of_lookup_2. exact Hk.
Qed.

Lemma weights_ok (rates : Rates) (keys : list string) :
  keys_parse keys = true ->
  exists ws, weights rates keys = Ok ws /\ length ws = length keys /\
    forall i k v, keys !! i = Some k -> Py.int k = Some v ->
      ws !! i = Some (category_weight rates keys (category_of v)).
Proof.
  intros Hp. unfold weights.
  destruct (good_keys_count keys Hp) as (g & -> & Hg).
  destruct (normal_keys_count keys Hp) as (n & -> & Hn).
  destruct (bad_keys_count keys Hp) as (b & -> & Hb).
  cbn. rewrite Hg, Hn, Hb.
  destruct (mapM_total
    (key_weight rates (category_count Good keys) (category_count Normal keys)
       (category_count Bad keys)) keys) as [ws Hws].
  { intros k Hin. apply list_elem_of_In, list_elem_of_lookup in Hin.
    destruct Hin as [i Hi].
    destruct (keys_parse_lookup keys i k Hp Hi) as [v Hv].
    eexists. apply (key_weight_category rates keys k v Hv). }
  exists ws. split; [exact Hws|]. split; [apply (mapM_length _ _ _ Hws)|].
  intros i k v Hi Hv.
  destruct (mapM_lookup _ _ _ i k Hws Hi) as (w & Hw & Hl).
  rewrite (key_weight_category rates keys k v Hv) in Hw.
  injection Hw as <-. exact Hl.
Qed.

Lemma draw_weights_length (ws : list Q) (keys : list string) :
  length ws = length keys -> length (draw_weights ws keys) = length keys.
Proof.
  intros H. unfold draw_weights. destruct (Qle_bool (Py.sum ws) 0);
    [apply length_replicate | exact H].
Qed.

Lemma draw_weights_positive (ws : list Q) (keys : list string) :
  keys <> [] -> (0 < Py.sum (draw_weights ws keys))%Q.
Proof.
  intros Hne. unfold draw_weights.
  destruct (Qle_bool (Py.sum ws) 0) eqn:E.
  - rewrite sum_replicate_one. change 0%Q with (inject_Z 0).
    rewrite <- Zlt_Qlt. destruct keys; [congruence | simpl; lia].
  - apply Qnot_le_lt. intros H. apply Qle_bool_iff in H. congruence.
Qed.

Lemma category_weight_single (rates : Rates) (keys : list string) (c : category) :
  category_count c keys = 1%nat ->
  (category_weight rates keys c == inject_Z (rate_of rates c))%Q.
Proof. intros H. unfold category_weight. rewrite H. cbn. field. Qed.

Lemma category_weight_zero (rates : Rates) (keys : list string) (c : category) :
  rate_of rates c = 0%Z -> (category_weight rates keys c == 0)%Q.
Proof.
  intros H. unfold category_weight. rewrite H.
  unfold Qdiv. change (inject_Z 0) with 0%Q. ring.
Qed.

(** No turn of the loop divides by zero, whatever the counts. *)
Lemma key_weight_no_zero_division (rates : Rates) (n_good n_normal n_bad : nat)
    (k : string) :
  key_weight rates n_good n_normal n_bad k <> Raise ZeroDivisionError.
Proof.
  unfold key_weight, Py.int_r. destruct (Py.int k) as [v|]; cbn; [|discriminate].
  destruct (70 <? v)%Z; [rewrite truediv_floor; discriminate|].
  destruct (56 <=? v)%Z; rewrite truediv_floor; discriminate.
Qed.

(** ** Keys and the table *)

Lemma lookup_key_fst (t : Table) (k : string) :
  In k (t.*1) -> exists v, lookup_key k t = Some v /\ In (k, v) t.
Proof.
  induction t as [|[k' v'] t IH]; [intros []|].
  cbn [fmap list_fmap fst lookup_key]. intros Hin.
  destruct (String.eqb_spec k k') as [->|Hne].
  - exists v'. split; [reflexivity | left; reflexivity].
  - destruct Hin as [Heq|Hin]; [congruence|].
    destruct (IH Hin) as (v & Hv & Hi). exists v. split; [exact Hv | right; exact Hi].
Qed.

Lemma valid_key_fst (t : Table) (k : string) :
  In k (valid_keys_list t) -> In k (t.*1) /\ Py.startswith "_" k = false.
Proof.
  unfold valid_keys_list. rewrite filter_In. intros [H1 H2]. split; [exact H1|].
  destruct (Py.startswith "_" k); [discriminate | reflexivity].
Qed.

(** ** Dates and seeds *)

Lemma append_inj_r (p a b : string) : p +:+ a = p +:+ b -> a = b.
Proof.
  induction p as [|c p IH]; cbn; [trivial|].
  intros [= H]. exact (IH H).
Qed.

Lemma digit_char_inj (a b : Z) :
  (0 <= a < 10)%Z -> (0 <= b < 10)%Z -> digit_char a = digit_char b -> a = b.
Proof.
  intros Ha Hb H. unfold digit_char in H.
  apply (f_equal nat_of_ascii) in H.
  rewrite !nat_ascii_embedding in H by lia. lia.
Qed.

Ltac div_lia := Z.div_mod_to_equations; lia.

Lemma pad2_inj (a b : Z) :
  (0 <= a < 100)%Z -> (0 <= b < 100)%Z -> pad2 a = pad2 b -> a = b.
Proof.
  intros Ha Hb. unfold pad2. intros [= H1 H0].
  apply digit_char_inj in H1; [|div_lia..].
  apply digit_char_inj in H0; [|div_lia..].
  div_lia.
Qed.

Lemma pad4_inj (a b : Z) :
  (0 <= a < 10000)%Z -> (0 <= b < 10000)%Z -> pad4 a = pad4 b -> a = b.
Proof.
  intros Ha Hb. unfold pad4, pad2. intros [= H3 H2 H1 H0].
  apply digit_char_inj in H3; [|div_lia..].
  apply digit_char_inj in H2; [|div_lia..].
  apply digit_char_inj in H1; [|div_lia..].
  apply digit_char_inj in H0; [|div_lia..].
  div_lia.
Qed.

Lemma strftime_Ymd_inj (a b : DateTime) :
  calendar_date a -> calendar_date b ->
  strftime_Ymd a = strftime_Ymd b -> same_date a b.
Proof.
  intros (Hy & Hm & Hd) (Hy' & Hm' & Hd').
  unfold strftime_Ymd, pad4, pad2. cbn [String.append].
  intros [= Y3 Y2 Y1 Y0 M1 M0 D1 D0].
  apply digit_char_inj in Y3, Y2, Y1, Y0, M1, M0, D1, D0; try div_lia.
  repeat split; div_lia.
Qed.

Lemma same_date_strings (a b : DateTime) :
  same_date a b ->
  strftime_Ymd a = strftime_Ymd b /\ strftime_md a = strftime_md b.
Proof.
  intros (Hy & Hm & Hd). unfold strftime_Ymd, strftime_md.
  rewrite Hy, Hm, Hd. split; reflexivity.
Qed.

(** ** The selection step *)

Section SelectionFacts.
Context {Rng : Type}.
Variable seed : string -> Rng.
Variable random53 : Rng -> Z * Rng.
Variable randbelow : Rng -> nat -> nat * Rng.

Lemma draw_key_ok (cfg : Config) (now : DateTime) (t : Table) (rng : Rng) :
  valid_keys_list t <> [] -> keys_parse (valid_keys_list t) = true ->
  exists key_1 rng', draw_key random53 cfg now t rng = Ok (key_1, rng')
                     /\ In key_1 (valid_keys_list t).
Proof.
  intros Hne Hp. unfold draw_key.
  destruct (weights_ok (current_rates cfg now) _ Hp) as (ws & -> & Hlen & _).
  cbn. apply choices1_member.
  - exact Hne.
  - apply draw_weights_length, Hlen.
  - apply draw_weights_positive, Hne.
Qed.

Lemma choice_range (rng : Rng) (n : nat) :
  (0 < n)%nat ->
  exists i rng', choice randbelow rng (seq 0 n) = Ok (i, rng') /\ (i < n)%nat.
Proof.
  intros Hn. unfold choice. destruct (seq 0 n) eqn:E.
  { destruct n; [lia | discriminate]. }
  rewrite <- E, length_seq. destruct (randbelow rng n) as [i rng'].
  assert (Hi : (i mod n < n)%nat) by (apply Nat.mod_upper_bound; lia).
  rewrite (lookup_seq_lt 0 n (i mod n) Hi).
  exists (i mod n)%nat, rng'. split; [reflexivity | exact Hi].
Qed.

(** Once the key is found in the table, the step never answers
    [KeyNotFound]. *)
Lemma pick_entry_found (t : Table) (k : string) (rng : Rng) (v : JValue) (o : outcome) :
  lookup_key k t = Some v -> pick_entry randbelow t k rng = Ok o ->
  exists i e, o = Selected k i e.
Proof.
  intros Hv. unfold pick_entry. rewrite Hv. destruct v as [entries|members].
  - destruct (choice randbelow rng (seq 0 (length entries))) as [[i rng']|e];
      cbn; [|discriminate].
    destruct (entries !! i) as [fd|]; [|discriminate].
    intros [= <-]. exists i, fd. reflexivity.
  - destruct (choice randbelow rng (seq 0 (length members))) as [[i rng']|e];
      cbn; discriminate.
Qed.

Lemma pick_entry_nonempty (t : Table) (k : string) (rng : Rng) :
  entries_nonempty t = true -> In k (valid_keys_list t) ->
  exists i e, pick_entry randbelow t k rng = Ok (Selected k i e).
Proof.
  intros Hnon Hin. destruct (valid_key_fst t k Hin) as [Hfst Hsw].
  destruct (lookup_key_fst t k Hfst) as (v & Hv & Hkv).
  unfold entries_nonempty in Hnon. rewrite forallb_forall in Hnon.
  specialize (Hnon _ Hkv). cbn [fst snd] in Hnon. rewrite Hsw in Hnon.
  cbn [orb] in Hnon.
  unfold pick_entry. rewrite Hv.
  destruct v as [[|e0 entries]|members]; try discriminate.
  destruct (choice_range rng (length (e0 :: entries))) as (i & rng' & -> & Hi);
    [simpl; lia|].
  cbn [mbind result_bind].
  destruct (lookup_lt_is_Some_2 (e0 :: entries) i Hi) as [fd Hfd].
  rewrite Hfd. exists i, fd. reflexivity.
Qed.

Lemma select_unfold (cfg : Config) (user_id : string) (now : DateTime)
    (rng0 : Rng) (t : Table) (key_1 : string) (rng' : Rng) :
  draw_key random53 cfg now t (make_rng seed cfg rng0 user_id now) = Ok (key_1, rng') ->
  generate_image_sync_select seed random53 randbelow cfg user_id now rng0 t
  = match pick_entry randbelow t key_1 rng' with
    | Ok o => o
    | Raise e => ReturnedNone (Caught e)
    end.
Proof.
  intros Hd. unfold generate_image_sync_select.
  destruct t as [|kv t'].
  { unfold draw_key in Hd. cbn in Hd. discriminate. }
  rewrite Hd. reflexivity.
Qed.
End SelectionFacts.

Lemma sum_positive (ws : list Q) :
  ws <> [] -> Forall (fun w => (0 < w)%Q) ws -> (0 < Py.sum ws)%Q.
Proof.
  intros Hne H. induction H as [|w ws Hw Hall IH]; [congruence|].
  rewrite sum_cons. destruct ws as [|w' ws'].
  - unfold Py.sum. cbn. rewrite Qplus_0_r. exact Hw.
  - apply Qlt_trans with (y := (w + 0)%Q).
    + rewrite Qplus_0_r. exact Hw.
    + apply Qplus_lt_r. apply IH. discriminate.
Qed.

Lemma draw_weights_keep (ws : list Q) (keys : list string) :
  (0 < Py.sum ws)%Q -> draw_weights ws keys = ws.
Proof.
  intros Hpos. unfold draw_weights.
  destruct (Qle_bool (Py.sum ws) 0) eqn:E; [|reflexivity].
  apply Qle_bool_iff in E. exfalso. exact (Qlt_not_le _ _ Hpos E).
Qed.

Lemma draw_weights_uniform (ws : list Q) (keys : list string) :
  (Py.sum ws <= 0)%Q -> draw_weights ws keys = replicate (length keys) 1%Q.
Proof.
  intros H. unfold draw_weights. apply Qle_bool_iff in H. rewrite H. reflexivity.
Qed.

(** ** Statements on the selection step *)

Section SelectionClaims.
Context {Rng : Type}.
Variable seed : string -> Rng.
Variable random53 : Rng -> Z * Rng.
Variable randbelow : Rng -> nat -> nat * Rng.

Local Abbreviation select :=
  (generate_image_sync_select seed random53 randbelow).

Lemma select_never_key_not_found (cfg : Config) (user_id : string)
    (now : DateTime) (rng0 : Rng) (t : Table) (key_1 : string) (rng' : Rng) :
  draw_key random53 cfg now t (make_rng seed cfg rng0 user_id now) = Ok (key_1, rng') ->
  In key_1 (valid_keys_list t) ->
  (forall k, select cfg user_id now rng0 t <> ReturnedNone (KeyNotFound k))
  /\ select cfg user_id now rng0 t <> ReturnedNone EmptyData.
Proof.
  intros Hd Hin. rewrite (select_unfold _ _ _ _ _ _ _ _ _ _ Hd).
  destruct (valid_key_fst t key_1 Hin) as [Hfst _].
  destruct (lookup_key_fst t key_1 Hfst) as (v & Hv & _).
  destruct (pick_entry randbelow t key_1 rng') as [o|e] eqn:E.
  - destruct (pick_entry_found randbelow t key_1 rng' v o Hv E) as (i & fd & ->).
    split; [intros k|]; discriminate.
  - split; [intros k|]; discriminate.
Qed.

(** C1: with [fixed_daily_fortune] enabled the generator of the run is the
    one seeded with the string "<user_id>-<YYYY-MM-DD>"; two runs for the
    same user on the same calendar date and the same table, at any two
    times of that day and from any two initial generator states, return
    the same outcome, hence the same key and the same entry index; and
    the seed strings of one user on two different calendar dates differ. *)
Theorem fixed_daily_fortune_same_selection (cfg : Config) (user_id : string)
    (now now' : DateTime) (rng0 rng0' : Rng) (t : Table) :
  fixed_daily_fortune cfg = true -> same_date now now' ->
  make_rng seed cfg rng0 user_id now = seed (user_id +:+ "-" +:+ strftime_Ymd now)
  /\ select cfg user_id now rng0 t = select cfg user_id now' rng0' t
  /\ (forall other : DateTime,
        calendar_date now -> calendar_date other -> ~ same_date now other ->
        seed_string user_id now <> seed_string user_id other).
Proof.
  intros Hfixed Hsame.
  destruct (same_date_strings now now' Hsame) as [HYmd Hmd].
  split; [|split].
  - unfold make_rng. rewrite Hfixed. reflexivity.
  - unfold generate_image_sync_select, draw_key, make_rng, current_rates,
      seed_string.
    rewrite Hfixed, HYmd, Hmd. reflexivity.
  - intros other Hnow Hother Hdiff Heq. apply Hdiff.
    unfold seed_string in Heq.
    apply append_inj_r, append_inj_r in Heq.
    exact (strftime_Ymd_inj now other Hnow Hother Heq).
Qed.

(** C2, amended: for a table with at least one non-metadata key, all of
    them texts of integers, and an active profile with the three
    percentages at 0:
    no weight computation divides by zero, the computed weights are all
    zero so their sum is at most 0, the weights handed to the draw are 1
    for every key, a key of the table is drawn, the selection returns
    neither the empty-data nor the key-not-found null, and it returns an
    entry of the drawn key whenever the score keys carry non-empty entry
    lists. *)
Theorem zero_rates_uniform_fallback (cfg : Config) (user_id : string)
    (now : DateTime) (rng0 : Rng) (t : Table) :
  valid_keys_list t <> [] ->
  keys_parse (valid_keys_list t) = true ->
  current_rates cfg now = zero_rates ->
  (forall n_good n_normal n_bad k,
      key_weight zero_rates n_good n_normal n_bad k <> Raise ZeroDivisionError)
  /\ exists ws,
      weights zero_rates (valid_keys_list t) = Ok ws
      /\ Forall (fun w => (w == 0)%Q) ws
      /\ (Py.sum ws <= 0)%Q
      /\ draw_weights ws (valid_keys_list t)
         = replicate (length (valid_keys_list t)) 1%Q
      /\ exists key_1 rng',
          draw_key random53 cfg now t (make_rng seed cfg rng0 user_id now)
          = Ok (key_1, rng')
          /\ In key_1 (valid_keys_list t)
          /\ (forall k, select cfg user_id now rng0 t <> ReturnedNone (KeyNotFound k))
          /\ select cfg user_id now rng0 t <> ReturnedNone EmptyData
          /\ (entries_nonempty t = true ->
              exists key_2 fortune_data,
                select cfg user_id now rng0 t = Selected key_1 key_2 fortune_data).
Proof.
  intros Hne Hp Hrates.
  split; [intros; apply key_weight_no_zero_division|].
  destruct (weights_ok zero_rates _ Hp) as (ws & Hws & Hlen & Hval).
  assert (Hzero : Forall (fun w => (w == 0)%Q) ws).
  { apply Forall_lookup. intros i w Hw.
    destruct (lookup_lt_is_Some_2 (valid_keys_list t) i) as [k Hk].
    { rewrite <- Hlen. eapply lookup_lt_Some. exact Hw. }
    destruct (keys_parse_lookup _ i k Hp Hk) as [v Hv].
    rewrite (Hval i k v Hk Hv) in Hw. injection Hw as <-.
    apply category_weight_zero. destruct (category_of v); reflexivity. }
  assert (Hsum : (Py.sum ws <= 0)%Q).
  { rewrite (sum_all_zero ws Hzero). apply Qle_refl. }
  exists ws. split; [exact Hws|]. split; [exact Hzero|]. split; [exact Hsum|].
  split.
  { unfold draw_weights. apply Qle_bool_iff in Hsum. rewrite Hsum. reflexivity. }
  destruct (draw_key_ok random53 cfg now t (make_rng seed cfg rng0 user_id now)
              Hne Hp) as (key_1 & rng' & Hd & Hin).
  exists key_1, rng'. split; [exact Hd|]. split; [exact Hin|].
  destruct (select_never_key_not_found cfg user_id now rng0 t key_1 rng' Hd Hin)
    as [Hk He].
  split; [exact Hk|]. split; [exact He|].
  intros Hnon. rewrite (select_unfold _ _ _ _ _ _ _ _ _ _ Hd).
  destruct (pick_entry_nonempty randbelow t key_1 rng' Hnon Hin) as (i & fd & ->).
  exists i, fd. reflexivity.
Qed.

(** C10: for a table with at least one non-metadata key, all of them
    texts of integers: the list of weights built for the draw has the
    length of the list of non-metadata keys, the weighted choice returns
    a key, that key is one of the non-metadata keys and so a key of the
    table, and the selection never returns through the branch for a key
    missing from the table. *)
Theorem drawn_key_in_table (cfg : Config) (user_id : string)
    (now : DateTime) (rng0 : Rng) (t : Table) :
  valid_keys_list t <> [] ->
  keys_parse (valid_keys_list t) = true ->
  (exists ws,
      weights (current_rates cfg now) (valid_keys_list t) = Ok ws
      /\ length (draw_weights ws (valid_keys_list t)) = length (valid_keys_list t))
  /\ (exists key_1 rng',
        draw_key random53 cfg now t (make_rng seed cfg rng0 user_id now)
        = Ok (key_1, rng')
        /\ In key_1 (valid_keys_list t)
        /\ In key_1 (t.*1)
        /\ exists v, lookup_key key_1 t = Some v)
  /\ (forall k, select cfg user_id now rng0 t <> ReturnedNone (KeyNotFound k)).
Proof.
  intros Hne Hp.
  destruct (weights_ok (current_rates cfg now) _ Hp) as (ws & Hws & Hlen & _).
  destruct (draw_key_ok random53 cfg now t (make_rng seed cfg rng0 user_id now)
              Hne Hp) as (key_1 & rng' & Hd & Hin).
  destruct (valid_key_fst t key_1 Hin) as [Hfst _].
  destruct (lookup_key_fst t key_1 Hfst) as (v & Hv & _).
  split; [|split].
  - exists ws. split; [exact Hws | apply draw_weights_length, Hlen].
  - exists key_1, rng'. repeat split; try assumption. exists v. exact Hv.
  - apply (select_never_key_not_found cfg user_id now rng0 t key_1 rng' Hd Hin).
Qed.
End SelectionClaims.

(** C3, as stated, fails when the three percentages are 0: the only key
    "80" is handed to the draw with weight 1, not 0 over 1. *)
Lemma selection_weights_zero_rates_counterexample :
  keys_parse ["80"] = true /\ ~ selection_weights_as_stated zero_rates ["80"].
Proof.
  split; [reflexivity|].
  intros (ws & Hws & H). cbv in Hws. injection Hws as <-.
  destruct (H 0%nat "80" 80%Z eq_refl eq_refl) as (w & Hw & Heq).
  cbv in Hw. injection Hw as <-. cbv in Heq. discriminate.
Qed.

(** C3, amended: for keys that are all texts of integers, a key is good
    exactly when its value is above 70, normal exactly from 56 to 70 and bad
    exactly below 56; the weight computed for it is the active rate of its
    category over the number of keys of that category, the divisor being at
    least 1, and this is its weight in the draw whenever the computed
    weights have a positive sum; when that sum is at most 0 every key is
    drawn with weight 1.  With one key in a category its weight is the rate
    itself; under 40/40/20 with one key per category the good key is drawn
    with weight 40, the normal key with 40 and the bad key with 20. *)
Theorem weights_by_category (rates : Rates) (keys : list string) :
  keys_parse keys = true ->
  exists ws,
    weights rates keys = Ok ws
    /\ length ws = length keys
    /\ (forall i k v, keys !! i = Some k -> Py.int k = Some v ->
          (category_of v = Good <-> (v > 70)%Z)
          /\ (category_of v = Normal <-> (56 <= v <= 70)%Z)
          /\ (category_of v = Bad <-> (v < 56)%Z)
          /\ ws !! i = Some (category_weight rates keys (category_of v))
          /\ ((0 < Py.sum ws)%Q ->
              draw_weights ws keys !! i
              = Some (category_weight rates keys (category_of v))))
    /\ ((Py.sum ws <= 0)%Q -> draw_weights ws keys = replicate (length keys) 1%Q)
    /\ (forall c, category_count c keys = 1%nat ->
          (category_weight rates keys c == inject_Z (rate_of rates c))%Q)
    /\ (rates = Sample.rates_40_40_20 -> keys <> [] ->
        category_count Good keys = 1%nat ->
        category_count Normal keys = 1%nat ->
        category_count Bad keys = 1%nat ->
        forall i k v, keys !! i = Some k -> Py.int k = Some v ->
          exists w, draw_weights ws keys !! i = Some w
            /\ ((v > 70)%Z -> (w == 40)%Q)
            /\ ((56 <= v <= 70)%Z -> (w == 40)%Q)
            /\ ((v < 56)%Z -> (w == 20)%Q)).
Proof.
  intros Hp. destruct (weights_ok rates keys Hp) as (ws & Hws & Hlen & Hval).
  exists ws. split; [exact Hws|]. split; [exact Hlen|].
  split; [|split; [|split]].
  - intros i k v Hk Hv.
    split; [apply category_good|]. split; [apply category_normal|].
    split; [apply category_bad|]. split; [exact (Hval i k v Hk Hv)|].
    intros Hpos. rewrite (draw_weights_keep ws keys Hpos). exact (Hval i k v Hk Hv).
  - apply draw_weights_uniform.
  - intros c. apply category_weight_single.
  - intros -> Hne Hg Hn Hb.
    assert (Hw : forall c, exists r,
               (category_weight Sample.rates_40_40_20 keys c == inject_Z r)%Q
               /\ (0 < r)%Z
               /\ r = rate_of Sample.rates_40_40_20 c).
    { intros c. exists (rate_of Sample.rates_40_40_20 c).
      split; [|split; [destruct c; reflexivity | reflexivity]].
      apply category_weight_single. destruct c; assumption. }
    assert (Hpos : (0 < Py.sum ws)%Q).
    { apply sum_positive.
      - intros ->. destruct keys; [congruence | discriminate].
      - apply Forall_lookup. intros i w Hi.
        destruct (lookup_lt_is_Some_2 keys i) as [k Hk].
        { rewrite <- Hlen. eapply lookup_lt_Some. exact Hi. }
        destruct (keys_parse_lookup _ i k Hp Hk) as [v Hv].
        rewrite (Hval i k v Hk Hv) in Hi. injection Hi as <-.
        destruct (Hw (category_of v)) as (r & -> & Hr & _).
        change 0%Q with (inject_Z 0). rewrite <- Zlt_Qlt. exact Hr. }
    intros i k v Hk Hv. eexists.
    rewrite (draw_weights_keep ws keys Hpos).
    split; [exact (Hval i k v Hk Hv)|].
    split; [|split]; intros Hcat.
    + apply category_good in Hcat. rewrite Hcat.
      rewrite (category_weight_single _ _ _ Hg). reflexivity.
    + apply category_normal in Hcat. rewrite Hcat.
      rewrite (category_weight_single _ _ _ Hn). reflexivity.
    + apply category_bad in Hcat. rewrite Hcat.
      rewrite (category_weight_single _ _ _ Hb). reflexivity.
Qed.

Lemma fixed_daily_fortune_same_selection_witness :
  fixed_daily_fortune Sample.config = true
  /\ same_date Sample.morning Sample.evening
  /\ generate_image_sync_select Sample.seed Sample.random53 Sample.randbelow
       Sample.config "u1" Sample.morning 0%Z Sample.table
     = generate_image_sync_select Sample.seed Sample.random53 Sample.randbelow
         Sample.config "u1" Sample.evening 5%Z Sample.table.
Proof.
  split; [reflexivity|]. split; [repeat split|].
  exact (proj1 (proj2
    (fixed_daily_fortune_same_selection Sample.seed Sample.random53
       Sample.randbelow Sample.config "u1" Sample.morning Sample.evening
       0%Z 5%Z Sample.table eq_refl (conj eq_refl (conj eq_refl eq_refl))))).
Defined.

Lemma zero_rates_uniform_fallback_witness :
  valid_keys_list Sample.table <> [] /\
  keys_parse (valid_keys_list Sample.table) = true /\
  current_rates Sample.config_zero Sample.morning = zero_rates /\
  exists ws,
    weights zero_rates (valid_keys_list Sample.table) = Ok ws
    /\ draw_weights ws (valid_keys_list Sample.table) = [1%Q; 1%Q; 1%Q].
Proof.
  split; [discriminate|]. split; [reflexivity|]. split; [reflexivity|].
  destruct (zero_rates_uniform_fallback Sample.seed Sample.random53
              Sample.randbelow Sample.config_zero "u1" Sample.morning 0%Z
              Sample.table)
    as (_ & ws & Hws & _ & _ & Hdraw & _);
    [discriminate | reflexivity | reflexivity |].
  exists ws. split; [exact Hws | exact Hdraw].
Defined.

Lemma drawn_key_in_table_witness :
  valid_keys_list Sample.table <> [] /\
  keys_parse (valid_keys_list Sample.table) = true /\
  forall k,
    generate_image_sync_select Sample.seed Sample.random53 Sample.randbelow
      Sample.config "u1" Sample.morning 0%Z Sample.table
    <> ReturnedNone (KeyNotFound k).
Proof.
  split; [discriminate|]. split; [reflexivity|].
  exact (proj2 (proj2
    (drawn_key_in_table Sample.seed Sample.random53 Sample.randbelow
       Sample.config "u1" Sample.morning 0%Z Sample.table
       ltac:(discriminate) eq_refl))).
Defined.

Lemma weights_by_category_witness :
  keys_parse ["80"; "60"; "10"] = true /\
  exists ws,
    weights Sample.rates_40_40_20 ["80"; "60"; "10"] = Ok ws
    /\ length ws = 3%nat.
Proof.
  split; [reflexivity|].
  destruct (weights_by_category Sample.rates_40_40_20 ["80"; "60"; "10"] eq_refl)
    as (ws & Hws & Hlen & _).
  exists ws. split; [exact Hws | exact Hlen].
Defined.

Example weights_one_key_per_category :
  weights Sample.rates_40_40_20 ["80"; "60"; "10"] = Ok [40%Q; 40%Q; 20%Q]
  /\ draw_weights [40%Q; 40%Q; 20%Q] ["80"; "60"; "10"] = [40%Q; 40%Q; 20%Q].
Proof. split; reflexivity. Qed.

Example selection_on_sample :
  generate_image_sync_select Sample.seed Sample.random53 Sample.randbelow
    Sample.config "u1" Sample.morning 0%Z Sample.table
  = Selected "60" 0 Sample.entry.
Proof. vm_compute. reflexivity. Qed.

(** C2, as stated, fails on a table whose only non-metadata key is no
    integer text: with the three percentages at 0 the weights are never
    computed, no key is drawn and the selection returns null through the
    exception handler.  It also returns null, after drawing the key, when
    the entry list of the only key is empty. *)
Lemma zero_rates_null_counterexample :
  valid_keys_list Sample.text_key_table <> []
  /\ current_rates Sample.config_zero Sample.morning = zero_rates
  /\ weights zero_rates (valid_keys_list Sample.text_key_table) = Raise ValueError
  /\ draw_key Sample.random53 Sample.config_zero Sample.morning
       Sample.text_key_table
       (make_rng Sample.seed Sample.config_zero 0%Z "u1" Sample.morning)
     = Raise ValueError
  /\ generate_image_sync_select Sample.seed Sample.random53 Sample.randbelow
       Sample.config_zero "u1" Sample.morning 0%Z Sample.text_key_table
     = ReturnedNone (Caught ValueError)
  /\ valid_keys_list Sample.empty_list_table <> []
  /\ keys_parse (valid_keys_list Sample.empty_list_table) = true
  /\ generate_image_sync_select Sample.seed Sample.random53 Sample.randbelow
       Sample.config_zero "u1" Sample.morning 0%Z Sample.empty_list_table
     = ReturnedNone (Caught IndexError).
Proof.
  split; [discriminate|]. split; [reflexivity|]. split; [reflexivity|].
  split; [reflexivity|]. split; [vm_compute; reflexivity|].
  split; [discriminate|]. split; [reflexivity|]. vm_compute. reflexivity.
Qed.

(** ** [wrap_text] *)

Section WrapTextFacts.
Context {char : Type}.
Variable text_width : list char -> result Z.

(** The loop keeps every character, in order: the lines closed so far,
    the line being built and the text still to read always spell the
    input. *)
Lemma wrap_loop_concat (max_width : Z) (text : list char)
    (lines : list (list char)) (current_line : list char) (r : list (list char)) :
  wrap_loop text_width max_width text lines current_line = Ok r ->
  concat r = concat lines ++ current_line ++ text.
Proof.
  revert lines current_line.
  induction text as [|c rest IH]; intros lines cur; cbn [wrap_loop].
  - destruct cur as [|c0 cur]; intros [= <-].
    + rewrite app_nil_r. reflexivity.
    + rewrite concat_app. cbn. rewrite !app_nil_r. reflexivity.
  - destruct (text_width (cur ++ [c])) as [w|e]; cbn; [|discriminate].
    destruct (w <=? max_width)%Z; intros H; apply IH in H; rewrite H.
    + rewrite <- app_assoc. reflexivity.
    + rewrite concat_app. cbn. rewrite app_nil_r, <- app_assoc. reflexivity.
Qed.

Lemma wrap_loop_fits (max_width : Z) (text : list char)
    (lines : list (list char)) (current_line : list char) :
  (forall n, (0 < n <= length text)%nat ->
     exists w, text_width (current_line ++ take n text) = Ok w
               /\ (w <= max_width)%Z) ->
  current_line ++ text <> [] ->
  wrap_loop text_width max_width text lines current_line
  = Ok (lines ++ [current_line ++ text]).
Proof.
  revert current_line.
  induction text as [|c rest IH]; intros cur Hfit Hne; cbn [wrap_loop].
  - rewrite app_nil_r in *. destruct cur; [congruence | reflexivity].
  - destruct (Hfit 1%nat) as (w & Hw & Hle); [simpl; lia|].
    change (take 1 (c :: rest)) with [c] in Hw. rewrite Hw. cbn.
    destruct (Z.leb_spec w max_width); [|lia].
    rewrite IH.
    + rewrite <- app_assoc. reflexivity.
    + intros n Hn. destruct (Hfit (S n)) as (w' & Hw' & Hle'); [simpl; lia|].
      exists w'. rewrite <- app_assoc. split; assumption.
    + destruct cur; discriminate.
Qed.

Section Monospaced.
Variables (w : Z) (k : nat).
Hypothesis Hmono : monospaced text_width w.
Hypothesis Hw : (0 < w)%Z.

(** While the line being built stays within [k] characters, the loop
    only extends it. *)
Lemma wrap_loop_run (a rest : list char) (lines : list (list char))
    (current_line : list char) :
  (length current_line + length a <= k)%nat ->
  wrap_loop text_width (w * Z.of_nat k) (a ++ rest) lines current_line
  = wrap_loop text_width (w * Z.of_nat k) rest lines (current_line ++ a).
Proof.
  revert current_line. induction a as [|c a IH]; intros cur Hlen.
  - rewrite app_nil_r. reflexivity.
  - cbn [app wrap_loop]. rewrite Hmono. cbn.
    rewrite length_app in *. cbn [length] in *.
    destruct (Z.leb_spec (w * Z.of_nat (length cur + 1)) (w * Z.of_nat k)); [|nia].
    rewrite IH.
    + rewrite <- app_assoc. reflexivity.
    + rewrite length_app. cbn. lia.
Qed.

Lemma wrap_loop_two_lines (text : list char) :
  (1 <= k)%nat -> length text = (2 * k)%nat ->
  wrap_loop text_width (w * Z.of_nat k) text [] []
  = Ok [take k text; drop k text].
Proof.
  intros Hk Hlen.
  rewrite <- (take_drop k text) at 1.
  rewrite wrap_loop_run by (rewrite length_take; cbn; lia).
  cbn [app]. destruct (drop k text) as [|c b'] eqn:Hb.
  { apply (f_equal length) in Hb. rewrite length_drop in Hb. cbn in Hb. lia. }
  cbn [wrap_loop]. rewrite Hmono. cbn.
  rewrite length_app, length_take. cbn [length].
  destruct (Z.leb_spec (w * Z.of_nat (k `min` length text + 1)) (w * Z.of_nat k)); [nia|].
  rewrite <- (app_nil_r b') at 1.
  rewrite wrap_loop_run.
  - reflexivity.
  - apply (f_equal length) in Hb. rewrite length_drop in Hb. cbn in *. lia.
Qed.
End Monospaced.

(** C9, amended: the lines returned always spell the input; a non-empty
    text whose measurements all stay within the maximum width comes back
    as the single line equal to it, and the empty text as no line at all;
    under a measure giving every character the same positive width, with
    the maximum width that of [k >= 1] characters, a text of [2 * k]
    characters comes back as exactly two lines, its two halves. *)
Theorem wrap_text_lines (text : list char) (max_width : Z) :
  concat (wrap_text text_width text max_width) = text
  /\ (text <> [] -> never_exceeds text_width text max_width ->
      wrap_text text_width text max_width = [text])
  /\ wrap_text text_width [] max_width = []
  /\ (forall (w : Z) (k : nat),
        monospaced text_width w -> (0 < w)%Z -> (1 <= k)%nat ->
        max_width = (w * Z.of_nat k)%Z -> length text = (2 * k)%nat ->
        wrap_text text_width text max_width = [take k text; drop k text]).
Proof.
  split; [|split; [|split]].
  - unfold wrap_text.
    destruct (wrap_loop text_width max_width text [] []) as [r|e] eqn:E.
    + rewrite (wrap_loop_concat _ _ _ _ _ E). reflexivity.
    + cbn. apply app_nil_r.
  - intros Hne Hfit. unfold wrap_text.
    rewrite (wrap_loop_fits max_width text [] []); [reflexivity | exact Hfit | exact Hne].
  - reflexivity.
  - intros w k Hmono Hw Hk -> Hlen. unfold wrap_text.
    rewrite (wrap_loop_two_lines w k Hmono Hw text Hk Hlen). reflexivity.
Qed.
End WrapTextFacts.

(** C9, as stated, fails on the empty text, which fits any width and comes
    back as no line rather than as one line equal to it; and a text whose
    width is twice the maximum comes back as three lines when the maximum
    is not a whole number of characters (three characters of width 2, maximum
    width 3). *)
Lemma wrap_text_empty_counterexample :
  never_exceeds (Sample.fixed_width 10) [] 30
  /\ wrap_text (Sample.fixed_width 10) [] 30 = []
  /\ wrap_text (Sample.fixed_width 10) [] 30 <> [[]]
  /\ Sample.fixed_width 2 ["a"; "b"; "c"]%char = Ok (2 * 3)%Z
  /\ wrap_text (Sample.fixed_width 2) ["a"; "b"; "c"]%char 3
     = [["a"]; ["b"]; ["c"]]%char.
Proof.
  split; [intros n Hn; simpl in Hn; lia|].
  split; [reflexivity|]. split; [discriminate|]. split; reflexivity.
Qed.

Lemma wrap_text_lines_witness :
  monospaced (Sample.fixed_width 10) 10
  /\ never_exceeds (Sample.fixed_width 10) ["a"; "b"; "c"]%char 30
  /\ wrap_text (Sample.fixed_width 10) ["a"; "b"; "c"]%char 30
     = [["a"; "b"; "c"]]%char
  /\ wrap_text (Sample.fixed_width 10) ["a"; "b"; "c"; "d"; "e"; "f"]%char 30
     = [["a"; "b"; "c"]; ["d"; "e"; "f"]]%char.
Proof.
  assert (Hm : monospaced (Sample.fixed_width 10) 10) by (intros s; reflexivity).
  assert (Hf : never_exceeds (Sample.fixed_width 10) ["a"; "b"; "c"]%char 30).
  { intros n Hn. eexists. split; [reflexivity|].
    rewrite length_take. simpl in *. lia. }
  split; [exact Hm|]. split; [exact Hf|]. split.
  - exact (proj1 (proj2 (wrap_text_lines (Sample.fixed_width 10)
                           ["a"; "b"; "c"]%char 30))
             ltac:(discriminate) Hf).
  - exact (proj2 (proj2 (proj2 (wrap_text_lines (Sample.fixed_width 10)
                                  ["a"; "b"; "c"; "d"; "e"; "f"]%char 30)))
             10%Z 3%nat Hm eq_refl ltac:(lia) eq_refl eq_refl).
Defined.

(** ** [_download_to_path] *)

Import Resources.

Lemma string_length_append (a b : string) :
  String.length (a +:+ b) = (String.length a + String.length b)%nat.
Proof. induction a as [|c a IH]; simpl; [|rewrite IH]; reflexivity. Qed.

Section DownloadFacts.
Variable uuid4_hex : nat -> string.
Variable peer : string -> nat -> attempt.

Local Abbreviation tmp_of := (tmp_path_for uuid4_hex).
Local Abbreviation attempts := (download_attempts uuid4_hex peer).
Local Abbreviation turn := (Resources.turn uuid4_hex peer).

(** The temporary file is never the destination itself. *)
Lemma tmp_path_not_dest (dest : string) (n : nat) : tmp_of dest n <> dest.
Proof.
  unfold tmp_path_for. intros H. apply (f_equal String.length) in H.
  rewrite !string_length_append in H. cbn in H. lia.
Qed.

Lemma finally_unlink_files (t : string) (w : World) :
  files (finally_unlink t w) = delete t (files w).
Proof.
  unfold finally_unlink. destruct (files w !! t) eqn:E; [reflexivity|].
  symmetry. apply delete_id, E.
Qed.

Lemma finally_unlink_uuids (t : string) (w : World) :
  uuids (finally_unlink t w) = uuids w.
Proof. unfold finally_unlink. destruct (files w !! t); reflexivity. Qed.

Lemma finally_unlink_trace (t : string) (w : World) :
  trace (finally_unlink t w) = trace w.
Proof. unfold finally_unlink. destruct (files w !! t); reflexivity. Qed.

Lemma backoff_files (a retries : nat) (w : World) :
  files (backoff a retries w) = files w.
Proof. unfold backoff. destruct (a <? retries)%nat; reflexivity. Qed.

Lemma backoff_uuids (a retries : nat) (w : World) :
  uuids (backoff a retries w) = uuids w.
Proof. unfold backoff. destruct (a <? retries)%nat; reflexivity. Qed.

Lemma backoff_trace (a retries : nat) (w : World) :
  trace (backoff a retries w) = trace w ++ pause_after a retries.
Proof.
  unfold backoff, pause_after. destruct (a <? retries)%nat; cbn;
    [reflexivity | rewrite app_nil_r; reflexivity].
Qed.

Lemma download_turn (rem a retries : nat) (url dest : string) (w : World) :
  (rem + a = retries)%nat ->
  turn rem a retries url dest w (attempts (S rem) a retries url dest w).
Proof.
  intros Hrem. cbn [download_attempts].
  set (t := tmp_of dest (uuids w)).
  set (w0 := emit (EvGet url a) (next_uuid w)).
  assert (Hpause : List.filter is_get (pause_after a retries) = []).
  { unfold pause_after. destruct (a <? retries)%nat; reflexivity. }
  assert (Hlast : rem = 0%nat -> (a < retries)%nat -> False) by lia.
  assert (Hretry : forall w1,
    files w1 = files w0 \/ (exists c, files w1 = <[t := c]> (files w0)) ->
    uuids w1 = uuids w0 -> trace w1 = trace w0 ->
    turn rem a retries url dest w
      (attempts rem (S a) retries url dest
         (finally_unlink t (backoff a retries w1)))).
  { intros w1 Hf Hu Ht.
    apply TurnNext with (pause := pause_after a retries); try assumption.
    - rewrite finally_unlink_uuids, backoff_uuids, Hu. reflexivity.
    - rewrite finally_unlink_files, backoff_files.
      destruct Hf as [->|[c ->]]; [reflexivity | apply delete_insert_eq].
    - rewrite finally_unlink_trace, backoff_trace, Ht. cbn.
      rewrite <- app_assoc. reflexivity. }
  destruct (peer url a) as [f|status b|[partial|]] eqn:Hpeer.
  - apply Hretry; [left|..]; reflexivity.
  - destruct ((status <? 200)%Z || (300 <=? status)%Z) eqn:Hstatus.
    + destruct ((500 <=? status)%Z && (status <=? 599)%Z && (a <? retries)%nat) eqn:E.
      * apply TurnNext with (pause := []); try exact Hlast;
          rewrite ?finally_unlink_uuids, ?finally_unlink_files,
            ?finally_unlink_trace; reflexivity.
      * apply TurnStop; try discriminate;
          rewrite ?finally_unlink_uuids, ?finally_unlink_files,
            ?finally_unlink_trace; reflexivity.
    + destruct b as [content [|]|partial f|].
      * apply Hretry; [right; eexists|..]; reflexivity.
      * apply orb_false_elim in Hstatus as [Hlo Hhi].
        apply Z.ltb_ge in Hlo. apply Z.leb_gt in Hhi.
        apply TurnDone with (status := status) (content := content);
          [exact Hpeer | lia | apply finally_unlink_uuids
          | | apply finally_unlink_trace].
        rewrite finally_unlink_files. cbn. rewrite delete_insert_ne by apply tmp_path_not_dest.
        rewrite delete_delete_eq, delete_insert_eq. reflexivity.
      * apply Hretry; [right; eexists|..]; reflexivity.
      * apply Hretry; [left|..]; reflexivity.
  - apply TurnStop; try discriminate;
      rewrite ?finally_unlink_uuids, ?finally_unlink_files,
        ?finally_unlink_trace; try reflexivity.
    apply delete_insert_eq.
  - apply TurnStop; try discriminate;
      rewrite ?finally_unlink_uuids, ?finally_unlink_files,
        ?finally_unlink_trace; reflexivity.
Qed.

(** The effect of a run of turns on the files, the UUID counter and the
    trace. *)
Lemma download_attempts_inv (rem a retries : nat) (url dest : string) (w : World)
    (r : result bool) (w' : World) :
  (rem + a = retries + 1)%nat ->
  attempts rem a retries url dest w = (r, w') ->
  (uuids w <= uuids w' <= uuids w + rem)%nat
  /\ (forall n, (uuids w <= n < uuids w')%nat -> files w' !! tmp_of dest n = None)
  /\ (forall p, p <> dest -> files w !! p = None -> files w' !! p = None)
  /\ (forall p, p <> dest ->
        (forall n, (uuids w <= n < uuids w')%nat -> p <> tmp_of dest n) ->
        files w' !! p = files w !! p)
  /\ (r = Ok true ->
      exists n status content,
        peer url n = Response status (Complete content false)
        /\ (200 <= status < 300)%Z
        /\ files w' !! dest = Some content)
  /\ (r <> Ok true -> files w' !! dest = files w !! dest)
  /\ exists evs, trace w' = trace w ++ evs
       /\ length (List.filter is_get evs) = (uuids w' - uuids w)%nat.
Proof.
  revert a w r w'. induction rem as [|rem IH]; intros a w r w' Hrem.
  { cbn. intros [= <- <-].
    split; [lia|]. split; [intros n Hn; lia|]. split; [intros p _ Hp; exact Hp|].
    split; [reflexivity|]. split; [discriminate|]. split; [reflexivity|].
    exists []. rewrite app_nil_r, Nat.sub_diag. split; reflexivity. }
  destruct (download_turn rem a retries url dest w ltac:(lia))
    as [w1 pause Hu Hf Ht Hp _ | r1 w1 Hr Hu Hf Ht
       | status content w1 Hpeer Hstatus Hu Hf Ht].
  - intros Hrun.
    destruct (IH (S a) w1 r w' ltac:(lia) Hrun)
      as (Hb & Htmp & Hnew & Hkeep & Hok & Hfail & evs & Hevs & Hgets).
    split; [lia|]. split; [|split; [|split; [|split; [|split]]]].
    + intros n Hn. destruct (Nat.eq_dec n (uuids w)) as [->|Hne].
      * apply Hnew; [apply tmp_path_not_dest|]. rewrite Hf. apply lookup_delete_eq.
      * apply Htmp. lia.
    + intros p Hp1 Hp2. apply Hnew; [exact Hp1|]. rewrite Hf.
      apply lookup_delete_None. right. exact Hp2.
    + intros p Hp1 Hp2. rewrite Hkeep; [|exact Hp1|intros n Hn; apply Hp2; lia].
      rewrite Hf. apply lookup_delete_ne. intros Heq. apply (Hp2 (uuids w)); [lia|].
      symmetry. exact Heq.
    + exact Hok.
    + intros Hr. rewrite (Hfail Hr), Hf. apply lookup_delete_ne, tmp_path_not_dest.
    + exists (EvGet url a :: pause ++ evs). split.
      * rewrite Hevs, Ht, <- app_assoc. reflexivity.
      * cbn. rewrite List.filter_app, Hp. cbn. rewrite Hgets. lia.
  - intros [= <- <-]. rewrite Hu.
    split; [lia|]. split; [|split; [|split; [|split; [|split]]]].
    + intros n Hn. assert (n = uuids w) as -> by lia. rewrite Hf.
      apply lookup_delete_eq.
    + intros p _ Hp2. rewrite Hf. apply lookup_delete_None. right. exact Hp2.
    + intros p _ Hp2. rewrite Hf. apply lookup_delete_ne. intros Heq.
      apply (Hp2 (uuids w)); [lia|]. symmetry. exact Heq.
    + intros ->. congruence.
    + intros _. rewrite Hf. apply lookup_delete_ne, tmp_path_not_dest.
    + exists [EvGet url a]. split; [exact Ht|]. cbn. lia.
  - intros [= <- <-]. rewrite Hu.
    split; [lia|]. split; [|split; [|split; [|split; [|split]]]].
    + intros n Hn. assert (n = uuids w) as -> by lia. rewrite Hf.
      rewrite lookup_insert_ne by (intros Heq; symmetry in Heq;
                                   exact (tmp_path_not_dest _ _ Heq)).
      apply lookup_delete_eq.
    + intros p Hp1 Hp2. rewrite Hf, lookup_insert_ne by congruence.
      apply lookup_delete_None. right. exact Hp2.
    + intros p Hp1 Hp2. rewrite Hf, lookup_insert_ne by congruence.
      apply lookup_delete_ne. intros Heq.
      apply (Hp2 (uuids w)); [lia|]. symmetry. exact Heq.
    + intros _. exists a, status, content.
      split; [exact Hpeer|]. split; [exact Hstatus|].
      rewrite Hf. apply lookup_insert_eq.
    + congruence.
    + exists [EvGet url a]. split; [exact Ht|]. cbn. lia.
Qed.


(** At most [retries + 1] requests are sent, one per UUID drawn. *)
Lemma download_attempts_bound (url dest : string) (retries : Z) (w : World) :
  let '(r, w') := _download_to_path uuid4_hex peer url dest retries w in
  exists evs, trace w' = trace w ++ evs
    /\ (Z.of_nat (length (List.filter is_get evs)) <= Z.max 0 retries + 1)%Z.
Proof.
  destruct (_download_to_path uuid4_hex peer url dest retries w) as [r w'] eqn:E.
  unfold _download_to_path in E.
  destruct (download_attempts_inv (Z.to_nat (Z.max 0 retries) + 1) 0
              (Z.to_nat (Z.max 0 retries)) url dest w r w' ltac:(lia) E)
    as (Hb & _ & _ & _ & _ & _ & evs & Hevs & Hgets).
  exists evs. split; [exact Hevs|]. rewrite Hgets. lia.
Qed.

(** A status from 500 to 599 with a turn left: the next request follows
    with no pause in between. *)
Lemma server_error_next_turn (rem a retries : nat) (url dest : string)
    (w : World) (status : Z) (b : body) :
  peer url a = Response status b ->
  (500 <= status <= 599)%Z -> (a < retries)%nat ->
  exists w1, attempts (S rem) a retries url dest w
             = attempts rem (S a) retries url dest w1
             /\ trace w1 = trace w ++ [EvGet url a].
Proof.
  intros Hpeer Hs Ha. cbn [download_attempts]. rewrite Hpeer.
  destruct (Z.ltb_spec status 200); [lia|].
  destruct (Z.leb_spec 300 status); [|lia]. cbn [orb].
  destruct (Z.leb_spec 500 status); [|lia].
  destruct (Z.leb_spec status 599); [|lia].
  destruct (Nat.ltb_spec a retries); [|lia]. cbn [andb].
  eexists. split; [reflexivity|]. apply finally_unlink_trace.
Qed.

(** Any other status outside 200 to 299, or a status from 500 to 599 on
    the last turn: false at once, nothing more is sent. *)
Lemma other_status_returns_false (rem a retries : nat) (url dest : string)
    (w : World) (status : Z) (b : body) :
  peer url a = Response status b ->
  (status < 200 \/ 300 <= status)%Z ->
  ~ ((500 <= status <= 599)%Z /\ (a < retries)%nat) ->
  exists w1, attempts (S rem) a retries url dest w = (Ok false, w1)
             /\ trace w1 = trace w ++ [EvGet url a].
Proof.
  intros Hpeer Hs Hn. cbn [download_attempts]. rewrite Hpeer.
  assert ((status <? 200)%Z || (300 <=? status)%Z = true) as ->.
  { destruct (Z.ltb_spec status 200); [reflexivity|].
    destruct (Z.leb_spec 300 status); [reflexivity | lia]. }
  assert ((500 <=? status)%Z && (status <=? 599)%Z && (a <? retries)%nat = false) as ->.
  { destruct (Z.leb_spec 500 status); [|reflexivity].
    destruct (Z.leb_spec status 599); [|reflexivity].
    destruct (Nat.ltb_spec a retries); [|reflexivity].
    exfalso. apply Hn. lia. }
  eexists. split; [reflexivity|]. apply finally_unlink_trace.
Qed.

(** A network, timeout or payload error with a turn left: a pause of
    [0.2 * (attempt + 1)] seconds, then the next request. *)
Lemma failure_next_turn_after_pause (rem a retries : nat) (url dest : string)
    (w : World) :
  (exists f, peer url a = NoResponse f)
  \/ (exists status partial f,
        peer url a = Response status (Broken partial f)
        /\ (200 <= status < 300)%Z) ->
  (a < retries)%nat ->
  exists w1, attempts (S rem) a retries url dest w
             = attempts rem (S a) retries url dest w1
             /\ trace w1 = trace w ++ [EvGet url a;
                                       EvSleep ((2 # 10) * inject_Z (Z.of_nat a + 1))%Q].
Proof.
  intros Hpeer Ha. cbn [download_attempts].
  assert (Hp : pause_after a retries
               = [EvSleep ((2 # 10) * inject_Z (Z.of_nat a + 1))%Q]).
  { unfold pause_after. destruct (Nat.ltb_spec a retries); [reflexivity | lia]. }
  destruct Hpeer as [[f ->]|(status & partial & f & -> & Hs)].
  - eexists. split; [reflexivity|].
    rewrite finally_unlink_trace, backoff_trace, Hp. cbn.
    rewrite <- app_assoc. reflexivity.
  - destruct (Z.ltb_spec status 200); [lia|].
    destruct (Z.leb_spec 300 status); [lia|]. cbn [orb].
    eexists. split; [reflexivity|].
    rewrite finally_unlink_trace, backoff_trace, Hp. cbn.
    rewrite <- app_assoc. reflexivity.
Qed.

(** Cancellation is passed on: no further turn, no pause. *)
Lemma cancellation_propagates (rem a retries : nat) (url dest : string)
    (w : World) (partial : option string) :
  peer url a = Cancel partial ->
  exists w1, attempts (S rem) a retries url dest w = (Raise CancelledError, w1)
             /\ trace w1 = trace w ++ [EvGet url a].
Proof.
  intros Hpeer. cbn [download_attempts]. rewrite Hpeer.
  destruct partial; eexists; (split; [reflexivity|]); apply finally_unlink_trace.
Qed.
End DownloadFacts.

(** C4, on the input that shows the defect: with [retries = 1] and a peer
    answering 503 and then 200, the download succeeds after two requests
    and the trace holds no pause between them, whereas after a timeout the
    second request comes after a pause of 0.2 seconds. *)
Theorem server_error_retried_without_pause :
  (let '(r, w') := _download_to_path Sample.uuid4_hex Sample.peer_503_then_200
                     "http://h/a.png" "/c/a.png" 1 Sample.empty_world in
   r = Ok true
   /\ trace w' = [EvGet "http://h/a.png" 0; EvGet "http://h/a.png" 1]
   /\ List.filter is_sleep (trace w') = [])
  /\ (let '(r, w') := _download_to_path Sample.uuid4_hex Sample.peer_timeout_then_200
                        "http://h/a.png" "/c/a.png" 1 Sample.empty_world in
      r = Ok true
      /\ trace w' = [EvGet "http://h/a.png" 0; EvSleep ((2 # 10) * 1)%Q;
                     EvGet "http://h/a.png" 1]).
Proof. split; vm_compute; repeat split; reflexivity. Qed.

Example download_503_then_200_files :
  let '(r, w') := _download_to_path Sample.uuid4_hex Sample.peer_503_then_200
                    "http://h/a.png" "/c/a.png" 1 Sample.empty_world in
  r = Ok true /\ files w' = {[ "/c/a.png" := "img" ]} /\ uuids w' = 2%nat.
Proof. vm_compute. repeat split; reflexivity. Qed.

Example download_404_single_request :
  let '(r, w') := _download_to_path Sample.uuid4_hex Sample.peer_404
                    "http://h/a.png" "/c/a.png" 1 Sample.empty_world in
  r = Ok false /\ trace w' = [EvGet "http://h/a.png" 0] /\ files w' = ∅.
Proof. vm_compute. repeat split; reflexivity. Qed.

(** ** [get_background_image] *)

Section BackgroundFacts.
Variable uuid4_hex : nat -> string.
Variable peer : string -> nat -> attempt.
Variable sha256_hex : string -> string.
Variable url_suffix : string -> string.
Variables cache_dir tmp_dir : string.
Variables pre_cache_enabled cleanup_downloads : bool.

Local Abbreviation cache_path_for :=
  (_background_cache_path_for_url sha256_hex url_suffix cache_dir).
Local Abbreviation tmp_path_for_url :=
  (_background_tmp_path_for_url uuid4_hex url_suffix tmp_dir).
Local Abbreviation target :=
  (download_target uuid4_hex sha256_hex url_suffix cache_dir tmp_dir
     pre_cache_enabled cleanup_downloads).
Local Abbreviation try_urls :=
  (try_background_urls uuid4_hex peer sha256_hex url_suffix cache_dir tmp_dir
     pre_cache_enabled cleanup_downloads).
Local Abbreviation failed :=
  (all_failed uuid4_hex peer sha256_hex url_suffix cache_dir tmp_dir
     pre_cache_enabled cleanup_downloads).

Lemma try_urls_none (urls : list string) (w w' : World) :
  try_urls urls w = (Ok None, w') <-> failed urls w w'.
Proof.
  split.
  - revert w. induction urls as [|url rest IH]; intros w; cbn [try_background_urls].
    + intros [= <-]. constructor.
    + destruct (is_http url) eqn:Hh; cbn [negb].
      * destruct (files w !! cache_path_for url) eqn:Hc; [discriminate|].
        destruct (target url w) as [[image_path flag] w1] eqn:Ht.
        destruct (_download_to_path uuid4_hex peer url image_path 1 w1)
          as [[[|]|e] w2] eqn:Hd; try discriminate.
        intros Hrest. eapply AllFailedTried; [exact Hh | exact Hc | | exact (IH _ Hrest)].
        rewrite Ht. exact Hd.
      * intros Hrest. apply AllFailedSkip; [exact Hh | exact (IH _ Hrest)].
  - induction 1 as [w | url rest w w' Hh _ IH | url rest w w2 w' Hh Hc Hd _ IH];
      cbn [try_background_urls].
    + reflexivity.
    + rewrite Hh. exact IH.
    + rewrite Hh, Hc. cbn [negb].
      destruct (target url w) as [[image_path flag] w1].
      rewrite Hd. exact IH.
Qed.


(** The whole operation tries at most five candidates, in order. *)
Lemma get_background_image_candidates (background_urls : list string) (w : World) :
  get_background_image uuid4_hex peer sha256_hex url_suffix cache_dir tmp_dir
    pre_cache_enabled cleanup_downloads background_urls w
  = try_urls (take 5 background_urls) w.
Proof.
  unfold get_background_image. destruct background_urls as [|u us]; [reflexivity|].
  f_equal. destruct (Nat.le_gt_cases 5 (length (u :: us))) as [H|H].
  - rewrite Nat.min_l by exact H. reflexivity.
  - rewrite Nat.min_r by lia. rewrite !take_ge by lia. reflexivity.
Qed.
End BackgroundFacts.


Example background_ephemeral_download :
  get_background_image Sample.uuid4_hex Sample.peer_503_then_200 Sample.sha256_hex
    Sample.url_suffix "/cache" "/tmp" false true
    ["ftp://h/x.png"; "http://h/a.png"] Sample.empty_world
  = (Ok (Some ("/tmp/a.png", true)),
     {| files := {[ "/tmp/a.png" := "img" ]}; uuids := 3;
        trace := [EvGet "http://h/a.png" 0; EvGet "http://h/a.png" 1] |}).
Proof. vm_compute. reflexivity. Qed.

Example background_permanent_download :
  fst (get_background_image Sample.uuid4_hex Sample.peer_503_then_200
         Sample.sha256_hex Sample.url_suffix "/cache" "/tmp" true true
         ["http://h/a.png"] Sample.empty_world)
  = Ok (Some ("/cache/dhttp://h/a.png.png", false)).
Proof. vm_compute. reflexivity. Qed.

Example background_all_fail :
  fst (get_background_image Sample.uuid4_hex Sample.peer_404 Sample.sha256_hex
         Sample.url_suffix "/cache" "/tmp" false true
         ["http://h/a.png"; "http://h/b.png"] Sample.empty_world)
  = Ok None.
Proof. vm_compute. reflexivity. Qed.

(** ** [_migrate_legacy_cache_dir] *)

Import Migration.

Section MigrationFacts.
Variable fault_of : string -> faults.

Local Abbreviation step := (migrate_item fault_of).
Local Abbreviation run := (migrate_items fault_of).

Local Ltac crush_item :=
  repeat match goal with
    | |- context [match ?x with _ => _ end] => destruct x eqn:?
    end;
  cbn.

(** A turn touches nothing under another name. *)
Lemma migrate_item_frame (name other : string) (s : State) :
  other <> name ->
  legacy_dir (step other s) !! name = legacy_dir s !! name
  /\ target_dir (step other s) !! name = target_dir s !! name.
Proof.
  intros Hne. unfold migrate_item, move_item. crush_item;
    rewrite ?lookup_delete_ne, ?lookup_insert_ne by exact Hne;
    split; reflexivity.
Qed.

Lemma migrate_items_frame (name : string) (items : list string) (s : State) :
  name ∉ items ->
  legacy_dir (run items s) !! name = legacy_dir s !! name
  /\ target_dir (run items s) !! name = target_dir s !! name.
Proof.
  revert s. induction items as [|other items IH]; intros s Hnot; [split; reflexivity|].
  change (run (other :: items) s) with (run items (step other s)).
  apply not_elem_of_cons in Hnot as [Hne Hnot].
  destruct (IH (step other s) Hnot) as [-> ->].
  apply migrate_item_frame. congruence.
Qed.

(** Every failure is logged. *)
Lemma migrate_item_logged (name : string) (s : State) :
  failed s = length (warnings s) ->
  failed (step name s) = length (warnings (step name s)).
Proof.
  intros H. unfold migrate_item, move_item. crush_item;
    rewrite ?length_app; cbn; lia.
Qed.

Lemma migrate_items_logged (items : list string) (s : State) :
  failed s = length (warnings s) ->
  failed (run items s) = length (warnings (run items s)).
Proof.
  revert s. induction items as [|name items IH]; intros s H; [exact H|].
  change (run (name :: items) s) with (run items (step name s)).
  apply IH, migrate_item_logged, H.
Qed.

(** What is not a regular file stays where it is. *)
Lemma migrate_item_other (name other : string) (s : State) :
  legacy_dir s !! name = Some Other ->
  legacy_dir (step other s) !! name = Some Other.
Proof.
  intros H. destruct (decide (other = name)) as [->|Hne].
  - unfold migrate_item. rewrite H. exact H.
  - rewrite (proj1 (migrate_item_frame name other s Hne)). exact H.
Qed.

Lemma migrate_items_other (name : string) (items : list string) (s : State) :
  legacy_dir s !! name = Some Other ->
  legacy_dir (run items s) !! name = Some Other.
Proof.
  revert s. induction items as [|other items IH]; intros s H; [exact H|].
  change (run (other :: items) s) with (run items (step other s)).
  apply IH, migrate_item_other, H.
Qed.

(** The turn of a regular file whose operations all succeed. *)
Lemma migrate_item_no_fault (name : string) (f : file) (s : State) :
  fault_of name = no_faults ->
  legacy_dir s !! name = Some (Regular f) ->
  legacy_dir (step name s) !! name = None
  /\ target_dir (step name s) !! name
     = match target_dir s !! name with
       | Some d => if (mtime f <=? mtime d)%Z then Some d else Some f
       | None => Some f
       end.
Proof.
  intros Hf Hl. unfold migrate_item, move_item. rewrite Hl, Hf. cbn.
  destruct (target_dir s !! name) as [d|] eqn:Ht.
  - destruct (mtime f <=? mtime d)%Z; cbn.
    + rewrite lookup_delete_eq, Ht. split; reflexivity.
    + rewrite lookup_delete_eq, lookup_insert_eq. split; reflexivity.
  - cbn. rewrite lookup_delete_eq, lookup_insert_eq. split; reflexivity.
Qed.

Lemma migrate_items_no_fault (name : string) (f : file) (items : list string)
    (s : State) :
  NoDup items -> name ∈ items ->
  fault_of name = no_faults ->
  legacy_dir s !! name = Some (Regular f) ->
  legacy_dir (run items s) !! name = None
  /\ target_dir (run items s) !! name
     = match target_dir s !! name with
       | Some d => if (mtime f <=? mtime d)%Z then Some d else Some f
       | None => Some f
       end.
Proof.
  intros Hnd Hin Hf Hl.
  apply list_elem_of_split in Hin as (before & after & ->).
  apply NoDup_app in Hnd as (_ & Hdisj & Hnd2).
  apply NoDup_cons in Hnd2 as [Hafter _].
  assert (Hbefore : name ∉ before).
  { intros Hb. apply (Hdisj name Hb). left. }
  unfold migrate_items. rewrite fold_left_app. cbn [fold_left].
  fold (run before s). fold (run after (step name (run before s))).
  destruct (migrate_items_frame name before s Hbefore) as [Hl1 Ht1].
  destruct (migrate_items_frame name after (step name (run before s)) Hafter)
    as [-> ->].
  rewrite <- Ht1. apply migrate_item_no_fault; [exact Hf|]. rewrite Hl1. exact Hl.
Qed.

(** A turn logs nothing but its own item, and forgets no warning. *)
Lemma migrate_item_warnings (other x : string) (s : State) :
  (x ∈ warnings s -> x ∈ warnings (step other s))
  /\ (x ∈ warnings (step other s) -> x ∈ warnings s \/ x = other).
Proof.
  unfold migrate_item, move_item. crush_item; split; intros H;
    rewrite ?elem_of_app, ?list_elem_of_singleton in *; tauto.
Qed.

Lemma migrate_items_warnings (items : list string) (x : string) (s : State) :
  (x ∈ warnings s -> x ∈ warnings (run items s))
  /\ (x ∈ warnings (run items s) -> x ∈ warnings s \/ x ∈ items).
Proof.
  revert s. induction items as [|other items IH]; intros s.
  - split; [trivial | left; assumption].
  - change (run (other :: items) s) with (run items (step other s)).
    destruct (IH (step other s)) as [IH1 IH2].
    destruct (migrate_item_warnings other x s) as [S1 S2].
    split.
    + intros H. apply IH1, S1, H.
    + intros H. destruct (IH2 H) as [H'|H'].
      * destruct (S2 H') as [Hx | Hx]; [left; exact Hx | right; subst x; left].
      * right. right. exact H'.
Qed.

(** The turn of a file with a namesake in the target whose modification
    times cannot be read: the legacy copy is removed, the target is left
    alone and nothing is logged. *)
Lemma migrate_item_stat_fault (name : string) (f d : file) (s : State) :
  stat_raises (fault_of name) = true ->
  unlink_raises (fault_of name) = false ->
  legacy_dir s !! name = Some (Regular f) ->
  target_dir s !! name = Some d ->
  legacy_dir (step name s) !! name = None
  /\ target_dir (step name s) !! name = Some d
  /\ warnings (step name s) = warnings s.
Proof.
  intros Hs Hu Hl Ht. unfold migrate_item. rewrite Hl, Ht, Hs, Hu. cbn.
  rewrite lookup_delete_eq. repeat split. exact Ht.
Qed.

(** The turn of a file without namesake whose rename raises: the file
    stays and a warning names it. *)
Lemma migrate_item_replace_fault (name : string) (f : file) (s : State) :
  replace (fault_of name) = ReplaceRaises ->
  legacy_dir s !! name = Some (Regular f) ->
  target_dir s !! name = None ->
  legacy_dir (step name s) !! name = Some (Regular f)
  /\ target_dir (step name s) !! name = None
  /\ name ∈ warnings (step name s).
Proof.
  intros Hr Hl Ht. unfold migrate_item, move_item. rewrite Hl, Ht, Hr. cbn.
  repeat split; try assumption. apply elem_of_app. right. left.
Qed.

Lemma split_items (name : string) (items : list string) (s : State) :
  NoDup items -> name ∈ items ->
  exists before after,
    (name ∉ before) /\ (name ∉ after)
    /\ run items s = run after (step name (run before s))
    /\ legacy_dir (run before s) !! name = legacy_dir s !! name
    /\ target_dir (run before s) !! name = target_dir s !! name
    /\ (forall x, x ∈ warnings (run before s) -> x ∈ warnings s \/ x ∈ before).
Proof.
  intros Hnd Hin.
  apply list_elem_of_split in Hin as (before & after & ->).
  apply NoDup_app in Hnd as (_ & Hdisj & Hnd2).
  apply NoDup_cons in Hnd2 as [Hafter _].
  assert (Hbefore : name ∉ before).
  { intros Hb. apply (Hdisj name Hb). left. }
  exists before, after. split; [exact Hbefore|]. split; [exact Hafter|].
  split.
  { unfold migrate_items. rewrite fold_left_app. reflexivity. }
  destruct (migrate_items_frame name before s Hbefore) as [Hl Ht].
  split; [exact Hl|]. split; [exact Ht|].
  intros x. apply migrate_items_warnings.
Qed.

End MigrationFacts.

(** Closed decidable facts are settled by evaluating their decision. *)
Ltac by_decision :=
  match goal with
  | |- ?P => apply (bool_decide_unpack P); vm_compute; exact I
  end.

Lemma sample_items_list_legacy : lists_directory Sample.items Sample.legacy.
Proof.
  split.
  - by_decision.
  - intros name. unfold Sample.items, Sample.legacy. split.
    + rewrite !elem_of_cons, elem_of_nil.
      intros [->|[->|[->|[->|[->|[]]]]]]; vm_compute; eexists; reflexivity.
    + intros [n Hn].
      repeat (rewrite lookup_insert in Hn; case_decide;
              [subst name; by_decision|]).
      rewrite lookup_singleton in Hn. case_decide; [|discriminate].
      subst name. by_decision.
Qed.



Example migrate_sample :
  match _migrate_legacy_cache_dir Sample.fault_of (Some Sample.legacy) false false
          Sample.items Sample.target with
  | Some o =>
      target_dir (final o) !! "a.jpg" = Some {| mtime := 20; content := "kept a" |}
      /\ target_dir (final o) !! "b.jpg" = Some {| mtime := 30; content := "new b" |}
      /\ target_dir (final o) !! "c.jpg" = Some {| mtime := 5; content := "c" |}
      /\ target_dir (final o) !! "x.jpg" = None
      /\ legacy_dir (final o) !! "a.jpg" = None
      /\ legacy_dir (final o) !! "x.jpg" = Some (Regular {| mtime := 7; content := "x" |})
      /\ legacy_dir (final o) !! "sub" = Some Other
      /\ legacy_after o = Some (legacy_dir (final o))
      /\ (moved (final o), skipped (final o), replaced (final o), failed (final o))
         = (2%nat, 1%nat, 1%nat, 1%nat)
      /\ warnings (final o) = ["x.jpg"]
  | None => False
  end.
Proof. vm_compute. repeat split; reflexivity. Qed.

(** ** [JrysPlugin.jrys] *)

Import Plugin.

Section JrysFacts.
Variable generate_image_sync : string -> option string -> string -> rendered.

Local Abbreviation run_jrys := (jrys generate_image_sync).

Lemma cleanup_removes (path : string) (d : gset string) :
  path ∉ cleanup true path d \/ path = "".
Proof.
  unfold cleanup. cbn [andb].
  destruct (String.eqb_spec path "") as [->|Hne]; [right; reflexivity|].
  left. cbn [negb andb]. destruct (bool_decide_reflect (path ∈ d)) as [Hin|Hout].
  - apply not_elem_of_difference. right. apply elem_of_singleton. reflexivity.
  - exact Hout.
Qed.

(** When the background fetch returns null or raises, nothing is rendered
    and the request fails. *)
Lemma background_failure_aborts (user_id : string) (avatar : fetched string)
    (background : fetched (string * bool)) (d : gset string)
    (last : gmap string Painter.LastImage) :
  background = IsNone \/ background = IsException ->
  render_calls (run_jrys user_id avatar background d last) = []
  /\ replies (run_jrys user_id avatar background d last)
     = [PlainResult BackgroundFailed]
  /\ disk (run_jrys user_id avatar background d last) = d.
Proof. intros [-> | ->]; repeat split. Qed.

(** When the avatar fetch raises, nothing is rendered, the request fails
    and a background marked for cleanup is removed. *)
Lemma avatar_exception_aborts (user_id background_path : string)
    (should_cleanup : bool) (d : gset string)
    (last : gmap string Painter.LastImage) :
  background_path <> "" ->
  let r := run_jrys user_id IsException (Value (background_path, should_cleanup))
             d last in
  render_calls r = [] /\ replies r = [PlainResult AvatarFailed]
  /\ (should_cleanup = true -> background_path ∉ disk r).
Proof.
  intros Hne. cbn. repeat split. intros ->.
  destruct (cleanup_removes background_path d) as [H|H]; [exact H | contradiction].
Qed.

(** When the avatar fetch returns null, the renderer is called all the
    same, with no avatar. *)
Lemma avatar_none_calls_renderer (user_id background_path : string)
    (should_cleanup : bool) (d : gset string)
    (last : gmap string Painter.LastImage) :
  render_calls
    (run_jrys user_id IsNone (Value (background_path, should_cleanup)) d last)
  = [(None, background_path)].
Proof.
  cbn. unfold render_and_record.
  destruct (generate_image_sync user_id None background_path); reflexivity.
Qed.
End JrysFacts.

(** C5, on the input that shows the defect: the avatar fetch returned null
    and the background fetch returned a temporary file marked for cleanup.
    The renderer is called without avatar, its image is the reply, the
    request does not fail, and the background file is still on disk, now
    recorded as the last image of the user. *)
Theorem avatar_none_still_renders :
  let r := jrys Sample.generate_image_sync "u1" IsNone
             (Value ("/tmp/bg.png", true)) {[ "/tmp/bg.png" ]} ∅ in
  render_calls r = [(None, "/tmp/bg.png")]
  /\ replies r = [ImageResult "/tmp/out.jpg"]
  /\ ~ failure_result r
  /\ "/tmp/bg.png" ∈ disk r
  /\ last_images r !! "u1"
     = Some {| Painter.path := "/tmp/bg.png"; Painter.should_cleanup := true |}.
Proof.
  cbn zeta. split; [reflexivity|]. split; [reflexivity|]. split; [|split].
  - intros [m Hm]. discriminate.
  - by_decision.
  - vm_compute. reflexivity.
Qed.

Example avatar_exception_removes_background :
  let r := jrys Sample.generate_image_sync "u1" IsException
             (Value ("/tmp/bg.png", true)) {[ "/tmp/bg.png" ]} ∅ in
  render_calls r = [] /\ replies r = [PlainResult AvatarFailed]
  /\ bool_decide ("/tmp/bg.png" ∈ disk r) = false.
Proof. cbn zeta. split; [reflexivity|]. split; [reflexivity|]. vm_compute. reflexivity. Qed.

(** * Further properties of the code *)

(** ** The selection step: what can be selected *)

Section ChoicesSound.
Context {Rng : Type}.
Variable random53 : Rng -> Z * Rng.

(** Whatever the weights, a draw that returns returns a candidate, at an
    index that has a weight. *)
Lemma choices1_sound {A : Type} (rng rng' : Rng) (population : list A)
    (ws : list Q) (x : A) :
  choices1 random53 rng population ws = Ok (x, rng') ->
  length ws = length population
  /\ exists i, population !! i = Some x /\ (i < length ws)%nat.
Proof.
  unfold choices1. rewrite accumulate_length.
  destruct (Nat.eqb_spec (length ws) (length population)) as [Hlen|]; [|discriminate].
  cbn [negb]. destruct (last (Py.accumulate ws)) as [total|]; [|discriminate].
  destruct (Qle_bool total 0); [discriminate|].
  destruct (random random53 rng) as [u rng1].
  destruct (Py.bisect_right _ _ _ _) as [i|e]; cbn; [|discriminate].
  destruct (population !! i) as [y|] eqn:Hy; [|discriminate].
  intros [= -> ->]. split; [exact Hlen|]. exists i. split; [exact Hy|].
  rewrite Hlen. eapply lookup_lt_Some. exact Hy.
Qed.
End ChoicesSound.

Lemma lookup_key_in (t : Table) (k : string) (v : JValue) :
  lookup_key k t = Some v -> In (k, v) t.
Proof.
  induction t as [|[k' v'] t IH]; cbn [lookup_key]; [discriminate|].
  destruct (String.eqb_spec k k') as [->|Hne].
  - intros [= ->]. left. reflexivity.
  - intros H. right. exact (IH H).
Qed.

Section SelectionSound.
Context {Rng : Type}.
Variable seed : string -> Rng.
Variable random53 : Rng -> Z * Rng.
Variable randbelow : Rng -> nat -> nat * Rng.

Local Abbreviation select :=
  (generate_image_sync_select seed random53 randbelow).

Lemma draw_key_sound (cfg : Config) (now : DateTime) (t : Table)
    (rng rng' : Rng) (k : string) :
  draw_key random53 cfg now t rng = Ok (k, rng') ->
  In k (valid_keys_list t)
  /\ exists ws, weights (current_rates cfg now) (valid_keys_list t) = Ok ws
       /\ exists i, valid_keys_list t !! i = Some k
            /\ (i < length (draw_weights ws (valid_keys_list t)))%nat.
Proof.
  unfold draw_key.
  destruct (weights (current_rates cfg now) (valid_keys_list t)) as [ws|e];
    cbn; [|discriminate].
  intros H. apply choices1_sound in H as (Hlen & i & Hi & Hlt).
  split.
  - apply list_elem_of_In. eapply list_elem_of_lookup_2. exact Hi.
  - exists ws. split; [reflexivity|]. exists i. split; assumption.
Qed.

Lemma pick_entry_sound (t : Table) (k k' : string) (rng : Rng) (i : nat)
    (e : FortuneEntry) :
  pick_entry randbelow t k rng = Ok (Selected k' i e) ->
  k' = k /\ exists entries, lookup_key k t = Some (JList entries)
                            /\ entries !! i = Some e.
Proof.
  unfold pick_entry. destruct (lookup_key k t) as [[entries|members]|];
    [| |discriminate].
  - destruct (choice randbelow rng (seq 0 (length entries))) as [[j rng1]|x];
      cbn; [|discriminate].
    destruct (entries !! j) as [fd|] eqn:Hj; [|discriminate].
    intros [= <- <- <-]. split; [reflexivity|]. exists entries. split; [reflexivity | exact Hj].
  - destruct (choice randbelow rng (seq 0 (length members))) as [[j rng1]|x];
      cbn; discriminate.
Qed.

Lemma select_selected (cfg : Config) (user_id : string) (now : DateTime)
    (rng0 : Rng) (t : Table) (k : string) (i : nat) (e : FortuneEntry) :
  select cfg user_id now rng0 t = Selected k i e ->
  exists rng',
    draw_key random53 cfg now t (make_rng seed cfg rng0 user_id now) = Ok (k, rng')
    /\ exists entries, lookup_key k t = Some (JList entries) /\ entries !! i = Some e.
Proof.
  unfold generate_image_sync_select. destruct t as [|kv t']; [discriminate|].
  destruct (draw_key random53 cfg now (kv :: t') _) as [[k1 rng']|x] eqn:Hd;
    cbn; [|discriminate].
  destruct (pick_entry randbelow (kv :: t') k1 rng') as [o|x] eqn:Hp; [|discriminate].
  intros ->. apply pick_entry_sound in Hp as (-> & entries & Hl & He).
  exists rng'. split; [reflexivity|]. exists entries. split; assumption.
Qed.

(** X1: whatever the configuration, the date and the generator, an outcome
    [Selected k i e] names a non-metadata key [k] of the table whose value
    is an entry list, and [e] is the entry at index [i] of that list: no
    metadata key is ever selected, and no entry is made up. *)
Theorem selected_entry_in_table (cfg : Config) (user_id : string)
    (now : DateTime) (rng0 : Rng) (t : Table) (k : string) (i : nat)
    (e : FortuneEntry) :
  select cfg user_id now rng0 t = Selected k i e ->
  In k (valid_keys_list t)
  /\ Py.startswith "_" k = false
  /\ (exists v, Py.int k = Some v)
  /\ exists entries,
      In (k, JList entries) t
      /\ lookup_key k t = Some (JList entries)
      /\ entries !! i = Some e
      /\ (i < length entries)%nat.
Proof.
  intros H. apply select_selected in H as (rng' & Hd & entries & Hl & He).
  destruct (draw_key_sound _ _ _ _ _ _ Hd) as (Hin & ws & Hws & j & Hj & _).
  destruct (valid_key_fst t k Hin) as [_ Hsw].
  split; [exact Hin|]. split; [exact Hsw|]. split.
  - unfold weights in Hws.
    destruct (good_keys (valid_keys_list t)) as [g|]; cbn in Hws; [|discriminate].
    destruct (normal_keys (valid_keys_list t)) as [n|]; cbn in Hws; [|discriminate].
    destruct (bad_keys (valid_keys_list t)) as [b|]; cbn in Hws; [|discriminate].
    destruct (mapM_lookup _ _ _ j k Hws Hj) as (w & Hw & _).
    unfold key_weight, Py.int_r in Hw.
    destruct (Py.int k) as [v|]; [exists v; reflexivity | discriminate].
  - exists entries. split; [apply lookup_key_in, Hl|]. split; [exact Hl|].
    split; [exact He|]. eapply lookup_lt_Some. exact He.
Qed.

(** X3: a table without any non-metadata key, empty or holding reserved
    keys only, never yields a selection: the step returns null. *)
Theorem no_score_key_returns_none (cfg : Config) (user_id : string)
    (now : DateTime) (rng0 : Rng) (t : Table) :
  valid_keys_list t = [] ->
  select cfg user_id now rng0 t = ReturnedNone EmptyData
  \/ select cfg user_id now rng0 t = ReturnedNone (Caught IndexError).
Proof.
  intros Hk. unfold generate_image_sync_select. destruct t as [|kv t']; [left; reflexivity|].
  right. unfold draw_key. rewrite Hk. reflexivity.
Qed.
End SelectionSound.

Lemma selected_entry_in_table_witness :
  generate_image_sync_select Sample.seed Sample.random53 Sample.randbelow
    Sample.config "u1" Sample.morning 0%Z Sample.table
  = Selected "60" 0 Sample.entry
  /\ In "60" (valid_keys_list Sample.table)
  /\ Py.startswith "_" "60" = false.
Proof.
  assert (H : generate_image_sync_select Sample.seed Sample.random53
                Sample.randbelow Sample.config "u1" Sample.morning 0%Z Sample.table
              = Selected "60" 0 Sample.entry) by (vm_compute; reflexivity).
  split; [exact H|].
  destruct (selected_entry_in_table Sample.seed Sample.random53 Sample.randbelow
              Sample.config "u1" Sample.morning 0%Z Sample.table "60" 0
              Sample.entry H) as (Hin & Hsw & _).
  split; assumption.
Defined.

Lemma no_score_key_returns_none_witness :
  valid_keys_list [("_user_last_images", JDict [])] = []
  /\ (generate_image_sync_select Sample.seed Sample.random53 Sample.randbelow
        Sample.config "u1" Sample.morning 0%Z [("_user_last_images", JDict [])]
      = ReturnedNone EmptyData
      \/ generate_image_sync_select Sample.seed Sample.random53 Sample.randbelow
           Sample.config "u1" Sample.morning 0%Z [("_user_last_images", JDict [])]
         = ReturnedNone (Caught IndexError)).
Proof.
  split; [reflexivity|].
  exact (no_score_key_returns_none Sample.seed Sample.random53 Sample.randbelow
           Sample.config "u1" Sample.morning 0%Z
           [("_user_last_images", JDict [])] eq_refl).
Defined.

(** ** The weighted draw never returns a candidate of weight zero *)

Lemma accumulate_from_lookup (acc : Q) (r : list Q) (i : nat) (c : Q) :
  Py.accumulate_from acc r !! i = Some c ->
  exists w, r !! i = Some w
    /\ match i with
       | O => c = (acc + w)%Q
       | S j => exists p, Py.accumulate_from acc r !! j = Some p /\ c = (p + w)%Q
       end.
Proof.
  revert acc i. induction r as [|w r IH]; intros acc i; cbn [Py.accumulate_from].
  - destruct i; discriminate.
  - destruct i as [|i]; cbn.
    + intros [= <-]. exists w. split; reflexivity.
    + intros H. destruct (IH _ _ H) as (w' & Hw' & Hi).
      exists w'. split; [exact Hw'|]. destruct i as [|i].
      * exists (acc + w)%Q. split; [reflexivity | exact Hi].
      * destruct Hi as (p & Hp & Hc). exists p. split; [exact Hp | exact Hc].
Qed.

(** Each running total is the one before plus the weight at its index. *)
Lemma accumulate_lookup (ws : list Q) (i : nat) (c : Q) :
  Py.accumulate ws !! i = Some c ->
  exists w, ws !! i = Some w
    /\ match i with
       | O => c = w
       | S j => exists p, Py.accumulate ws !! j = Some p /\ c = (p + w)%Q
       end.
Proof.
  destruct ws as [|w0 r]; [destruct i; discriminate|].
  cbn [Py.accumulate]. destruct i as [|i]; cbn.
  - intros [= <-]. exists w0. split; reflexivity.
  - intros H. destruct (accumulate_from_lookup _ _ _ _ H) as (w & Hw & Hi).
    exists w. split; [exact Hw|]. destruct i as [|i].
    + exists w0. split; [reflexivity | exact Hi].
    + destruct Hi as (p & Hp & Hc). exists p. split; [exact Hp | exact Hc].
Qed.

(** With no negative weight the running totals never decrease. *)
Lemma accumulate_monotone (ws : list Q) :
  Forall (fun w => (0 <= w)%Q) ws ->
  forall i j ai aj, (i <= j)%nat ->
    Py.accumulate ws !! i = Some ai -> Py.accumulate ws !! j = Some aj ->
    (ai <= aj)%Q.
Proof.
  intros Hpos i j. induction j as [|j IH]; intros ai aj Hij Hi Hj.
  - assert (i = 0%nat) as -> by lia. rewrite Hi in Hj. injection Hj as <-. lra.
  - destruct (Nat.eq_dec i (S j)) as [->|Hne].
    { rewrite Hi in Hj. injection Hj as <-. lra. }
    destruct (accumulate_lookup ws (S j) aj Hj) as (w & Hw & p & Hp & ->).
    assert (Hw0 : (0 <= w)%Q).
    { rewrite Forall_lookup in Hpos. exact (Hpos _ _ Hw). }
    specialize (IH ai p ltac:(lia) Hi Hp). lra.
Qed.

(** On totals that never decrease, the search returns the first index
    whose total exceeds [x], among those below [top]. *)
Lemma bisect_loop_first_above (fuel : nat) (a : list Q) (x : Q) (lo hi top : nat) :
  (forall i j ai aj, (i <= j)%nat -> a !! i = Some ai -> a !! j = Some aj ->
                     (ai <= aj)%Q) ->
  (hi - lo <= fuel)%nat -> (lo <= hi)%nat -> (hi <= top)%nat -> (top <= length a)%nat ->
  (forall i ai, (i < lo)%nat -> a !! i = Some ai -> (ai <= x)%Q) ->
  (forall i ai, (hi <= i < top)%nat -> a !! i = Some ai -> (x < ai)%Q) ->
  exists k, Py.bisect_loop fuel a x lo hi = Ok k
    /\ (k <= top)%nat
    /\ (forall i ai, (i < k)%nat -> a !! i = Some ai -> (ai <= x)%Q)
    /\ (forall i ai, (k <= i < top)%nat -> a !! i = Some ai -> (x < ai)%Q).
Proof.
  intros Hmono. revert lo hi.
  induction fuel as [|fuel IH]; intros lo hi Hf Hle Htop Hlen Hlow Hhigh.
  - assert (lo = hi) as -> by lia. exists hi. cbn [Py.bisect_loop].
    rewrite Nat.ltb_irrefl.
    split; [reflexivity|]. split; [exact Htop|]. split; assumption.
  - cbn [Py.bisect_loop]. destruct (Nat.ltb_spec lo hi) as [Hlt|Hge].
    + assert (Hmid : (lo <= (lo + hi) / 2 < hi)%nat).
      { split.
        - apply Nat.div_le_lower_bound; lia.
        - apply Nat.Div0.div_lt_upper_bound; lia. }
      destruct (lookup_lt_is_Some_2 a ((lo + hi) / 2)%nat) as [am Ham]; [lia|].
      rewrite Ham. destruct (Qle_bool am x) eqn:E.
      * apply Qle_bool_iff in E.
        apply IH; try lia; try assumption.
        intros i ai Hi Hai.
        assert (ai <= am)%Q by (apply (Hmono i ((lo + hi) / 2)%nat); [lia|assumption..]).
        lra.
      * assert (x < am)%Q.
        { apply Qnot_le_lt. intros H. apply Qle_bool_iff in H. congruence. }
        apply IH; try lia; try assumption.
        intros i ai Hi Hai.
        destruct (Nat.lt_ge_cases i hi) as [Hih|Hih].
        -- assert (am <= ai)%Q
             by (apply (Hmono ((lo + hi) / 2)%nat i); [lia|assumption..]).
           lra.
        -- apply (Hhigh i ai); [lia | exact Hai].
    + assert (lo = hi) as -> by lia. exists hi.
      split; [reflexivity|]. split; [exact Htop|]. split; assumption.
Qed.

Section ChoicesPositive.
Context {Rng : Type}.
Variable random53 : Rng -> Z * Rng.

(** [random()] lies in the half-open unit interval. *)
Lemma random_unit (rng rng' : Rng) (u : Q) :
  random random53 rng = (u, rng') -> (0 <= u)%Q /\ (u < 1)%Q.
Proof.
  unfold random. destruct (random53 rng) as [k r]. intros [= <- _].
  pose proof (Z.mod_pos_bound k (2 ^ 53) ltac:(lia)) as Hb.
  unfold Qle, Qlt. cbn [Qnum Qden].
  change (Z.pos (2 ^ 53)) with (2 ^ 53)%Z. lia.
Qed.

(** With no negative weight, the candidate drawn has a positive weight. *)
Lemma choices1_positive_weight {A : Type} (rng rng' : Rng) (population : list A)
    (ws : list Q) (x : A) :
  Forall (fun w => (0 <= w)%Q) ws ->
  choices1 random53 rng population ws = Ok (x, rng') ->
  exists i w, population !! i = Some x /\ ws !! i = Some w /\ (0 < w)%Q.
Proof.
  intros Hpos. unfold choices1. rewrite accumulate_length.
  destruct (Nat.eqb_spec (length ws) (length population)) as [Hlen|]; [|discriminate].
  cbn [negb]. destruct (last (Py.accumulate ws)) as [total|] eqn:Hlast; [|discriminate].
  destruct (Qle_bool total 0) eqn:Htot; [discriminate|].
  assert (Htotal : (0 < total)%Q).
  { apply Qnot_le_lt. intros H. apply Qle_bool_iff in H. congruence. }
  destruct (random random53 rng) as [u rng1] eqn:Hu.
  destruct (random_unit _ _ _ Hu) as [Hu0 Hu1].
  assert (Hx0 : (0 <= u * total)%Q) by (apply Qmult_le_0_compat; lra).
  assert (Hx1 : (u * total < total)%Q) by nra.
  rewrite last_lookup, accumulate_length in Hlast.
  destruct (bisect_loop_first_above (length population - 1 - 0) (Py.accumulate ws)
              (u * total)%Q 0 (length population - 1) (length population - 1)
              (accumulate_monotone ws Hpos))
    as (k & Hk & Hktop & Hbelow & Habove);
    [lia | lia | lia | rewrite accumulate_length; lia
    | intros i ai Hi; lia | intros i ai Hi; lia |].
  unfold Py.bisect_right. rewrite Hk. cbn.
  destruct (population !! k) as [y|] eqn:Hy; [|discriminate].
  intros [= -> ->].
  assert (Hklt : (k < length ws)%nat).
  { rewrite Hlen. eapply lookup_lt_Some. exact Hy. }
  destruct (lookup_lt_is_Some_2 (Py.accumulate ws) k) as [ck Hck].
  { rewrite accumulate_length. exact Hklt. }
  assert (Habove_k : (u * total < ck)%Q).
  { destruct (Nat.eq_dec k (length population - 1)) as [->|Hne].
    - replace (Init.Nat.pred (length ws)) with (length population - 1)%nat in Hlast by lia.
      rewrite Hlast in Hck. injection Hck as <-. exact Hx1.
    - apply (Habove k ck); [lia | exact Hck]. }
  destruct (accumulate_lookup ws k ck Hck) as (w & Hw & Hprev).
  exists k, w. split; [exact Hy|]. split; [exact Hw|].
  destruct k as [|k].
  - subst ck. lra.
  - destruct Hprev as (p & Hp & ->).
    assert (p <= u * total)%Q by (apply (Hbelow k p); [lia | exact Hp]).
    lra.
Qed.
End ChoicesPositive.

Lemma category_weight_sign (rates : Rates) (keys : list string) (c : category) :
  ((0 <= rate_of rates c)%Z -> (0 <= category_weight rates keys c)%Q)
  /\ ((0 < category_weight rates keys c)%Q -> (0 < rate_of rates c)%Z).
Proof.
  unfold category_weight.
  destruct (Z.of_nat (Nat.max (category_count c keys) 1)) as [|p|p] eqn:E; try lia.
  unfold Qdiv, Qmult, Qinv, Qle, Qlt, inject_Z. cbn. split; lia.
Qed.

Lemma filterM_ok_parse (p : Z -> bool) (keys r : list string) :
  filterM (fun k => v ← Py.int_r k; Ok (p v)) keys = Ok r -> keys_parse keys = true.
Proof.
  revert r. induction keys as [|k keys IH]; intros r; [reflexivity|].
  cbn [filterM]. intros H.
  destruct (Py.int_r k) as [v|e] eqn:Ek; cbn [mbind result_bind] in H;
    [|discriminate H].
  destruct (filterM (fun k => v ← Py.int_r k; Ok (p v)) keys) as [r'|e] eqn:E;
    cbn [mbind result_bind] in H; [|discriminate H].
  unfold Py.int_r in Ek. destruct (Py.int k) as [v'|] eqn:Ei; [|discriminate Ek].
  unfold keys_parse. cbn [forallb]. rewrite Ei. exact (IH r' eq_refl).
Qed.

Lemma weights_ok_parse (rates : Rates) (keys : list string) (ws : list Q) :
  weights rates keys = Ok ws -> keys_parse keys = true.
Proof.
  unfold weights. destruct (good_keys keys) as [g|] eqn:E; cbn; [|discriminate].
  intros _. exact (filterM_ok_parse _ _ _ E).
Qed.

Section ZeroRate.
Context {Rng : Type}.
Variable seed : string -> Rng.
Variable random53 : Rng -> Z * Rng.
Variable randbelow : Rng -> nat -> nat * Rng.

(** X2: when none of the three active rates is negative, a key is selected
    only if the rate of its category is positive, or every computed weight
    is zero so that the uniform fallback applies.  Under 85/15/0, say, a
    key below 56 is never selected while a key of another category gives a
    positive sum.  (Weights are exact rationals here.) *)
Theorem zero_rate_category_never_selected (cfg : Config) (user_id : string)
    (now : DateTime) (rng0 : Rng) (t : Table) (k : string) (i : nat)
    (e : FortuneEntry) :
  (forall c, 0 <= rate_of (current_rates cfg now) c)%Z ->
  generate_image_sync_select seed random53 randbelow cfg user_id now rng0 t
  = Selected k i e ->
  exists v ws,
    Py.int k = Some v
    /\ weights (current_rates cfg now) (valid_keys_list t) = Ok ws
    /\ ((Py.sum ws <= 0)%Q
        \/ (0 < rate_of (current_rates cfg now) (category_of v))%Z).
Proof.
  intros Hrates H.
  apply select_selected in H as (rng' & Hd & _).
  unfold draw_key in Hd.
  destruct (weights (current_rates cfg now) (valid_keys_list t)) as [ws|x] eqn:Hws;
    cbn in Hd; [|discriminate].
  pose proof (weights_ok_parse _ _ _ Hws) as Hp.
  destruct (weights_ok (current_rates cfg now) _ Hp) as (ws' & Hws' & Hlen & Hval).
  rewrite Hws in Hws'. injection Hws' as <-.
  unfold draw_weights in Hd.
  destruct (Qle_bool (Py.sum ws) 0) eqn:Hsum.
  - apply choices1_sound in Hd as (_ & j & Hj & _).
    destruct (keys_parse_lookup _ j k Hp Hj) as [v Hv].
    exists v, ws. split; [exact Hv|]. split; [reflexivity|].
    left. apply Qle_bool_iff. exact Hsum.
  - apply choices1_positive_weight in Hd as (j & w & Hj & Hw & Hpos).
    + destruct (keys_parse_lookup _ j k Hp Hj) as [v Hv].
      exists v, ws. split; [exact Hv|]. split; [reflexivity|]. right.
      rewrite (Hval j k v Hj Hv) in Hw. injection Hw as <-.
      exact (proj2 (category_weight_sign _ (valid_keys_list t) _) Hpos).
    + apply Forall_lookup. intros j w Hw.
      destruct (lookup_lt_is_Some_2 (valid_keys_list t) j) as [k' Hk'].
      { rewrite <- Hlen. eapply lookup_lt_Some. exact Hw. }
      destruct (keys_parse_lookup _ j k' Hp Hk') as [v Hv].
      rewrite (Hval j k' v Hk' Hv) in Hw. injection Hw as <-.
      exact (proj1 (category_weight_sign _ (valid_keys_list t) _) (Hrates _)).
Qed.
End ZeroRate.

Lemma zero_rate_category_never_selected_witness :
  (forall c, 0 <= rate_of (current_rates Sample.config Sample.morning) c)%Z
  /\ exists v ws,
      Py.int "60" = Some v
      /\ weights (current_rates Sample.config Sample.morning)
           (valid_keys_list Sample.table) = Ok ws
      /\ ((Py.sum ws <= 0)%Q
          \/ (0 < rate_of (current_rates Sample.config Sample.morning)
                    (category_of v))%Z).
Proof.
  assert (Hr : forall c,
             (0 <= rate_of (current_rates Sample.config Sample.morning) c)%Z).
  { intros c. destruct c; vm_compute; discriminate. }
  split; [exact Hr|].
  apply (zero_rate_category_never_selected Sample.seed Sample.random53
           Sample.randbelow Sample.config "u1" Sample.morning 0%Z Sample.table
           "60" 0 Sample.entry Hr).
  vm_compute. reflexivity.
Defined.

(** ** [wrap_text]: the lines are greedy *)

Lemma adjacent_snoc {A : Type} (R : A -> A -> Prop) (l : list A) (a : A) :
  adjacent R l -> (forall x, last l = Some x -> R x a) -> adjacent R (l ++ [a]).
Proof.
  intros Hadj Hlast i x y Hx Hy.
  destruct (Nat.lt_ge_cases (S i) (length l)) as [Hlt|Hge].
  - rewrite lookup_app_l in Hx by lia. rewrite lookup_app_l in Hy by lia.
    exact (Hadj i x y Hx Hy).
  - assert (Hi : (i < length l)%nat).
    { apply lookup_lt_Some in Hy. rewrite length_app in Hy. cbn in Hy. lia. }
    assert (S i = length l) as Hs by lia.
    rewrite lookup_app_l in Hx by lia.
    rewrite lookup_app_r, Hs, Nat.sub_diag in Hy by lia. injection Hy as <-.
    apply Hlast. rewrite last_lookup. replace (Init.Nat.pred (length l)) with i by lia.
    exact Hx.
Qed.

Section WrapTextGreedy.
Context {char : Type}.
Variable text_width : list char -> result Z.

Local Abbreviation fits := (line_fits text_width).
Local Abbreviation forced := (forced_break text_width).

Lemma wrap_loop_greedy (max_width : Z) (text : list char)
    (lines : list (list char)) (current_line : list char) (r : list (list char)) :
  wrap_loop text_width max_width text lines current_line = Ok r ->
  Forall (fits max_width) lines -> fits max_width current_line ->
  adjacent (forced max_width) lines ->
  (forall x, last lines = Some x -> forced max_width x current_line) ->
  Forall (fits max_width) r /\ adjacent (forced max_width) r.
Proof.
  revert lines current_line.
  induction text as [|c rest IH]; intros lines cur; cbn [wrap_loop].
  - destruct cur as [|c0 cur]; intros [= <-] Hfl Hfc Hadj Hlast.
    + split; assumption.
    + split.
      * apply Forall_app. split; [exact Hfl|]. constructor; [exact Hfc | constructor].
      * apply adjacent_snoc; assumption.
  - destruct (text_width (cur ++ [c])) as [w|e] eqn:Hw; cbn; [|discriminate].
    destruct (Z.leb_spec w max_width) as [Hle|Hgt]; intros Hr Hfl Hfc Hadj Hlast.
    + apply (IH _ _ Hr); try assumption.
      * right. right. exists w. split; assumption.
      * intros x Hx. destruct (Hlast x Hx) as (c1 & rest1 & w1 & -> & Hw1 & Hgt1).
        exists c1, (rest1 ++ [c]), w1. repeat split; assumption.
    + apply (IH _ _ Hr).
      * apply Forall_app. split; [exact Hfl|]. constructor; [exact Hfc | constructor].
      * right. left. exists c. reflexivity.
      * apply adjacent_snoc; assumption.
      * intros x Hx. rewrite last_snoc in Hx. injection Hx as <-.
        exists c, [], w. repeat split; assumption.
Qed.

(** Once the line being built is not empty, at least one line is added and
    every line added is not empty. *)
Lemma wrap_loop_nonempty (max_width : Z) (text : list char)
    (lines : list (list char)) (current_line : list char) (r : list (list char)) :
  wrap_loop text_width max_width text lines current_line = Ok r ->
  current_line <> [] ->
  exists more, r = lines ++ more /\ more <> [] /\ Forall (fun l => l <> []) more.
Proof.
  revert lines current_line.
  induction text as [|c rest IH]; intros lines cur; cbn [wrap_loop].
  - destruct cur as [|c0 cur]; intros [= <-] Hne; [congruence|].
    exists [c0 :: cur]. split; [reflexivity|]. split; [discriminate|].
    constructor; [discriminate | constructor].
  - destruct (text_width (cur ++ [c])) as [w|e]; cbn; [|discriminate].
    destruct (w <=? max_width)%Z; intros Hr Hne.
    + apply (IH _ _ Hr). destruct cur; discriminate.
    + destruct (IH _ _ Hr ltac:(discriminate)) as (more & -> & _ & Hmore).
      exists (cur :: more). rewrite <- app_assoc. split; [reflexivity|].
      split; [discriminate|]. constructor; assumption.
Qed.

Lemma wrap_loop_total (max_width : Z) (text : list char)
    (lines : list (list char)) (current_line : list char) :
  (forall s, exists w, text_width s = Ok w) ->
  exists r, wrap_loop text_width max_width text lines current_line = Ok r.
Proof.
  intros Htot. revert lines current_line.
  induction text as [|c rest IH]; intros lines cur; cbn [wrap_loop].
  - destruct cur; eexists; reflexivity.
  - destruct (Htot (cur ++ [c])) as [w ->]. cbn.
    destruct (w <=? max_width)%Z; apply IH.
Qed.

(** X5: when no measurement raises, every line returned by [wrap_text] is
    empty, a single character, or measures at most the maximum width, and
    every break was forced: a line together with the first character of the
    next line measures more than the maximum width. *)
Theorem wrap_text_greedy (text : list char) (max_width : Z) :
  (forall s, exists w, text_width s = Ok w) ->
  Forall (fits max_width) (wrap_text text_width text max_width)
  /\ adjacent (forced max_width) (wrap_text text_width text max_width).
Proof.
  intros Htot. unfold wrap_text.
  destruct (wrap_loop_total max_width text [] [] Htot) as [r Hr]. rewrite Hr.
  apply (wrap_loop_greedy _ _ _ _ _ Hr).
  - constructor.
  - left. reflexivity.
  - intros i x y Hx. destruct i; discriminate.
  - intros x Hx. discriminate.
Qed.

(** X6: when no measurement raises, an empty line can only be the first
    line returned, and the first line is empty exactly when the first
    character alone measures more than the maximum width; for the empty
    text no line is returned at all. *)
Theorem wrap_text_empty_line (text : list char) (max_width : Z) :
  (forall s, exists w, text_width s = Ok w) ->
  Forall (fun l => l <> []) (tail (wrap_text text_width text max_width))
  /\ (head (wrap_text text_width text max_width) = Some []
      <-> exists c rest w, text = c :: rest /\ text_width [c] = Ok w
                           /\ (max_width < w)%Z)
  /\ (wrap_text text_width text max_width = [] <-> text = []).
Proof.
  intros Htot. unfold wrap_text.
  destruct text as [|c rest].
  { cbn. split; [constructor|]. split; [|split; reflexivity].
    split; [discriminate|]. intros (c & rest & w & H & _). discriminate. }
  cbn [wrap_loop app]. destruct (Htot [c]) as [w Hw]. rewrite Hw. cbn.
  destruct (Z.leb_spec w max_width) as [Hle|Hgt].
  - destruct (wrap_loop_total max_width rest [] [c] Htot) as [r Hr]. rewrite Hr.
    destruct (wrap_loop_nonempty _ _ _ _ _ Hr ltac:(discriminate))
      as (more & -> & Hne & Hmore).
    cbn [app]. split; [|split].
    + destruct more; [constructor|]. apply Forall_cons in Hmore as [_ H]. exact H.
    + split.
      * intros Hh. destruct more as [|l more]; [discriminate|].
        apply Forall_cons in Hmore as [Hl _]. cbn in Hh. congruence.
      * intros (c' & rest' & w' & [= <- <-] & Hw' & Hgt').
        rewrite Hw in Hw'. injection Hw' as <-. lia.
    + split; [|discriminate]. intros Hm. contradiction.
  - destruct (wrap_loop_total max_width rest [[]] [c] Htot) as [r Hr]. rewrite Hr.
    destruct (wrap_loop_nonempty _ _ _ _ _ Hr ltac:(discriminate))
      as (more & -> & _ & Hmore).
    cbn. split; [exact Hmore|]. split; [|split; discriminate].
    split; [|reflexivity]. intros _. exists c, rest, w. repeat split; assumption.
Qed.
End WrapTextGreedy.

Lemma wrap_text_greedy_witness :
  (forall s : list ascii, exists w, Sample.fixed_width 10 s = Ok w)
  /\ Forall (line_fits (Sample.fixed_width 10) 30)
       (wrap_text (Sample.fixed_width 10) ["a"; "b"; "c"; "d"]%char 30)
  /\ wrap_text (Sample.fixed_width 10) ["a"; "b"; "c"; "d"]%char 30
     = [["a"; "b"; "c"]; ["d"]]%char.
Proof.
  assert (Ht : forall s : list ascii, exists w, Sample.fixed_width 10 s = Ok w)
    by (intros s; eexists; reflexivity).
  split; [exact Ht|]. split; [|reflexivity].
  exact (proj1 (wrap_text_greedy (Sample.fixed_width 10)
                  ["a"; "b"; "c"; "d"]%char 30 Ht)).
Defined.

Lemma wrap_text_empty_line_witness :
  (forall s : list ascii, exists w, Sample.fixed_width 10 s = Ok w)
  /\ wrap_text (Sample.fixed_width 10) ["a"; "b"]%char 5 = [[]; ["a"]; ["b"]]%char
  /\ (head (wrap_text (Sample.fixed_width 10) ["a"; "b"]%char 5) = Some []
      <-> exists c rest w, ["a"; "b"]%char = c :: rest
                           /\ Sample.fixed_width 10 [c] = Ok w /\ (5 < w)%Z).
Proof.
  assert (Ht : forall s : list ascii, exists w, Sample.fixed_width 10 s = Ok w)
    by (intros s; eexists; reflexivity).
  split; [exact Ht|]. split; [reflexivity|].
  exact (proj1 (proj2 (wrap_text_empty_line (Sample.fixed_width 10)
                         ["a"; "b"]%char 5 Ht))).
Defined.

(** ** [_download_to_path]: requests, pauses and the destination *)

Section DownloadRuns.
Variable uuid4_hex : nat -> string.
Variable peer : string -> nat -> attempt.

Local Abbreviation tmp_of := (tmp_path_for uuid4_hex).
Local Abbreviation attempts := (download_attempts uuid4_hex peer).

Lemma finally_unlink_dest (dest : string) (n : nat) (w : World) :
  files (finally_unlink (tmp_of dest n) w) !! dest = files w !! dest.
Proof.
  rewrite finally_unlink_files. apply lookup_delete_ne. apply tmp_path_not_dest.
Qed.

(** One turn, exactly: it goes on to the next turn, after no pause or after
    the pause of its number, leaving the destination as it was; or it ends,
    and the destination changed only if it ended with true. *)
Lemma download_step (rem a retries : nat) (url dest : string) (w : World) :
  (exists w1 pause,
      attempts (S rem) a retries url dest w = attempts rem (S a) retries url dest w1
      /\ trace w1 = trace w ++ EvGet url a :: pause
      /\ ((pause = [] /\ (server_error_continue a retries (peer url a) = true
                          \/ (caught_in_turn (peer url a) = true /\ (retries <= a)%nat)))
          \/ (pause = pause_after a retries /\ caught_in_turn (peer url a) = true))
      /\ uuids w1 = S (uuids w)
      /\ files w1 !! dest = files w !! dest)
  \/ (exists r w1,
      attempts (S rem) a retries url dest w = (r, w1)
      /\ caught_in_turn (peer url a) = false
      /\ server_error_continue a retries (peer url a) = false
      /\ trace w1 = trace w ++ [EvGet url a]
      /\ uuids w1 = S (uuids w)
      /\ (r <> Ok true -> files w1 !! dest = files w !! dest)
      /\ (r = Ok true <->
          exists status content,
            peer url a = Response status (Complete content false)
            /\ (200 <= status < 300)%Z)
      /\ (forall status content,
            peer url a = Response status (Complete content false) ->
            (200 <= status < 300)%Z -> files w1 !! dest = Some content)
      /\ (forall e, r = Raise e <-> e = CancelledError /\ exists p, peer url a = Cancel p))
    .
Proof.
  cbn [download_attempts]. unfold caught_in_turn, server_error_continue.
  destruct (peer url a) as [f|status b|[partial|]] eqn:Hp.
  - left. eexists _, _. split; [reflexivity|].
    rewrite finally_unlink_trace, backoff_trace, finally_unlink_uuids, backoff_uuids,
      finally_unlink_dest, backoff_files. cbn.
    split; [rewrite <- app_assoc; reflexivity|]. split; [|split; reflexivity].
    right. split; reflexivity.
  - destruct ((status <? 200)%Z || (300 <=? status)%Z) eqn:Hs; cbn [negb andb].
    + destruct ((500 <=? status)%Z && (status <=? 599)%Z && (a <? retries)%nat) eqn:H5.
      * left. eexists _, []. split; [reflexivity|].
        rewrite finally_unlink_trace, finally_unlink_uuids, finally_unlink_dest. cbn.
        repeat split; try reflexivity. left. split; [reflexivity|]. left. reflexivity.
      * right. eexists _, _. split; [reflexivity|].
        rewrite finally_unlink_trace, finally_unlink_uuids, finally_unlink_dest. cbn.
        repeat split; try reflexivity; try discriminate.
        -- intros (st & c & [= <- _] & Hst). lia.
        -- intros st c [= <- _] Hst. lia.
        -- intros [_ [p Hc]]. discriminate.
    + assert (Hst : (200 <= status < 300)%Z) by lia.
      destruct b as [content [|]|partial f|].
      * left. eexists _, _. split; [reflexivity|].
        rewrite finally_unlink_trace, backoff_trace, finally_unlink_uuids, backoff_uuids,
          finally_unlink_dest, backoff_files. cbn.
        split; [rewrite <- app_assoc; reflexivity|]. split; [|split; [reflexivity|]].
        -- right. split; reflexivity.
        -- apply lookup_insert_ne. apply tmp_path_not_dest.
      * right. eexists _, _. split; [reflexivity|].
        rewrite finally_unlink_trace, finally_unlink_uuids, finally_unlink_dest. cbn.
        repeat split; try reflexivity; try congruence.
        -- intros _. exists status, content. split; [reflexivity | exact Hst].
        -- intros st c [= <- <-] _. apply lookup_insert_eq.
        -- intros [_ [p Hc]]. discriminate.
      * left. eexists _, _. split; [reflexivity|].
        rewrite finally_unlink_trace, backoff_trace, finally_unlink_uuids, backoff_uuids,
          finally_unlink_dest, backoff_files. cbn.
        split; [rewrite <- app_assoc; reflexivity|]. split; [|split; [reflexivity|]].
        -- right. split; reflexivity.
        -- apply lookup_insert_ne. apply tmp_path_not_dest.
      * left. eexists _, _. split; [reflexivity|].
        rewrite finally_unlink_trace, backoff_trace, finally_unlink_uuids, backoff_uuids,
          finally_unlink_dest, backoff_files. cbn.
        split; [rewrite <- app_assoc; reflexivity|]. split; [|split; reflexivity].
        right. split; reflexivity.
  - right. eexists _, _. split; [reflexivity|].
    rewrite finally_unlink_trace, finally_unlink_uuids, finally_unlink_dest. cbn.
    repeat split; try reflexivity; try discriminate; try congruence.
    all: try (intros _; apply lookup_insert_ne, tmp_path_not_dest).
    all: try (intros (st & c & Hc & _); discriminate).
    all: try (eexists; reflexivity).
    all: intros [He _]; subst e; reflexivity.
  - right. eexists _, _. split; [reflexivity|].
    rewrite finally_unlink_trace, finally_unlink_uuids, finally_unlink_dest. cbn.
    repeat split; try reflexivity; try discriminate; try congruence.
    all: try (intros (st & c & Hc & _); discriminate).
    all: try (eexists; reflexivity).
    all: intros [He _]; subst e; reflexivity.
Qed.

Lemma filter_get_pause_after (a retries : nat) :
  List.filter is_get (pause_after a retries) = [].
Proof. unfold pause_after. destruct (a <? retries)%nat; reflexivity. Qed.

Lemma filter_sleep_pause_after (a retries : nat) :
  (length (List.filter is_sleep (pause_after a retries)) <= 1)%nat.
Proof. unfold pause_after. destruct (a <? retries)%nat; cbn; lia. Qed.

Lemma last_cons_app {A : Type} (x : A) (l k : list A) (y : A) :
  last k = Some y -> last (x :: l ++ k) = Some y.
Proof.
  intros Hk. change (x :: l ++ k) with ((x :: l) ++ k).
  destruct k as [|z k] using rev_ind; [discriminate|].
  rewrite last_snoc in Hk. rewrite app_assoc, last_snoc. exact Hk.
Qed.

(** A run of the loop from turn [a]: it ends at some turn [n], every turn
    before [n] went on to the next one, and turn [n] decides the result. *)
Lemma download_attempts_run (rem a retries : nat) (url dest : string) (w : World)
    (r : result bool) (w' : World) :
  (S rem + a = retries + 1)%nat ->
  attempts (S rem) a retries url dest w = (r, w') ->
  exists evs n,
    (a <= n <= retries)%nat
    /\ trace w' = trace w ++ evs
    /\ uuids w' = (uuids w + (S n - a))%nat
    /\ List.filter is_get evs = map (EvGet url) (seq a (S n - a))
    /\ last evs = Some (EvGet url n)
    /\ (forall s, In (EvSleep s) evs ->
          exists m, (a <= m < n)%nat /\ caught_in_turn (peer url m) = true
                    /\ s = ((2 # 10) * inject_Z (Z.of_nat m + 1))%Q)
    /\ (length (List.filter is_sleep evs) <= n - a)%nat
    /\ (r <> Ok true -> files w' !! dest = files w !! dest)
    /\ (forall m, (a <= m < n)%nat ->
          caught_in_turn (peer url m) = true
          \/ server_error_continue m retries (peer url m) = true)
    /\ ((caught_in_turn (peer url n) = false
         /\ server_error_continue n retries (peer url n) = false)
        \/ (n = retries /\ caught_in_turn (peer url n) = true /\ r = Ok false))
    /\ (r = Ok true <->
        exists status content,
          peer url n = Response status (Complete content false)
          /\ (200 <= status < 300)%Z)
    /\ (forall status content,
          peer url n = Response status (Complete content false) ->
          (200 <= status < 300)%Z -> files w' !! dest = Some content)
    /\ (forall e, r = Raise e <-> e = CancelledError /\ exists p, peer url n = Cancel p).
Proof.
  revert a w. induction rem as [|rem IH]; intros a w Hsum Hrun.
  - destruct (download_step 0 a retries url dest w)
      as [(w1 & pause & Heq & Htr & Hpause & Hu & Hd)
         |(r1 & w1 & Heq & Hc & Hs & Htr & Hu & Hd & Htrue & Hcont & Hraise)].
    + rewrite Heq in Hrun. cbn in Hrun. injection Hrun as <- <-.
      assert (Ha : a = retries) by lia.
      assert (Hp0 : pause = [] /\ caught_in_turn (peer url a) = true).
      { destruct Hpause as [[-> [Hse|[Hc _]]]|[-> Hc]].
        - unfold server_error_continue in Hse. destruct (peer url a); try discriminate.
          apply andb_true_iff in Hse as [_ Hse]. apply andb_true_iff in Hse as [_ Hse].
          apply Nat.ltb_lt in Hse. lia.
        - split; [reflexivity | exact Hc].
        - split; [|exact Hc]. unfold pause_after.
          destruct (Nat.ltb_spec a retries); [lia | reflexivity]. }
      destruct Hp0 as [-> Hc].
      exists [EvGet url a], a. replace (S a - a)%nat with 1%nat by lia.
      split; [lia|]. split; [exact Htr|]. split; [lia|]. split; [reflexivity|].
      split; [reflexivity|]. split.
      { intros s [Hin|[]]. discriminate. }
      split; [cbn; lia|]. split; [intros _; exact Hd|]. split; [intros m Hm; lia|].
      split; [right; repeat split; assumption|]. split; [|split].
      * split; [discriminate|]. intros (st & c & Hpeer & Hst).
        rewrite Hpeer in Hc. cbn in Hc.
        replace ((st <? 200)%Z || (300 <=? st)%Z) with false in Hc by lia.
        discriminate.
      * intros st c Hpeer Hst. rewrite Hpeer in Hc. cbn in Hc.
        replace ((st <? 200)%Z || (300 <=? st)%Z) with false in Hc by lia.
        discriminate.
      * intros e. split; [discriminate|]. intros [_ [p Hpeer]].
        rewrite Hpeer in Hc. discriminate.
    + rewrite Heq in Hrun. injection Hrun as <- <-.
      exists [EvGet url a], a. replace (S a - a)%nat with 1%nat by lia.
      split; [lia|]. split; [exact Htr|]. split; [lia|]. split; [reflexivity|].
      split; [reflexivity|]. split.
      { intros s [Hin|[]]. discriminate. }
      split; [cbn; lia|]. split; [exact Hd|]. split; [intros m Hm; lia|].
      split; [left; split; assumption|]. split; [exact Htrue|]. split; assumption.
  - destruct (download_step (S rem) a retries url dest w)
      as [(w1 & pause & Heq & Htr & Hpause & Hu & Hd)
         |(r1 & w1 & Heq & Hc & Hs & Htr & Hu & Hd & Htrue & Hcont & Hraise)].
    + rewrite Heq in Hrun.
      destruct (IH (S a) w1 ltac:(lia) Hrun)
        as (evs & n & Hn & Htr' & Hu' & Hget & Hlast & Hsleep & Hcount & Hd'
            & Hbefore & Hend & Htrue & Hcont & Hraise).
      assert (Hpg : List.filter is_get pause = []).
      { destruct Hpause as [[-> _]|[-> _]];
          [reflexivity | apply filter_get_pause_after]. }
      assert (Hps : (length (List.filter is_sleep pause) <= 1)%nat).
      { destruct Hpause as [[-> _]|[-> _]];
          [cbn; lia | apply filter_sleep_pause_after]. }
      exists (EvGet url a :: pause ++ evs), n.
      split; [lia|]. split.
      { rewrite Htr', Htr, <- app_assoc. reflexivity. }
      split; [lia|]. split.
      { replace (S n - a)%nat with (S (S n - S a)) by lia.
        cbn [seq map List.filter is_get]. rewrite List.filter_app, Hpg, Hget.
        reflexivity. }
      split; [apply last_cons_app; exact Hlast|]. split.
      { intros s [Hin|Hin]; [discriminate|].
        apply in_app_or in Hin as [Hin|Hin].
        - destruct Hpause as [[-> _]|[-> Hc]]; [destruct Hin|].
          unfold pause_after in Hin. destruct (a <? retries)%nat; [|destruct Hin].
          destruct Hin as [[= <-]|[]]. exists a. split; [lia|]. split; [exact Hc | reflexivity].
        - destruct (Hsleep s Hin) as (m & Hm & Hcm & ->).
          exists m. split; [lia|]. split; [exact Hcm | reflexivity]. }
      split.
      { cbn [List.filter is_sleep]. rewrite List.filter_app, length_app. lia. }
      split; [intros Hr; rewrite (Hd' Hr); exact Hd|]. split.
      { intros m Hm. destruct (Nat.eq_dec m a) as [->|Hne].
        - destruct Hpause as [[_ [Hse|[Hc _]]]|[_ Hc]]; auto.
        - apply Hbefore. lia. }
      split; [exact Hend|]. split; [exact Htrue|]. split; assumption.
    + rewrite Heq in Hrun. injection Hrun as <- <-.
      exists [EvGet url a], a. replace (S a - a)%nat with 1%nat by lia.
      split; [lia|]. split; [exact Htr|]. split; [lia|]. split; [reflexivity|].
      split; [reflexivity|]. split.
      { intros s [Hin|[]]. discriminate. }
      split; [cbn; lia|]. split; [exact Hd|]. split; [intros m Hm; lia|].
      split; [left; split; assumption|]. split; [exact Htrue|]. split; assumption.
Qed.

Local Abbreviation download := (_download_to_path uuid4_hex peer).
Local Abbreviation turns_of retries := (Z.to_nat (Z.max 0 retries)).

(** Every turn before [n] went on to the next turn. *)
Local Abbreviation went_on url retries n :=
  (forall m, (m < n)%nat ->
     caught_in_turn (peer url m) = true
     \/ server_error_continue m (turns_of retries) (peer url m) = true).

Lemma complete_not_retried (a retries : nat) (status : Z) (content : string) :
  (200 <= status < 300)%Z ->
  caught_in_turn (Response status (Complete content false)) = false
  /\ server_error_continue a retries (Response status (Complete content false)) = false.
Proof.
  intros Hst. cbn.
  replace ((status <? 200)%Z || (300 <=? status)%Z) with false by lia.
  split; reflexivity.
Qed.

(** The turn at which a run ends is the first one that does not go on. *)
Lemma download_ends_at (url dest : string) (retries : Z) (w : World)
    (r : result bool) (w' : World) (n : nat) :
  download url dest retries w = (r, w') ->
  (n <= turns_of retries)%nat ->
  went_on url retries n ->
  caught_in_turn (peer url n) = false ->
  server_error_continue n (turns_of retries) (peer url n) = false ->
  uuids w' = (uuids w + S n)%nat
  /\ (r <> Ok true -> files w' !! dest = files w !! dest)
  /\ (r = Ok true <->
      exists status content,
        peer url n = Response status (Complete content false)
        /\ (200 <= status < 300)%Z)
  /\ (forall status content,
        peer url n = Response status (Complete content false) ->
        (200 <= status < 300)%Z -> files w' !! dest = Some content)
  /\ (forall e, r = Raise e <-> e = CancelledError /\ exists p, peer url n = Cancel p).
Proof.
  unfold _download_to_path. rewrite Nat.add_1_r. intros Hrun Hn Hbefore Hc Hs.
  destruct (download_attempts_run (turns_of retries) 0 (turns_of retries) url dest
              w r w' ltac:(lia) Hrun)
    as (evs & n' & Hn' & _ & Hu & _ & _ & _ & _ & Hd & Hb' & Hend & Htrue & Hcont
        & Hraise).
  assert (n' = n) as ->.
  { destruct (Nat.lt_trichotomy n' n) as [Hlt|[Heq|Hgt]]; [|exact Heq|].
    - exfalso. destruct Hend as [[Hc' Hs']|(Hr & _)]; [|lia].
      destruct (Hbefore n' Hlt) as [H|H]; congruence.
    - exfalso. destruct (Hb' n ltac:(lia)) as [H|H]; congruence. }
  split; [lia|]. split; [exact Hd|]. split; [exact Htrue|]. split; assumption.
Qed.



(** X9: a download returns true exactly when some turn [n] within the
    turns allowed meets a 2xx response whose body is written and moved
    into place, every turn before it having gone on to the next; the
    destination then holds that body and [n + 1] UUIDs were drawn. *)
Theorem download_succeeds_at_first_complete_response (url dest : string)
    (retries : Z) (w : World) :
  let '(r, w') := download url dest retries w in
  (r = Ok true <->
   exists n status content,
     (n <= turns_of retries)%nat /\ went_on url retries n
     /\ peer url n = Response status (Complete content false)
     /\ (200 <= status < 300)%Z)
  /\ (forall n status content,
        (n <= turns_of retries)%nat -> went_on url retries n ->
        peer url n = Response status (Complete content false) ->
        (200 <= status < 300)%Z ->
        r = Ok true /\ files w' !! dest = Some content
        /\ uuids w' = (uuids w + S n)%nat).
Proof.
  destruct (download url dest retries w) as [r w'] eqn:Hrun.
  assert (Hsuff : forall n status content,
        (n <= turns_of retries)%nat -> went_on url retries n ->
        peer url n = Response status (Complete content false) ->
        (200 <= status < 300)%Z ->
        r = Ok true /\ files w' !! dest = Some content
        /\ uuids w' = (uuids w + S n)%nat).
  { intros n status content Hn Hbefore Hpeer Hst.
    destruct (complete_not_retried n (turns_of retries) status content Hst)
      as [Hc Hs]. rewrite <- Hpeer in Hc, Hs.
    destruct (download_ends_at url dest retries w r w' n Hrun Hn Hbefore Hc Hs)
      as (Hu & _ & Htrue & Hcont & _).
    split; [|split; [exact (Hcont status content Hpeer Hst) | exact Hu]].
    apply Htrue. exists status, content. split; assumption. }
  split; [|exact Hsuff]. split.
  - intros Hr. unfold _download_to_path in Hrun. rewrite Nat.add_1_r in Hrun.
    destruct (download_attempts_run (turns_of retries) 0 (turns_of retries) url dest
              w r w' ltac:(lia) Hrun)
      as (evs & n & Hn & _ & _ & _ & _ & _ & _ & _ & Hb & _ & Htrue & _).
    destruct (proj1 Htrue Hr) as (status & content & Hpeer & Hst).
    exists n, status, content. split; [lia|]. split; [|split; assumption].
    intros m Hm. apply Hb. lia.
  - intros (n & status & content & Hn & Hbefore & Hpeer & Hst).
    exact (proj1 (Hsuff n status content Hn Hbefore Hpeer Hst)).
Qed.


Lemma caught_not_continue (a retries : nat) (att : attempt) :
  caught_in_turn att = true -> server_error_continue a retries att = false.
Proof.
  destruct att as [f|status b|p]; cbn; try reflexivity.
  destruct ((status <? 200)%Z || (300 <=? status)%Z); [discriminate | reflexivity].
Qed.

Lemma caught_attempts (rem a retries : nat) (url dest : string) (w : World) :
  (rem + a = retries + 1)%nat ->
  (forall m, (a <= m <= retries)%nat -> caught_in_turn (peer url m) = true) ->
  exists w', attempts rem a retries url dest w = (Ok false, w')
    /\ trace w' = trace w ++ caught_trace url retries a rem
    /\ uuids w' = (uuids w + rem)%nat
    /\ files w' !! dest = files w !! dest.
Proof.
  revert a w. induction rem as [|rem IH]; intros a w Hsum Hall.
  - exists w. cbn. rewrite app_nil_r. repeat split. lia.
  - pose proof (Hall a ltac:(lia)) as Hc.
    destruct (download_step rem a retries url dest w)
      as [(w1 & pause & Heq & Htr & Hpause & Hu & Hd)
         |(r1 & w1 & _ & Hc' & _)]; [|congruence].
    assert (Hp : pause = pause_after a retries).
    { destruct Hpause as [[-> [Hse|[_ Hge]]]|[-> _]]; [| |reflexivity].
      - rewrite (caught_not_continue _ _ _ Hc) in Hse. discriminate.
      - unfold pause_after. destruct (Nat.ltb_spec a retries); [lia | reflexivity]. }
    subst pause.
    destruct (IH (S a) w1 ltac:(lia) ltac:(intros m Hm; apply Hall; lia))
      as (w' & Hrun & Htr' & Hu' & Hd').
    exists w'. rewrite Heq. split; [exact Hrun|]. split; [|split].
    + rewrite Htr', Htr. unfold caught_trace. cbn [seq map concat].
      rewrite <- !app_assoc. reflexivity.
    + lia.
    + rewrite Hd'. exact Hd.
Qed.

Lemma caught_trace_sleeps (url : string) (retries a rem : nat) :
  (rem + a = retries + 1)%nat ->
  List.filter is_sleep (caught_trace url retries a rem)
  = map (fun m => EvSleep ((2 # 10) * inject_Z (Z.of_nat m + 1))%Q) (seq a (rem - 1)).
Proof.
  revert a. induction rem as [|rem IH]; intros a Hsum; [reflexivity|].
  unfold caught_trace. cbn [seq map concat]. cbn [app List.filter is_sleep].
  rewrite List.filter_app. fold (caught_trace url retries (S a) rem).
  destruct rem as [|rem].
  - cbn. unfold pause_after. destruct (Nat.ltb_spec a retries); [lia | reflexivity].
  - rewrite (IH (S a)) by lia. unfold pause_after.
    destruct (Nat.ltb_spec a retries); [|lia].
    cbn [List.filter is_sleep app]. replace (S (S rem) - 1)%nat with (S (S rem - 1)) by lia.
    reflexivity.
Qed.

(** X11: when every turn ends in an [except] clause (the request raises,
    or writing or moving the body of a 2xx response raises), the download
    returns false after [max(0, retries) + 1] requests, each but the last
    followed by its pause: [max(0, retries)] pauses of 0.2, 0.4, ...
    seconds in that order. *)
Theorem download_gives_up_after_all_turns (url dest : string) (retries : Z)
    (w : World) :
  (forall m, (m <= turns_of retries)%nat -> caught_in_turn (peer url m) = true) ->
  exists w' evs,
    download url dest retries w = (Ok false, w')
    /\ trace w' = trace w ++ evs
    /\ evs = caught_trace url (turns_of retries) 0 (turns_of retries + 1)
    /\ List.filter is_get evs = map (EvGet url) (seq 0 (turns_of retries + 1))
    /\ List.filter is_sleep evs
       = map (fun m => EvSleep ((2 # 10) * inject_Z (Z.of_nat m + 1))%Q)
           (seq 0 (turns_of retries))
    /\ files w' !! dest = files w !! dest.
Proof.
  intros Hall. unfold _download_to_path.
  destruct (caught_attempts (turns_of retries + 1) 0 (turns_of retries) url dest w
              ltac:(lia) ltac:(intros m Hm; apply Hall; lia))
    as (w' & Hrun & Htr & Hu & Hd).
  exists w', (caught_trace url (turns_of retries) 0 (turns_of retries + 1)).
  split; [exact Hrun|]. split; [exact Htr|]. split; [reflexivity|].
  split; [|split; [|exact Hd]].
  - pose proof Hrun as Hrun'. rewrite Nat.add_1_r in Hrun'.
    destruct (download_attempts_run (turns_of retries) 0 (turns_of retries) url dest
                w _ w' ltac:(lia) Hrun')
      as (evs & n & Hn & Htr' & Hu' & Hget & _).
    rewrite Htr in Htr'. apply app_inv_head in Htr'. rewrite Htr'.
    assert (n = turns_of retries) as -> by lia.
    rewrite Hget. f_equal. f_equal. lia.
  - rewrite caught_trace_sleeps by lia. f_equal. f_equal. lia.
Qed.
End DownloadRuns.


Lemma download_gives_up_after_all_turns_witness :
  exists w' evs,
    _download_to_path Sample.uuid4_hex Sample.peer_down "http://h/a.png" "/c/a.png" 2
      Sample.empty_world = (Ok false, w')
    /\ trace w' = trace Sample.empty_world ++ evs
    /\ evs = [EvGet "http://h/a.png" 0; EvSleep ((2 # 10) * inject_Z (Z.of_nat 0 + 1))%Q;
              EvGet "http://h/a.png" 1; EvSleep ((2 # 10) * inject_Z (Z.of_nat 1 + 1))%Q;
              EvGet "http://h/a.png" 2].
Proof.
  destruct (download_gives_up_after_all_turns Sample.uuid4_hex Sample.peer_down
              "http://h/a.png" "/c/a.png" 2 Sample.empty_world)
    as (w' & evs & Hrun & Htr & Hevs & _).
  - intros m Hm. reflexivity.
  - exists w', evs. split; [exact Hrun|]. split; [exact Htr|]. exact Hevs.
Defined.

(** ** [get_background_image]: what a lookup returns, sends and creates *)

Section BackgroundLookup.
Variable uuid4_hex : nat -> string.
Variable peer : string -> nat -> attempt.
Variable sha256_hex : string -> string.
Variable url_suffix : string -> string.
Variables cache_dir tmp_dir : string.
Variables pre_cache_enabled cleanup_downloads : bool.

Local Abbreviation cache_path_for :=
  (_background_cache_path_for_url sha256_hex url_suffix cache_dir).
Local Abbreviation target :=
  (download_target uuid4_hex sha256_hex url_suffix cache_dir tmp_dir
     pre_cache_enabled cleanup_downloads).
Local Abbreviation try_urls :=
  (try_background_urls uuid4_hex peer sha256_hex url_suffix cache_dir tmp_dir
     pre_cache_enabled cleanup_downloads).
Local Abbreviation lookup_background :=
  (get_background_image uuid4_hex peer sha256_hex url_suffix cache_dir tmp_dir
     pre_cache_enabled cleanup_downloads).

(** Where a returned path lies: in the permanent cache under the digest of
    the candidate when the flag is false; in the temporary directory under
    a UUID drawn during the lookup when the flag is true, which needs
    pre-caching off and cleanup on. *)
Local Abbreviation placed w w' url path flag :=
  (if flag : bool
   then pre_cache_enabled = false /\ cleanup_downloads = true
        /\ exists n, (uuids w <= n < uuids w')%nat
             /\ path = tmp_dir +:+ "/" +:+ uuid4_hex n +:+ ext_for_url url_suffix url
   else path = cache_path_for url).

Lemma download_effect (url dest : string) (retries : Z) (w : World)
    (r : result bool) (w' : World) :
  _download_to_path uuid4_hex peer url dest retries w = (r, w') ->
  (uuids w <= uuids w')%nat
  /\ (forall p, p <> dest -> files w !! p = None -> files w' !! p = None)
  /\ (r = Ok true -> is_Some (files w' !! dest))
  /\ (r <> Ok true -> files w' !! dest = files w !! dest)
  /\ exists evs, trace w' = trace w ++ evs
       /\ (Z.of_nat (length (List.filter is_get evs)) <= Z.max 0 retries + 1)%Z.
Proof.
  unfold _download_to_path. intros Hrun.
  destruct (download_attempts_inv uuid4_hex peer (Z.to_nat (Z.max 0 retries) + 1) 0
              (Z.to_nat (Z.max 0 retries)) url dest w r w' ltac:(lia) Hrun)
    as (Hu & _ & Hnew & _ & Htrue & Hfalse & evs & Htr & Hget).
  split; [lia|]. split; [exact Hnew|]. split; [|split; [exact Hfalse|]].
  - intros Hr. destruct (Htrue Hr) as (n & st & c & _ & _ & Hc). eexists; exact Hc.
  - exists evs. split; [exact Htr|]. rewrite Hget. lia.
Qed.

Lemma target_effect (url : string) (w : World) (image_path : string) (flag : bool)
    (w1 : World) :
  target url w = (image_path, flag, w1) ->
  files w1 = files w /\ trace w1 = trace w
  /\ (if flag
      then pre_cache_enabled = false /\ cleanup_downloads = true
           /\ uuids w1 = S (uuids w)
           /\ image_path
              = tmp_dir +:+ "/" +:+ uuid4_hex (uuids w) +:+ ext_for_url url_suffix url
      else uuids w1 = uuids w /\ image_path = cache_path_for url).
Proof.
  unfold download_target.
  destruct pre_cache_enabled, cleanup_downloads; cbn; intros [= <- <- <-];
    repeat split; reflexivity.
Qed.

Lemma try_urls_effect (urls : list string) (w : World)
    (r : result (option (string * bool))) (w' : World) :
  try_urls urls w = (r, w') ->
  (uuids w <= uuids w')%nat
  /\ (forall p, files w !! p = None -> (forall flag, r <> Ok (Some (p, flag))) ->
        files w' !! p = None)
  /\ (forall path flag, r = Ok (Some (path, flag)) ->
        is_Some (files w' !! path)
        /\ exists url, In url urls /\ is_http url = true
                       /\ placed w w' url path flag)
  /\ exists evs, trace w' = trace w ++ evs
       /\ (length (List.filter is_get evs)
           <= 2 * length (List.filter is_http urls))%nat.
Proof.
  revert w. induction urls as [|url rest IH]; intros w; cbn [try_background_urls].
  { intros [= <- <-]. split; [lia|]. split; [intros p Hp _; exact Hp|].
    split; [discriminate|]. exists []. rewrite app_nil_r. split; [reflexivity | cbn; lia]. }
  cbn [List.filter]. destruct (is_http url) eqn:Hh; cbn [negb].
  2:{ intros Hrun. destruct (IH w Hrun) as (Hu & Hnew & Hres & evs & Htr & Hget).
      split; [exact Hu|]. split; [exact Hnew|]. split; [|exists evs; split; assumption].
      intros path flag Hr. destruct (Hres path flag Hr) as (Hsome & u & Hin & Hhu & Hpl).
      split; [exact Hsome|]. exists u. split; [right; exact Hin|]. split; assumption. }
  destruct (files w !! cache_path_for url) as [c|] eqn:Hc.
  { intros [= <- <-]. split; [lia|]. split; [intros p Hp _; exact Hp|]. split.
    - intros path flag [= <- <-]. split; [eexists; exact Hc|].
      exists url. split; [left; reflexivity|]. split; [exact Hh | reflexivity].
    - exists []. rewrite app_nil_r. split; [reflexivity | cbn; lia]. }
  destruct (target url w) as [[image_path flag] w1] eqn:Ht.
  destruct (target_effect url w image_path flag w1 Ht) as (Hf1 & Htr1 & Hflag).
  assert (Hu1 : (uuids w <= uuids w1)%nat).
  { destruct flag; [destruct Hflag as (_ & _ & -> & _) | destruct Hflag as [-> _]]; lia. }
  destruct (_download_to_path uuid4_hex peer url image_path 1 w1) as [rd w2] eqn:Hd.
  destruct (download_effect url image_path 1 w1 rd w2 Hd)
    as (Hu2 & Hnew2 & Htrue2 & Hfalse2 & evs2 & Htr2 & Hget2).
  assert (Hkeep : rd <> Ok true -> forall p, files w !! p = None -> files w2 !! p = None).
  { intros Hrd p Hp. destruct (decide (p = image_path)) as [->|Hne].
    - rewrite (Hfalse2 Hrd), Hf1. exact Hp.
    - apply Hnew2; [exact Hne|]. rewrite Hf1. exact Hp. }
  destruct rd as [[|]|e].
  - intros [= <- <-]. split; [lia|]. split; [|split].
    + intros p Hp Hnot. apply Hnew2; [|rewrite Hf1; exact Hp].
      intros ->. exact (Hnot flag eq_refl).
    + intros path fl [= <- <-]. split; [apply Htrue2; reflexivity|].
      exists url. split; [left; reflexivity|]. split; [exact Hh|].
      destruct flag.
      * destruct Hflag as (Hpre & Hcl & Hu & ->). split; [exact Hpre|].
        split; [exact Hcl|]. exists (uuids w). split; [lia | reflexivity].
      * destruct Hflag as [_ ->]. reflexivity.
    + exists evs2. rewrite Htr2, Htr1. split; [reflexivity|]. cbn [length]. lia.
  - intros Hrun. destruct (IH w2 Hrun) as (Hu & Hnew & Hres & evs & Htr & Hget).
    split; [lia|]. split; [|split].
    + intros p Hp Hnot. apply Hnew; [|exact Hnot]. apply Hkeep; [discriminate | exact Hp].
    + intros path fl Hr. destruct (Hres path fl Hr) as (Hsome & u & Hin & Hhu & Hpl).
      split; [exact Hsome|]. exists u. split; [right; exact Hin|]. split; [exact Hhu|].
      destruct fl; [|exact Hpl]. destruct Hpl as (Hpre & Hcl & n & Hn & Hpath).
      split; [exact Hpre|]. split; [exact Hcl|]. exists n. split; [lia | exact Hpath].
    + exists (evs2 ++ evs). rewrite Htr, Htr2, Htr1, <- app_assoc.
      split; [reflexivity|]. rewrite List.filter_app, length_app. cbn [length]. lia.
  - intros [= <- <-]. split; [lia|]. split; [|split].
    + intros p Hp _. apply Hkeep; [discriminate | exact Hp].
    + discriminate.
    + exists evs2. rewrite Htr2, Htr1. split; [reflexivity|]. cbn [length]. lia.
Qed.

Lemma filter_take_length {A : Type} (f : A -> bool) (n : nat) (l : list A) :
  (length (List.filter f (take n l)) <= n)%nat.
Proof.
  revert n. induction l as [|x l IH]; intros [|n]; cbn; try lia.
  destruct (f x); cbn; specialize (IH n); lia.
Qed.

Lemma In_take {A : Type} (x : A) (n : nat) (l : list A) : In x (take n l) -> In x l.
Proof.
  revert n. induction l as [|y l IH]; intros [|n]; cbn; try tauto.
  intros [H|H]; [left; exact H | right; exact (IH n H)].
Qed.

(** X12: a path returned by a lookup exists when the lookup returns, and it
    is the path of one of the first five candidates, an http(s) URL: with
    the flag false its file in the permanent cache; with the flag true a
    file in the temporary directory named by a UUID drawn during the
    lookup, which happens only with pre-caching off and cleanup on. *)
Theorem background_result_sound (background_urls : list string) (w : World)
    (path : string) (flag : bool) (w' : World) :
  lookup_background background_urls w = (Ok (Some (path, flag)), w') ->
  is_Some (files w' !! path)
  /\ exists url, In url (take 5 background_urls) /\ In url background_urls
                 /\ is_http url = true /\ placed w w' url path flag.
Proof.
  rewrite get_background_image_candidates. intros Hrun.
  destruct (try_urls_effect _ _ _ _ Hrun) as (_ & _ & Hres & _).
  destruct (Hres path flag eq_refl) as (Hsome & url & Hin & Hh & Hpl).
  split; [exact Hsome|]. exists url. split; [exact Hin|].
  split; [exact (In_take _ _ _ Hin)|]. split; assumption.
Qed.

(** X13: a lookup sends at most two requests for each http(s) URL among the
    first five candidates, so at most ten, whatever the peer does. *)
Theorem background_lookup_requests (background_urls : list string) (w : World) :
  let '(r, w') := lookup_background background_urls w in
  exists evs, trace w' = trace w ++ evs
    /\ (length (List.filter is_get evs)
        <= 2 * length (List.filter is_http (take 5 background_urls)))%nat
    /\ (length (List.filter is_get evs) <= 10)%nat.
Proof.
  destruct (lookup_background background_urls w) as [r w'] eqn:Hrun.
  rewrite get_background_image_candidates in Hrun.
  destruct (try_urls_effect _ _ _ _ Hrun) as (_ & _ & _ & evs & Htr & Hget).
  exists evs. split; [exact Htr|]. split; [exact Hget|].
  pose proof (filter_take_length is_http 5 background_urls). lia.
Qed.

(** X26: a background that a lookup returned with the flag false is served
    from the permanent cache afterwards: a later lookup whose first
    candidate is the same URL returns the same path, sends no request and
    changes nothing. *)
Theorem cached_background_is_reused (background_urls : list string) (w : World)
    (path : string) (w1 : World) :
  lookup_background background_urls w = (Ok (Some (path, false)), w1) ->
  exists url,
    In url (take 5 background_urls) /\ is_http url = true
    /\ path = cache_path_for url
    /\ forall rest,
         lookup_background (url :: rest) w1 = (Ok (Some (path, false)), w1).
Proof.
  rewrite get_background_image_candidates. intros Hrun.
  destruct (try_urls_effect _ _ _ _ Hrun) as (_ & _ & Hres & _).
  destruct (Hres path false eq_refl) as ([c Hc] & url & Hin & Hh & Hpl).
  cbn in Hpl. exists url. split; [exact Hin|]. split; [exact Hh|].
  split; [exact Hpl|]. intros rest.
  rewrite get_background_image_candidates.
  change (take 5 (url :: rest)) with (url :: take 4 rest).
  cbn [try_background_urls]. rewrite Hh. cbn [negb]. rewrite <- Hpl, Hc. reflexivity.
Qed.
End BackgroundLookup.

Lemma background_result_sound_witness :
  exists w',
    get_background_image Sample.uuid4_hex Sample.peer_503_then_200 Sample.sha256_hex
      Sample.url_suffix "/cache" "/tmp" false true ["ftp://h/x"; "http://h/a.png"]
      Sample.empty_world
    = (Ok (Some ("/tmp/a.png", true)), w')
    /\ is_Some (files w' !! "/tmp/a.png").
Proof.
  eexists. split; [reflexivity|].
  apply (background_result_sound Sample.uuid4_hex Sample.peer_503_then_200
           Sample.sha256_hex Sample.url_suffix "/cache" "/tmp" false true
           ["ftp://h/x"; "http://h/a.png"] Sample.empty_world "/tmp/a.png" true).
  reflexivity.
Defined.


Lemma cached_background_is_reused_witness :
  exists w1,
    get_background_image Sample.uuid4_hex Sample.peer_503_then_200 Sample.sha256_hex
      Sample.url_suffix "/cache" "/tmp" true true ["http://h/a.png"] Sample.empty_world
    = (Ok (Some ("/cache/dhttp://h/a.png.png", false)), w1)
    /\ exists url,
         In url (take 5 ["http://h/a.png"])
         /\ get_background_image Sample.uuid4_hex Sample.peer_503_then_200
              Sample.sha256_hex Sample.url_suffix "/cache" "/tmp" true true
              [url; "http://h/b.png"] w1
            = (Ok (Some ("/cache/dhttp://h/a.png.png", false)), w1).
Proof.
  eexists. split; [reflexivity|].
  destruct (cached_background_is_reused Sample.uuid4_hex Sample.peer_503_then_200
              Sample.sha256_hex Sample.url_suffix "/cache" "/tmp" true true
              ["http://h/a.png"] Sample.empty_world "/cache/dhttp://h/a.png.png" _
              eq_refl) as (url & Hin & _ & _ & Hnext).
  exists url. split; [exact Hin | exact (Hnext ["http://h/b.png"])].
Defined.

(** ** [get_avatar_img] *)

Section AvatarFacts.
Variable uuid4_hex : nat -> string.
Variable peer : string -> nat -> attempt.
Variable os_path_join : string -> string -> string.
Variable avatar_dir : string.
Variable avatar_cache_expiration : Q.

Local Abbreviation path_of := (avatar_path_for os_path_join avatar_dir).
Local Abbreviation fresh := (avatar_is_fresh avatar_cache_expiration).
Local Abbreviation get_avatar :=
  (get_avatar_img uuid4_hex peer os_path_join avatar_dir avatar_cache_expiration).
Local Abbreviation fetch_avatar :=
  (download_avatar uuid4_hex peer os_path_join avatar_dir).

Lemma download_avatar_effect (user_id : string) (w : World)
    (r : result (option string)) (w' : World) :
  fetch_avatar user_id w = (r, w') ->
  (forall p, r = Ok (Some p) -> p = path_of user_id /\ is_Some (files w' !! p))
  /\ (r <> Ok (Some (path_of user_id)) ->
      files w' !! path_of user_id = files w !! path_of user_id)
  /\ (forall e, r = Raise e -> e = CancelledError)
  /\ exists evs n, trace w' = trace w ++ evs
       /\ List.filter is_get evs = map (EvGet (avatar_url user_id)) (seq 0 (S n))
       /\ (n <= 1)%nat.
Proof.
  unfold download_avatar.
  destruct (_download_to_path uuid4_hex peer (avatar_url user_id) (path_of user_id) 1 w)
    as [rd w2] eqn:Hd.
  pose proof Hd as Hrun. unfold _download_to_path in Hrun.
  change (Z.to_nat (Z.max 0 1)) with 1%nat in Hrun.
  destruct (download_attempts_run uuid4_hex peer 1 0 1 _ _ w rd w2 eq_refl Hrun)
    as (evs & n & Hn & Htr & _ & Hget & _ & _ & _ & _ & _ & _ & _ & _ & Hraise).
  destruct (download_effect uuid4_hex peer _ _ _ _ _ _ Hd)
    as (_ & _ & Htrue & Hfalse & _).
  assert (Hreqs : exists evs n, trace w2 = trace w ++ evs
       /\ List.filter is_get evs = map (EvGet (avatar_url user_id)) (seq 0 (S n))
       /\ (n <= 1)%nat).
  { exists evs, n. rewrite Nat.sub_0_r in Hget.
    split; [exact Htr|]. split; [exact Hget | lia]. }
  destruct rd as [[|]|e]; intros [= <- <-].
  - split; [|split; [|split; [discriminate | exact Hreqs]]].
    + intros p [= <-]. split; [reflexivity | apply Htrue; reflexivity].
    + intros Hr. congruence.
  - split; [discriminate|]. split; [|split; [discriminate | exact Hreqs]].
    intros _. apply Hfalse. discriminate.
  - split; [discriminate|]. split; [|split; [|exact Hreqs]].
    + intros _. apply Hfalse. discriminate.
    + intros e' [= <-]. exact (proj1 (proj1 (Hraise e) eq_refl)).
Qed.


(** X16: [get_avatar_img] sends no request exactly when the avatar file is
    there and either is younger than the expiration time or can no longer
    be examined; in that case nothing at all changes, and in the second of
    these cases the answer is null although the download was never
    tried. *)
Theorem avatar_request_iff_missing_or_stale (user_id : string) (now : Q)
    (st_mtime : option Q) (w : World) :
  let '(r, w') := get_avatar user_id now st_mtime w in
  (trace w' = trace w <->
   is_Some (files w !! path_of user_id)
   /\ (st_mtime = None \/ exists m, st_mtime = Some m /\ fresh now m = true))
  /\ (trace w' = trace w ->
      w' = w
      /\ r = Ok (match st_mtime with
                 | Some _ => Some (path_of user_id)
                 | None => None
                 end)).
Proof.
  destruct (get_avatar user_id now st_mtime w) as [r w'] eqn:Hrun.
  assert (Hdl : fetch_avatar user_id w = (r, w') -> trace w' <> trace w).
  { intros Hf Heq. destruct (download_avatar_effect user_id w r w' Hf)
      as (_ & _ & _ & evs & n & Htr & Hget & _).
    rewrite Heq in Htr. rewrite <- (app_nil_r (trace w)) in Htr at 1.
    apply app_inv_head in Htr. subst evs. discriminate. }
  unfold get_avatar_img in Hrun.
  destruct (files w !! path_of user_id) as [c|] eqn:Hc.
  - destruct st_mtime as [m|].
    + destruct (fresh now m) eqn:Hf.
      * injection Hrun as <- <-. split; [|intros _; split; reflexivity].
        split; [|reflexivity]. intros _. split; [eexists; reflexivity|].
        right. exists m. split; [reflexivity | exact Hf].
      * split; [|intros Heq; destruct (Hdl Hrun Heq)].
        split; [intros Heq; destruct (Hdl Hrun Heq)|].
        intros [_ [Hn|(m' & [= <-] & Hf')]]; [discriminate | congruence].
    + injection Hrun as <- <-. split; [|intros _; split; reflexivity].
      split; [|reflexivity]. intros _. split; [eexists; reflexivity|].
      left. reflexivity.
  - split; [|intros Heq; destruct (Hdl Hrun Heq)].
    split; [intros Heq; destruct (Hdl Hrun Heq)|].
    intros [[c Hsome] _]. discriminate.
Qed.
End AvatarFacts.

(** ** [_migrate_legacy_cache_dir]: counters and what survives faults *)

Section MigrationRuns.
Variable fault_of : string -> faults.

Local Abbreviation step := (migrate_item fault_of).
Local Abbreviation run := (migrate_items fault_of).
Local Abbreviation migrate := (_migrate_legacy_cache_dir fault_of).

Local Ltac split_item :=
  repeat match goal with
    | |- context [match ?x with _ => _ end] => destruct x eqn:?
    end;
  cbn.

Lemma migrate_item_counts (name : string) (s : State) :
  (moved (step name s) + skipped (step name s) + failed (step name s)
   = moved s + skipped s + failed s + (if is_file (legacy_dir s) name then 1 else 0))%nat
  /\ (replaced s <= replaced (step name s))%nat
  /\ (replaced (step name s) + moved s + failed s
      <= replaced s + moved (step name s) + failed (step name s))%nat.
Proof.
  unfold migrate_item, move_item, is_file. split_item; lia.
Qed.

Lemma is_file_frame (name other : string) (s : State) :
  other <> name ->
  is_file (legacy_dir (step other s)) name = is_file (legacy_dir s) name.
Proof.
  intros Hne. unfold is_file.
  rewrite (proj1 (migrate_item_frame fault_of name other s Hne)). reflexivity.
Qed.

Lemma migrate_items_counts (items : list string) (s : State) :
  NoDup items ->
  (moved (run items s) + skipped (run items s) + failed (run items s)
   = moved s + skipped s + failed s
     + length (List.filter (is_file (legacy_dir s)) items))%nat
  /\ (replaced s <= replaced (run items s))%nat
  /\ (replaced (run items s) + moved s + failed s
      <= replaced s + moved (run items s) + failed (run items s))%nat.
Proof.
  revert s. induction items as [|x items IH]; intros s Hnd.
  { cbn. lia. }
  apply NoDup_cons in Hnd as [Hx Hnd].
  change (run (x :: items) s) with (run items (step x s)).
  destruct (IH (step x s) Hnd) as (Hsum & Hrep & Hle).
  destruct (migrate_item_counts x s) as (Hsum1 & Hrep1 & Hle1).
  assert (Hf : List.filter (is_file (legacy_dir (step x s))) items
               = List.filter (is_file (legacy_dir s)) items).
  { apply List.filter_ext_in. intros name Hin. apply is_file_frame.
    intros ->. apply Hx. apply list_elem_of_In. exact Hin. }
  rewrite Hf in Hsum. cbn [List.filter].
  destruct (is_file (legacy_dir s) x); cbn [length]; lia.
Qed.

(** X17: however the operations fail, a migration over a listing without
    repetition counts every regular file of the legacy directory exactly
    once, as moved, skipped or failed; it counts nothing else; a file
    counted as replaced is also counted as moved or failed; and there is one
    warning for each failure. *)
Theorem migration_counts (legacy : gmap string node) (target : gmap string file)
    (items : list string) (rmdir_raises : bool) :
  NoDup items ->
  exists o,
    migrate (Some legacy) false rmdir_raises items target = Some o
    /\ (moved (final o) + skipped (final o) + failed (final o)
        = length (List.filter (is_file legacy) items))%nat
    /\ (replaced (final o) <= moved (final o) + failed (final o))%nat
    /\ failed (final o) = length (warnings (final o)).
Proof.
  intros Hnd. eexists. split; [reflexivity|]. cbn [final].
  destruct (migrate_items_counts items (initial legacy target) Hnd)
    as (Hsum & _ & Hle).
  cbn in Hsum, Hle. split; [exact Hsum|]. split; [lia|].
  apply migrate_items_logged. reflexivity.
Qed.

(** One turn keeps the newest copy when the modification times can be
    read, and never makes the file in the target older. *)
Lemma migrate_item_keeps_newest (name other : string) (f : file) (s : State) :
  (other = name -> stat_raises (fault_of name) = false) ->
  (legacy_dir s !! name = Some (Regular f)
   \/ exists d, target_dir s !! name = Some d /\ (mtime f <= mtime d)%Z) ->
  legacy_dir (step other s) !! name = Some (Regular f)
  \/ exists d, target_dir (step other s) !! name = Some d /\ (mtime f <= mtime d)%Z.
Proof.
  intros Hstat H. destruct (decide (other = name)) as [->|Hne].
  2:{ destruct (migrate_item_frame fault_of name other s Hne) as [-> ->]. exact H. }
  specialize (Hstat eq_refl).
  unfold migrate_item, move_item. rewrite Hstat. cbn [orb].
  destruct H as [Hl|(d & Hd & Hle)].
  - rewrite Hl. split_item;
      rewrite ?lookup_insert_eq, ?lookup_delete_eq.
    all: try (left; assumption).
    all: right; eexists; split; [first [eassumption | reflexivity]|]; lia.
  - right. rewrite Hd. split_item; rewrite ?lookup_insert_eq.
    all: try (exists d; split; [assumption | lia]).
    all: eexists; split; [reflexivity|]; lia.
Qed.

Lemma migrate_item_target_grows (name other : string) (d0 : file) (s : State) :
  (exists d, target_dir s !! name = Some d /\ (mtime d0 <= mtime d)%Z) ->
  exists d, target_dir (step other s) !! name = Some d /\ (mtime d0 <= mtime d)%Z.
Proof.
  intros (d & Hd & Hle). destruct (decide (other = name)) as [->|Hne].
  2:{ destruct (migrate_item_frame fault_of name other s Hne) as [_ ->].
      exists d. split; assumption. }
  unfold migrate_item, move_item. rewrite Hd. split_item; rewrite ?lookup_insert_eq.
  all: try (exists d; split; [assumption | lia]).
  all: eexists; split; [reflexivity|]; lia.
Qed.

Lemma migrate_items_keeps_newest (name : string) (f : file) (items : list string)
    (s : State) :
  stat_raises (fault_of name) = false ->
  (legacy_dir s !! name = Some (Regular f)
   \/ exists d, target_dir s !! name = Some d /\ (mtime f <= mtime d)%Z) ->
  legacy_dir (run items s) !! name = Some (Regular f)
  \/ exists d, target_dir (run items s) !! name = Some d /\ (mtime f <= mtime d)%Z.
Proof.
  intros Hstat. revert s. induction items as [|x items IH]; intros s H; [exact H|].
  change (run (x :: items) s) with (run items (step x s)).
  apply IH. apply migrate_item_keeps_newest; [intros _; exact Hstat | exact H].
Qed.

Lemma migrate_items_target_grows (name : string) (d0 : file) (items : list string)
    (s : State) :
  (exists d, target_dir s !! name = Some d /\ (mtime d0 <= mtime d)%Z) ->
  exists d, target_dir (run items s) !! name = Some d /\ (mtime d0 <= mtime d)%Z.
Proof.
  revert s. induction items as [|x items IH]; intros s H; [exact H|].
  change (run (x :: items) s) with (run items (step x s)).
  apply IH. apply migrate_item_target_grows. exact H.
Qed.

(** X18: whatever listing is walked and however renaming, copying and
    removing fail, a regular legacy file whose modification times can be
    read is not lost: afterwards it is still in the legacy directory, or the
    target holds a file of that name at least as recent.  And whatever
    fails, a file of the target is never replaced by an older one nor
    removed. *)
Theorem migration_keeps_newest (legacy : gmap string node) (target : gmap string file)
    (items : list string) (rmdir_raises : bool) (name : string) :
  exists o,
    migrate (Some legacy) false rmdir_raises items target = Some o
    /\ (forall f, legacy !! name = Some (Regular f) ->
          stat_raises (fault_of name) = false ->
          legacy_dir (final o) !! name = Some (Regular f)
          \/ exists d, target_dir (final o) !! name = Some d
                       /\ (mtime f <= mtime d)%Z)
    /\ (forall d0, target !! name = Some d0 ->
          exists d, target_dir (final o) !! name = Some d
                    /\ (mtime d0 <= mtime d)%Z).
Proof.
  eexists. split; [reflexivity|]. cbn [final]. split.
  - intros f Hf Hstat. apply migrate_items_keeps_newest; [exact Hstat|].
    left. exact Hf.
  - intros d0 Hd0. apply migrate_items_target_grows.
    exists d0. split; [exact Hd0 | lia].
Qed.

Lemma migrate_items_absent (name : string) (items : list string) (s : State) :
  legacy_dir s !! name = None -> legacy_dir (run items s) !! name = None.
Proof.
  revert s. induction items as [|x items IH]; intros s H; [exact H|].
  change (run (x :: items) s) with (run items (step x s)).
  apply IH. destruct (decide (x = name)) as [->|Hne].
  - unfold migrate_item. rewrite H. exact H.
  - rewrite (proj1 (migrate_item_frame fault_of name x s Hne)). exact H.
Qed.

Lemma migrate_items_no_failure (items : list string) (s : State) :
  (forall name, fault_of name = no_faults) ->
  failed (run items s) = failed s.
Proof.
  intros Hnf. revert s. induction items as [|x items IH]; intros s; [reflexivity|].
  change (run (x :: items) s) with (run items (step x s)). rewrite IH.
  unfold migrate_item, move_item. generalize (Hnf x). generalize (fault_of x).
  intros ft Hft. subst ft. cbn. split_item; reflexivity.
Qed.

(** X19: when no operation fails, a migration over a listing of the legacy
    directory leaves in it exactly what is no regular file, and removes the
    directory exactly when nothing of that kind is in it; every regular
    file is then counted as moved or skipped and none as failed. *)
Theorem migration_without_faults (legacy : gmap string node)
    (target : gmap string file) (items : list string) :
  (forall name, fault_of name = no_faults) ->
  lists_directory items legacy ->
  exists o,
    migrate (Some legacy) false false items target = Some o
    /\ (forall name, legacy_dir (final o) !! name
                     = match legacy !! name with
                       | Some Other => Some Other
                       | _ => None
                       end)
    /\ (legacy_after o = None <-> forall name, legacy !! name <> Some Other)
    /\ failed (final o) = 0%nat
    /\ (moved (final o) + skipped (final o)
        = length (List.filter (is_file legacy) items))%nat.
Proof.
  intros Hnf [Hnd Hlist]. eexists. split; [reflexivity|]. cbn [final legacy_after].
  set (s := run items (initial legacy target)).
  assert (Hleft : forall name, legacy_dir s !! name
                     = match legacy !! name with
                       | Some Other => Some Other
                       | _ => None
                       end).
  { intros name. destruct (legacy !! name) as [[f|]|] eqn:Hl.
    - apply (migrate_items_no_fault fault_of name f items (initial legacy target));
        [exact Hnd | apply Hlist; eexists; exact Hl | apply Hnf | exact Hl].
    - apply migrate_items_other. exact Hl.
    - apply migrate_items_absent. exact Hl. }
  assert (Hfailed : failed s = 0%nat).
  { subst s. rewrite (migrate_items_no_failure items _ Hnf). reflexivity. }
  split; [exact Hleft|]. split; [|split; [exact Hfailed|]].
  - rewrite andb_true_r. split.
    + intros Hnone name Hl.
      destruct (bool_decide (legacy_dir s = ∅)) eqn:He; [|discriminate].
      apply bool_decide_eq_true in He. pose proof (Hleft name) as Hn.
      rewrite He, Hl, lookup_empty in Hn. discriminate.
    + intros Hno. rewrite bool_decide_eq_true_2; [reflexivity|].
      apply map_eq. intros name. rewrite Hleft, lookup_empty.
      destruct (legacy !! name) as [[f|]|] eqn:Hl; try reflexivity.
      destruct (Hno name Hl).
  - destruct (migrate_items_counts items (initial legacy target) Hnd) as (Hsum & _).
    fold s in Hsum. cbn in Hsum. lia.
Qed.
End MigrationRuns.

Lemma migration_counts_witness :
  NoDup Sample.items
  /\ exists o,
      _migrate_legacy_cache_dir Sample.fault_of (Some Sample.legacy) false false
        Sample.items Sample.target = Some o
      /\ (moved (final o), skipped (final o), replaced (final o), failed (final o))
         = (2%nat, 1%nat, 1%nat, 1%nat)
      /\ length (List.filter (is_file Sample.legacy) Sample.items) = 4%nat.
Proof.
  assert (Hnd : NoDup Sample.items) by by_decision.
  split; [exact Hnd|].
  destruct (migration_counts Sample.fault_of Sample.legacy Sample.target
              Sample.items false Hnd) as (o & Ho & _).
  exists o. split; [exact Ho|].
  injection Ho as <-. split; vm_compute; reflexivity.
Defined.

Lemma migration_without_faults_witness :
  (forall name : string, (fun _ => no_faults) name = no_faults)
  /\ lists_directory Sample.items Sample.legacy
  /\ exists o,
      _migrate_legacy_cache_dir (fun _ => no_faults) (Some Sample.legacy) false false
        Sample.items Sample.target = Some o
      /\ legacy_dir (final o) !! "sub" = Some Other
      /\ legacy_dir (final o) !! "x.jpg" = None.
Proof.
  split; [reflexivity|]. split; [exact sample_items_list_legacy|].
  destruct (migration_without_faults (fun _ => no_faults) Sample.legacy Sample.target
              Sample.items (fun _ => eq_refl) sample_items_list_legacy)
    as (o & Ho & Hleft & _).
  exists o. split; [exact Ho|]. split.
  - rewrite (Hleft "sub"). vm_compute. reflexivity.
  - rewrite (Hleft "x.jpg"). vm_compute. reflexivity.
Defined.

(** ** [JrysPlugin.jrys] and [jrys_last_command_handler]: files and records *)

Section JrysRuns.
Variable generate_image_sync : string -> option string -> string -> rendered.

Local Abbreviation run_jrys := (jrys generate_image_sync).
Local Abbreviation render := (render_and_record generate_image_sync).

Lemma elem_of_cleanup (p : string) (flag : bool) (path : string) (d : gset string) :
  p ∈ cleanup flag path d <-> p ∈ d /\ ~ (flag = true /\ path <> "" /\ p = path).
Proof.
  unfold cleanup. destruct flag; cbn [andb].
  2:{ split; [intros H; split; [exact H | intros [? _]; discriminate] | tauto]. }
  destruct (String.eqb_spec path "") as [->|Hne]; cbn [negb andb].
  { split; [intros H; split; [exact H | intros (_ & H0 & _); congruence] | tauto]. }
  destruct (bool_decide_reflect (path ∈ d)) as [Hin|Hout].
  - rewrite elem_of_difference, elem_of_singleton. split.
    + intros [Hp Hpp]. split; [exact Hp | intros (_ & _ & ->); congruence].
    + intros [Hp Hn]. split; [exact Hp | intros ->; apply Hn; auto].
  - split; [|tauto]. intros Hp. split; [exact Hp|]. intros (_ & _ & ->). contradiction.
Qed.

(** The shape of a run that got a background. *)
Lemma render_cases (user_id : string) (avatar_path : option string)
    (background_path : string) (flag : bool) (d : gset string)
    (last : gmap string Painter.LastImage) :
  (exists t,
      generate_image_sync user_id avatar_path background_path = Rendered t
      /\ replies (render user_id avatar_path background_path flag d last)
         = [ImageResult t]
      /\ last_images (render user_id avatar_path background_path flag d last)
         = <[user_id := {| Painter.path := background_path;
                           Painter.should_cleanup := flag |}]> last
      /\ forall p,
           p ∈ disk (render user_id avatar_path background_path flag d last)
           <-> (p ∈ d \/ p = t)
               /\ ~ (t <> "" /\ p = t)
               /\ ~ (exists old, last !! user_id = Some old
                       /\ Painter.should_cleanup old = true
                       /\ Painter.path old <> "" /\ Painter.path old <> background_path
                       /\ p = Painter.path old))
  \/ (replies (render user_id avatar_path background_path flag d last)
      = [PlainResult RenderFailed]
      /\ last_images (render user_id avatar_path background_path flag d last) = last
      /\ disk (render user_id avatar_path background_path flag d last)
         = cleanup flag background_path d).
Proof.
  unfold render_and_record.
  destruct (generate_image_sync user_id avatar_path background_path) as [t| |];
    [left | right; repeat split | right; repeat split].
  exists t. split; [reflexivity|]. split; [reflexivity|]. split; [reflexivity|].
  intros p. cbn [disk]. rewrite elem_of_cleanup.
  destruct (last !! user_id) as [old|] eqn:Hold.
  - destruct (String.eqb_spec (Painter.path old) background_path) as [Heq|Hne];
      cbn [negb].
    + rewrite elem_of_union, elem_of_singleton. split.
      * intros [Hp Hn]. split; [exact Hp|]. split; [tauto|].
        intros (old' & [= <-] & _ & _ & Hd & _). contradiction.
      * intros (Hp & Hn & _). split; [exact Hp | tauto].
    + rewrite elem_of_cleanup, elem_of_union, elem_of_singleton. split.
      * intros [[Hp Hno] Hn]. split; [exact Hp|]. split; [tauto|].
        intros (old' & [= <-] & Hc & Hne' & _ & Hpp). apply Hno. auto.
      * intros (Hp & Hn & Hno). split; [split; [exact Hp|] | tauto].
        intros (Hc & Hne' & Hpp). apply Hno. exists old. auto.
  - rewrite elem_of_union, elem_of_singleton. split.
    + intros [Hp Hn]. split; [exact Hp|]. split; [tauto|].
      intros (old' & Ho & _). discriminate.
    + intros (Hp & Hn & _). split; [exact Hp | tauto].
Qed.

(** A run that replies with an image called the renderer on the background
    it was given. *)
Lemma image_reply_cases (user_id : string) (avatar : fetched string)
    (background : fetched (string * bool)) (d : gset string)
    (last : gmap string Painter.LastImage) (t : string) :
  replies (run_jrys user_id avatar background d last) = [ImageResult t] ->
  exists background_path flag avatar_path,
    background = Value (background_path, flag)
    /\ run_jrys user_id avatar background d last
       = render user_id avatar_path background_path flag d last
    /\ generate_image_sync user_id avatar_path background_path = Rendered t.
Proof.
  unfold jrys. destruct background as [[background_path flag]| |]; try discriminate.
  destruct avatar as [a| |]; try discriminate; intros Hr.
  - exists background_path, flag, (Some a). split; [reflexivity|]. split; [reflexivity|].
    unfold render_and_record in Hr.
    destruct (generate_image_sync user_id (Some a) background_path); try discriminate.
    injection Hr as <-. reflexivity.
  - exists background_path, flag, None. split; [reflexivity|]. split; [reflexivity|].
    unfold render_and_record in Hr.
    destruct (generate_image_sync user_id None background_path); try discriminate.
    injection Hr as <-. reflexivity.
Qed.

(** X20: after a request answered with an image, [jrys_last] for the same
    user answers with the background that was used, provided that
    background was on disk under a non-empty name other than the one the
    renderer wrote to; the records of the other users are untouched. *)
Theorem last_image_after_jrys (user_id : string) (avatar : fetched string)
    (background_path : string) (flag : bool) (d : gset string)
    (last : gmap string Painter.LastImage) (t : string) :
  replies (run_jrys user_id avatar (Value (background_path, flag)) d last)
  = [ImageResult t] ->
  background_path <> "" -> background_path ∈ d -> t <> background_path ->
  jrys_last_command_handler user_id
    (disk (run_jrys user_id avatar (Value (background_path, flag)) d last))
    (last_images (run_jrys user_id avatar (Value (background_path, flag)) d last))
  = OriginalImage background_path
  /\ forall other, other <> user_id ->
       last_images (run_jrys user_id avatar (Value (background_path, flag)) d last)
         !! other = last !! other.
Proof.
  intros Hr Hne Hin Ht.
  destruct (image_reply_cases _ _ _ _ _ _ Hr)
    as (bp & fl & ap & Hv & -> & Hgen).
  injection Hv as <- <-.
  destruct (render_cases user_id ap background_path flag d last)
    as [(t' & Hgen' & _ & Hlast & Hdisk)|(Hrep & _)].
  2:{ unfold render_and_record in Hrep. rewrite Hgen in Hrep. discriminate. }
  rewrite Hgen in Hgen'. injection Hgen' as <-.
  rewrite Hlast. split.
  - unfold jrys_last_command_handler. rewrite lookup_insert_eq. cbn [Painter.path].
    destruct (String.eqb_spec background_path "") as [|_]; [contradiction|].
    rewrite bool_decide_eq_true_2; [reflexivity|].
    apply Hdisk. split; [left; exact Hin|]. split.
    + intros [_ Heq]. congruence.
    + intros (old & _ & _ & _ & Hd & Heq). congruence.
  - intros other Ho. apply lookup_insert_ne. congruence.
Qed.

(** X21: a request never leaves a new file behind, and it removes nothing
    but these: the file at the name the renderer wrote to; the background
    it was given, when that is marked for cleanup and the request fails;
    and, when the request is answered with an image, the previous
    background of the user, when that is marked for cleanup and is not the
    one used now. *)
Theorem jrys_disk_effect (user_id : string) (avatar : fetched string)
    (background : fetched (string * bool)) (d : gset string)
    (last : gmap string Painter.LastImage) (p : string) :
  (p ∈ disk (run_jrys user_id avatar background d last) -> p <> "" -> p ∈ d)
  /\ (p ∈ d -> p ∉ disk (run_jrys user_id avatar background d last) ->
      (replies (run_jrys user_id avatar background d last) = [ImageResult p])
      \/ (background = Value (p, true)
          /\ failure_result (run_jrys user_id avatar background d last))
      \/ (exists old t,
            last !! user_id = Some old /\ Painter.should_cleanup old = true
            /\ p = Painter.path old
            /\ replies (run_jrys user_id avatar background d last) = [ImageResult t]
            /\ forall flag, background <> Value (p, flag))).
Proof.
  assert (Hfail : forall bp fl r,
            disk r = cleanup fl bp d ->
            (exists m, replies r = [PlainResult m]) ->
            background = Value (bp, fl) ->
            (p ∈ disk r -> p <> "" -> p ∈ d)
            /\ (p ∈ d -> p ∉ disk r ->
                (replies r = [ImageResult p])
                \/ (background = Value (p, true) /\ failure_result r)
                \/ (exists old t,
                      last !! user_id = Some old /\ Painter.should_cleanup old = true
                      /\ p = Painter.path old
                      /\ replies r = [ImageResult t]
                      /\ forall flag, background <> Value (p, flag)))).
  { intros bp fl r Hd Hm Hb. rewrite Hd. split.
    - intros Hp _. apply elem_of_cleanup in Hp. tauto.
    - intros Hp Hout. right. left. rewrite elem_of_cleanup in Hout.
      destruct fl.
      + destruct (decide (p = bp)) as [->|Hne].
        * split; [exact Hb | exact Hm].
        * exfalso. apply Hout. split; [exact Hp|]. intros (_ & _ & Heq). contradiction.
      + exfalso. apply Hout. split; [exact Hp|]. intros [? _]. discriminate. }
  assert (Hrender : forall ap bp fl,
            background = Value (bp, fl) ->
            (p ∈ disk (render user_id ap bp fl d last) -> p <> "" -> p ∈ d)
            /\ (p ∈ d -> p ∉ disk (render user_id ap bp fl d last) ->
                (replies (render user_id ap bp fl d last) = [ImageResult p])
                \/ (background = Value (p, true)
                    /\ failure_result (render user_id ap bp fl d last))
                \/ (exists old t,
                      last !! user_id = Some old /\ Painter.should_cleanup old = true
                      /\ p = Painter.path old
                      /\ replies (render user_id ap bp fl d last) = [ImageResult t]
                      /\ forall flag, background <> Value (p, flag)))).
  { intros ap bp fl Hb.
    destruct (render_cases user_id ap bp fl d last)
      as [(t & _ & Hrep & _ & Hdisk)|(Hrep & _ & Hdisk)].
    2:{ apply (Hfail bp fl _ Hdisk); [eexists; exact Hrep | exact Hb]. }
    split.
    - intros Hp Hne. apply Hdisk in Hp as ([Hp|Hp] & Hn & _); [exact Hp|].
      exfalso. apply Hn. split; [congruence | exact Hp].
    - intros Hp Hout. rewrite Hdisk in Hout.
      destruct (decide (p = t)) as [->|Hpt]; [left; exact Hrep|].
      right. right.
      destruct (last !! user_id) as [old|] eqn:Hold.
      + destruct (decide (Painter.should_cleanup old = true
                          /\ Painter.path old <> "" /\ Painter.path old <> bp
                          /\ p = Painter.path old)) as [(Hc & Hn0 & Hnb & Hpp)|Hno].
        * exists old, t. split; [reflexivity|]. split; [exact Hc|].
          split; [exact Hpp|]. split; [exact Hrep|].
          intros flag Hv. rewrite Hb in Hv. injection Hv as -> _. congruence.
        * exfalso. apply Hout. split; [left; exact Hp|]. split; [tauto|].
          intros (old' & [= <-] & H). apply Hno. exact H.
      + exfalso. apply Hout. split; [left; exact Hp|]. split; [tauto|].
        intros (old' & Ho & _). discriminate. }
  unfold jrys. destruct background as [[bp fl]| |].
  - destruct avatar as [a| |].
    + exact (Hrender (Some a) bp fl eq_refl).
    + exact (Hrender None bp fl eq_refl).
    + apply (Hfail bp fl); [reflexivity | eexists; reflexivity | reflexivity].
  - cbn [disk]. split; [tauto | intros Hp Hn; contradiction].
  - cbn [disk]. split; [tauto | intros Hp Hn; contradiction].
Qed.


End JrysRuns.

Lemma last_image_after_jrys_witness :
  jrys_last_command_handler "u1"
    (disk (jrys Sample.generate_image_sync "u1" IsNone (Value ("/tmp/bg.png", true))
             {[ "/tmp/bg.png" ]} ∅))
    (last_images (jrys Sample.generate_image_sync "u1" IsNone
                    (Value ("/tmp/bg.png", true)) {[ "/tmp/bg.png" ]} ∅))
  = OriginalImage "/tmp/bg.png".
Proof.
  apply (last_image_after_jrys Sample.generate_image_sync "u1" IsNone "/tmp/bg.png"
           true {[ "/tmp/bg.png" ]} ∅ "/tmp/out.jpg").
  - reflexivity.
  - discriminate.
  - apply elem_of_singleton. reflexivity.
  - discriminate.
Defined.



(** ** Recording the last image does not disturb the draw *)

Lemma get_set_member (user_id : string) (info : LastImage)
    (members : list (string * LastImage)) :
  get_member user_id (set_member user_id info members) = Some info
  /\ forall other, other <> user_id ->
       get_member other (set_member user_id info members) = get_member other members.
Proof.
  induction members as [|[k v] rest [IH1 IH2]]; cbn.
  - rewrite String.eqb_refl. split; [reflexivity|].
    intros other Ho. destruct (String.eqb_spec other user_id); [contradiction | reflexivity].
  - destruct (String.eqb_spec user_id k) as [->|Hne]; cbn.
    + rewrite String.eqb_refl. split; [reflexivity|].
      intros other Ho. destruct (String.eqb_spec other k); [contradiction | reflexivity].
    + destruct (String.eqb_spec user_id k); [contradiction|]. split; [exact IH1|].
      intros other Ho. destruct (String.eqb_spec other k); [reflexivity | exact (IH2 other Ho)].
Qed.

Lemma lookup_key_cons (k0 k : string) (v : JValue) (rest : Table) :
  lookup_key k0 ((k, v) :: rest)
  = if String.eqb k0 k then Some v else lookup_key k0 rest.
Proof. reflexivity. Qed.

Lemma record_last_image_effect (user_id : string) (info : LastImage) (t t' : Table) :
  record_last_image user_id info t = Some t' ->
  valid_keys_list t' = valid_keys_list t
  /\ t' <> []
  /\ (forall k, k <> "_user_last_images" -> lookup_key k t' = lookup_key k t)
  /\ exists members,
       lookup_key "_user_last_images" t' = Some (JDict members)
       /\ get_member user_id members = Some info
       /\ forall other, other <> user_id ->
            get_member other members
            = match lookup_key "_user_last_images" t with
              | Some (JDict old) => get_member other old
              | _ => None
              end.
Proof.
  revert t'. induction t as [|[k v] rest IH]; intros t'; cbn [record_last_image].
  - intros [= <-]. split; [reflexivity|]. split; [discriminate|]. split.
    + intros k Hk. rewrite lookup_key_cons.
      destruct (String.eqb_spec k "_user_last_images"); [contradiction | reflexivity].
    + exists [(user_id, info)]. rewrite lookup_key_cons, String.eqb_refl.
      split; [reflexivity|]. cbn [get_member lookup_key].
      rewrite String.eqb_refl. split; [reflexivity|].
      intros other Ho. destruct (String.eqb_spec other user_id);
        [contradiction | reflexivity].
  - destruct (String.eqb_spec "_user_last_images" k) as [<-|Hne].
    + destruct v as [entries|members]; [discriminate|]. intros [= <-].
      split; [reflexivity|]. split; [discriminate|]. split.
      * intros k Hk. rewrite !lookup_key_cons.
        destruct (String.eqb_spec k "_user_last_images"); [contradiction | reflexivity].
      * exists (set_member user_id info members).
        rewrite !lookup_key_cons, String.eqb_refl. split; [reflexivity|].
        apply get_set_member.
    + destruct (record_last_image user_id info rest) as [rest'|] eqn:Hrest;
        [|discriminate].
      cbn [mbind option_bind]. intros [= <-].
      destruct (IH rest' eq_refl) as (Hkeys & _ & Hlook & members & Hm & Hget & Hothers).
      split; [|split; [discriminate|split]].
      * unfold valid_keys_list in *. cbn [fmap list_fmap fst List.filter].
        rewrite Hkeys. reflexivity.
      * intros k0 Hk0. rewrite !lookup_key_cons.
        destruct (String.eqb k0 k); [reflexivity | exact (Hlook k0 Hk0)].
      * exists members. rewrite !lookup_key_cons.
        destruct (String.eqb_spec "_user_last_images" k); [contradiction|].
        split; [exact Hm|]. split; [exact Hget | exact Hothers].
Qed.

Section RecordSelection.
Context {Rng : Type}.
Variable seed : string -> Rng.
Variable random53 : Rng -> Z * Rng.
Variable randbelow : Rng -> nat -> nat * Rng.

Local Abbreviation select :=
  (generate_image_sync_select seed random53 randbelow).

(** X4: recording the last image of a user in the document (lines 152 to
    169 of [main.py]) changes nothing for the painter: the keys it draws
    from and the entries under every other key are the same, and on a
    document that was not empty the selection is the same whatever the
    configuration, the date and the generator.  The record written is the
    one read back for the user, and the records of the other users are
    kept. *)
Theorem recording_keeps_selection (user_id : string) (info : LastImage)
    (t t' : Table) :
  record_last_image user_id info t = Some t' ->
  valid_keys_list t' = valid_keys_list t
  /\ (forall k, k <> "_user_last_images" -> lookup_key k t' = lookup_key k t)
  /\ (exists members,
        lookup_key "_user_last_images" t' = Some (JDict members)
        /\ get_member user_id members = Some info
        /\ forall other, other <> user_id ->
             get_member other members
             = match lookup_key "_user_last_images" t with
               | Some (JDict old) => get_member other old
               | _ => None
               end)
  /\ (t <> [] ->
      forall cfg u now rng0, select cfg u now rng0 t' = select cfg u now rng0 t).
Proof.
  intros Hrec.
  destruct (record_last_image_effect user_id info t t' Hrec)
    as (Hkeys & Hne & Hlook & Hmembers).
  split; [exact Hkeys|]. split; [exact Hlook|]. split; [exact Hmembers|].
  intros Ht cfg u now rng0. unfold generate_image_sync_select.
  destruct t as [|x t]; [contradiction|]. destruct t' as [|x' t'']; [contradiction|].
  assert (Hdraw : forall rng,
            draw_key random53 cfg now (x' :: t'') rng
            = draw_key random53 cfg now (x :: t) rng).
  { intros rng. unfold draw_key. rewrite Hkeys. reflexivity. }
  rewrite Hdraw.
  destruct (draw_key random53 cfg now (x :: t) (make_rng seed cfg rng0 u now))
    as [[k rng']|e] eqn:Hd; [|reflexivity].
  cbn [mbind result_bind].
  destruct (draw_key_sound random53 cfg now (x :: t) _ rng' k Hd) as [Hin _].
  assert (Hk : k <> "_user_last_images").
  { intros ->. unfold valid_keys_list in Hin. apply filter_In in Hin as [_ Hs].
    discriminate. }
  unfold pick_entry. rewrite (Hlook k Hk). reflexivity.
Qed.
End RecordSelection.

Lemma recording_keeps_selection_witness :
  exists t',
    record_last_image "u1" {| path := "/tmp/bg.png"; should_cleanup := true |}
      Sample.table = Some t'
    /\ valid_keys_list t' = ["80"; "60"; "10"]
    /\ generate_image_sync_select Sample.seed Sample.random53 Sample.randbelow
         Sample.config "u1" Sample.morning 0%Z t'
       = generate_image_sync_select Sample.seed Sample.random53 Sample.randbelow
           Sample.config "u1" Sample.morning 0%Z Sample.table.
Proof.
  eexists. split; [reflexivity|].
  destruct (recording_keeps_selection Sample.seed Sample.random53 Sample.randbelow
              "u1" {| path := "/tmp/bg.png"; should_cleanup := true |}
              Sample.table _ eq_refl) as (Hkeys & _ & _ & Hsel).
  split; [exact Hkeys|]. apply Hsel. discriminate.
Defined.

(** ** [_pre_cache_background_images]: the numbers reported *)

Section PreCacheFacts.
Variable sha256_hex : string -> string.
Variable url_suffix : string -> string.
Variable cache_dir : string.

Local Abbreviation cache_path_for :=
  (_background_cache_path_for_url sha256_hex url_suffix cache_dir).
Local Abbreviation plan := (pre_cache_plan sha256_hex url_suffix cache_dir).
Local Abbreviation pre_cache :=
  (_pre_cache_background_images sha256_hex url_suffix cache_dir).

Lemma pre_cache_plan_split (urls : list string) (w : World) :
  (fst (plan urls w) + length (snd (plan urls w)) = length urls)%nat
  /\ (forall url dest, In (url, dest) (snd (plan urls w)) ->
        In url urls /\ dest = cache_path_for url /\ files w !! dest = None)
  /\ (forall url, In url urls -> files w !! cache_path_for url = None ->
        In (url, cache_path_for url) (snd (plan urls w))).
Proof.
  induction urls as [|url rest (IHn & IHin & IHall)]; cbn [pre_cache_plan].
  { cbn. split; [reflexivity|]. split; intros; contradiction. }
  destruct (plan rest w) as [cached downloads] eqn:Hp. cbn [fst snd] in *.
  destruct (files w !! cache_path_for url) as [c|] eqn:Hc; cbn [fst snd length].
  - split; [lia|]. split.
    + intros u d Hin. destruct (IHin u d Hin) as (H1 & H2 & H3).
      split; [right; exact H1 | split; assumption].
    + intros u [<-|Hin] Hu; [congruence | exact (IHall u Hin Hu)].
  - split; [lia|]. split.
    + intros u d [[= <- <-]|Hin].
      * split; [left; reflexivity | split; [reflexivity | exact Hc]].
      * destruct (IHin u d Hin) as (H1 & H2 & H3).
        split; [right; exact H1 | split; assumption].
    + intros u [<-|Hin] Hu; [left; reflexivity | right; exact (IHall u Hin Hu)].
Qed.

Lemma tally_length (results : list gather_result) :
  (fst (tally results) + snd (tally results) = length results)%nat.
Proof.
  induction results as [|r rest IH]; [reflexivity|]. cbn [tally].
  destruct (tally rest) as [done bad]. cbn [fst snd] in IH.
  destruct r; cbn [fst snd length]; lia.
Qed.

End PreCacheFacts.

(** ** [_load_jrys_data] and [_save_jrys_data] *)

Section DataStoreFacts.
Variable Doc : Type.
Variable json_loads : string -> option Doc.
Variable json_dumps : Doc -> string.
Variable empty_dict : Doc.

Local Abbreviation load := (_load_jrys_data Doc json_loads empty_dict).
Local Abbreviation save := (_save_jrys_data Doc json_dumps).


End DataStoreFacts.

